(** * Conquest: the simulation core of [game.js]

    [game.js] holds three successive versions of the game.  This is a
    shallow embedding of the second one, the version with building upgrades
    and the AI opponent (classes [Soldier], [Building], [AIController] and
    [MainScene]; the class [Soldier] is the same in all three), followed by
    the properties of its troop economy, arrival resolution, dispatch,
    upgrades, AI hold rule and terminal detection.

    Numbers.  JavaScript has one number type, the IEEE 754 binary64 float.
    Positions, velocities, frame deltas, scores and probabilities are kept as
    binary64 values ([float], the kernel's primitive floats, which compute
    exactly as the JavaScript operators [+ - * /], [Math.sqrt] and the
    comparisons do).  Troop counts, levels and millisecond timestamps only
    ever hold integers in the program (they start from integer literals and
    change by [++], [--], integer subtraction and [Math.abs]); they are kept
    as [Z].  [JS.Z2float] is the (correctly rounded) reading of such an
    integer as a number where the source mixes the two.

    Objects.  Buildings live in the array [this.buildings] and are never
    removed from it during a match; a building reference is its index in that
    array.  Real soldiers are referenced from [this.activeSoldiers] only and
    are stored there by value.  The placeholder objects of [sendSoldiers] are
    shared between [this.activeSoldiers] and the closure of the delayed
    spawns, so they live in a store and are referred to by index.

    The outside world.  The readings of [Date.now()] and [Math.random()], the
    values of [Math.cos] and [Math.sin] in the spawn callback, the frame
    times and the pointer presses are inputs of the functions that use them.
    The engine's clock is the list of pending delayed calls; a match runs
    from [create] to the restart of the scene, which is not modelled.
    Display objects (texts, tweens, camera, graphics) are left out. *)

From Stdlib Require Import ZArith Floats Lia.
From stdpp Require Import base list.

Set Warnings "-inexact-float".
Local Open Scope Z_scope.

(** ** JavaScript numerics *)

Module JS.

(** An integer read as a binary64 number (round to nearest even; exact below
    2^53 in absolute value). *)
Definition Z2float (z : Z) : float :=
  SF2Prim (binary_normalize prec emax z 0 false).

(** The integer part towards minus infinity of a finite number; [None] on
    NaN and the infinities. *)
Definition floorZ (f : float) : option Z :=
  match Prim2SF f with
  | S754_zero _ => Some 0
  | S754_finite sgn m e =>
      let v := if sgn then Z.neg m else Z.pos m in
      Some (if 0 <=? e then v * 2 ^ e else v / 2 ^ (- e))
  | S754_infinity _ | S754_nan => None
  end.

(** [Math.floor]: zeros, infinities and NaN are returned as they are. *)
Definition Math_floor (f : float) : float :=
  match floorZ f with
  | Some z => if PrimFloat.is_zero f then f else Z2float z
  | None => f
  end.

(** [Math.ceil x] is [- Math.floor (- x)]. *)
Definition Math_ceil (f : float) : float :=
  PrimFloat.opp (Math_floor (PrimFloat.opp f)).

(** [Math.max] and [Math.min] of two numbers: NaN when either is NaN, and
    [+0] counts as larger than [-0]. *)
Definition Math_max (a b : float) : float :=
  if PrimFloat.is_nan a || PrimFloat.is_nan b then PrimFloat.nan
  else if PrimFloat.ltb a b then b
  else if PrimFloat.ltb b a then a
  else if PrimFloat.get_sign a then b else a.

Definition Math_min (a b : float) : float :=
  if PrimFloat.is_nan a || PrimFloat.is_nan b then PrimFloat.nan
  else if PrimFloat.ltb a b then a
  else if PrimFloat.ltb b a then b
  else if PrimFloat.get_sign a then a else b.

(** [Math.pow base n] for an integer exponent [n], by repeated
    multiplication.  (The last bit of [Math.pow] is left to the engine by the
    language standard; the only use compares the result, times 1000, with an
    integer number of milliseconds.) *)
Definition Math_pow (base : float) (n : Z) : float :=
  let p := Z.iter (Z.abs n) (fun acc => PrimFloat.mul acc base) PrimFloat.one in
  if n <? 0 then PrimFloat.div PrimFloat.one p else p.

(** An integer-valued finite number read back as an integer.  Used where a
    count computed by [Math.floor]/[Math.ceil]/[Math.min] is handed to code
    that keeps counts as [Z]; on NaN and the infinities (which the callers
    exclude, see [MainScene.attackTarget]) it is 0. *)
Definition float2Z (f : float) : Z :=
  match floorZ f with Some z => z | None => 0 end.

(** [Phaser.Math.Distance.Between(x1, y1, x2, y2)], the engine's helper:
    [Math.sqrt(dx * dx + dy * dy)]. *)
Definition Distance_Between (x1 y1 x2 y2 : float) : float :=
  let dx := PrimFloat.sub x1 x2 in
  let dy := PrimFloat.sub y1 y2 in
  PrimFloat.sqrt (PrimFloat.add (PrimFloat.mul dx dx) (PrimFloat.mul dy dy)).

End JS.

(** ** Factions *)

(** The values of [building.ownership]: the strings ['player'], ['enemy'] and
    ['neutral']. *)
Inductive Ownership := player | enemy | neutral.

#[global] Instance Ownership_eq_dec : EqDecision Ownership.
Proof. solve_decision. Defined.

(** [isPlayerOwned ? 'player' : 'enemy'] *)
Definition owner_of (isPlayerOwned : bool) : Ownership :=
  if isPlayerOwned then player else enemy.

(** ** class Soldier *)

Module Soldier.

Record t := mk {
  x : float;
  y : float;
  isPlayerOwned : bool;
  vx : float;
  vy : float;
  targetX : float;
  targetY : float;
  (** set by the spawn callback of [sendSoldiers], never read *)
  targetBuilding : option nat;
  (** the engine's [active] flag: true until [destroy()] *)
  active : bool
}.

(** [constructor(scene, x, y, targetX, targetY, isPlayerOwned)] *)
Definition constructor (x0 y0 targetX0 targetY0 : float) (isPlayerOwned0 : bool) : t :=
  let dx := PrimFloat.sub targetX0 x0 in
  let dy := PrimFloat.sub targetY0 y0 in
  let distance := PrimFloat.sqrt (PrimFloat.add (PrimFloat.mul dx dx) (PrimFloat.mul dy dy)) in
  let speed := 200%float in
  {| x := x0; y := y0; isPlayerOwned := isPlayerOwned0;
     vx := PrimFloat.mul (PrimFloat.div dx distance) speed;
     vy := PrimFloat.mul (PrimFloat.div dy distance) speed;
     targetX := targetX0; targetY := targetY0;
     targetBuilding := None; active := true |}.

(** [update(time, delta)]: the moved soldier and whether it reached its
    target. *)
Definition update (delta : float) (s : t) : t * bool :=
  let deltaSeconds := PrimFloat.div delta 1000%float in
  let x' := PrimFloat.add (x s) (PrimFloat.mul (vx s) deltaSeconds) in
  let y' := PrimFloat.add (y s) (PrimFloat.mul (vy s) deltaSeconds) in
  let dx := PrimFloat.sub (targetX s) x' in
  let dy := PrimFloat.sub (targetY s) y' in
  let distanceSquared := PrimFloat.add (PrimFloat.mul dx dx) (PrimFloat.mul dy dy) in
  ({| x := x'; y := y'; isPlayerOwned := isPlayerOwned s;
      vx := vx s; vy := vy s; targetX := targetX s; targetY := targetY s;
      targetBuilding := targetBuilding s; active := active s |},
   PrimFloat.ltb distanceSquared 100%float).

(** [destroy()] *)
Definition destroy (s : t) : t :=
  {| x := x s; y := y s; isPlayerOwned := isPlayerOwned s;
     vx := vx s; vy := vy s; targetX := targetX s; targetY := targetY s;
     targetBuilding := targetBuilding s; active := false |}.

Definition set_targetBuilding (i : nat) (s : t) : t :=
  {| x := x s; y := y s; isPlayerOwned := isPlayerOwned s;
     vx := vx s; vy := vy s; targetX := targetX s; targetY := targetY s;
     targetBuilding := Some i; active := active s |}.

End Soldier.

(** ** class Building *)

Module Building.

Record t := mk {
  x : float;
  y : float;
  soldiers : Z;
  lastUpdate : Z;
  isSelected : bool;
  ownership : Ownership;
  isPlayerOwned : bool;
  level : Z;
  isUpgrading : bool;
  upgradeProgress : Z;
  upgradeTime : Z;
  lastClickTime : Z;
  (** the engine's [active] flag *)
  active : bool
}.

(** [constructor(scene, x, y, ownership)]; [now] is the reading of
    [Date.now()]. *)
Definition constructor (now : Z) (x0 y0 : float) (o : Ownership) : t :=
  {| x := x0; y := y0; soldiers := 10; lastUpdate := now; isSelected := false;
     ownership := o; isPlayerOwned := bool_decide (o = player);
     level := 1; isUpgrading := false; upgradeProgress := 0;
     upgradeTime := 3000; lastClickTime := 0; active := true |}.

Definition set_soldiers (n : Z) (b : t) : t :=
  {| x := x b; y := y b; soldiers := n; lastUpdate := lastUpdate b;
     isSelected := isSelected b; ownership := ownership b;
     isPlayerOwned := isPlayerOwned b; level := level b;
     isUpgrading := isUpgrading b; upgradeProgress := upgradeProgress b;
     upgradeTime := upgradeTime b; lastClickTime := lastClickTime b;
     active := active b |}.

Definition set_lastUpdate (n : Z) (b : t) : t :=
  {| x := x b; y := y b; soldiers := soldiers b; lastUpdate := n;
     isSelected := isSelected b; ownership := ownership b;
     isPlayerOwned := isPlayerOwned b; level := level b;
     isUpgrading := isUpgrading b; upgradeProgress := upgradeProgress b;
     upgradeTime := upgradeTime b; lastClickTime := lastClickTime b;
     active := active b |}.

Definition set_lastClickTime (n : Z) (b : t) : t :=
  {| x := x b; y := y b; soldiers := soldiers b; lastUpdate := lastUpdate b;
     isSelected := isSelected b; ownership := ownership b;
     isPlayerOwned := isPlayerOwned b; level := level b;
     isUpgrading := isUpgrading b; upgradeProgress := upgradeProgress b;
     upgradeTime := upgradeTime b; lastClickTime := n;
     active := active b |}.

Definition set_upgradeProgress (n : Z) (b : t) : t :=
  {| x := x b; y := y b; soldiers := soldiers b; lastUpdate := lastUpdate b;
     isSelected := isSelected b; ownership := ownership b;
     isPlayerOwned := isPlayerOwned b; level := level b;
     isUpgrading := isUpgrading b; upgradeProgress := n;
     upgradeTime := upgradeTime b; lastClickTime := lastClickTime b;
     active := active b |}.

Definition set_isUpgrading (u : bool) (b : t) : t :=
  {| x := x b; y := y b; soldiers := soldiers b; lastUpdate := lastUpdate b;
     isSelected := isSelected b; ownership := ownership b;
     isPlayerOwned := isPlayerOwned b; level := level b;
     isUpgrading := u; upgradeProgress := upgradeProgress b;
     upgradeTime := upgradeTime b; lastClickTime := lastClickTime b;
     active := active b |}.

Definition set_level (n : Z) (b : t) : t :=
  {| x := x b; y := y b; soldiers := soldiers b; lastUpdate := lastUpdate b;
     isSelected := isSelected b; ownership := ownership b;
     isPlayerOwned := isPlayerOwned b; level := n;
     isUpgrading := isUpgrading b; upgradeProgress := upgradeProgress b;
     upgradeTime := upgradeTime b; lastClickTime := lastClickTime b;
     active := active b |}.

(** [setSelected(selected)] *)
Definition setSelected (sel : bool) (b : t) : t :=
  {| x := x b; y := y b; soldiers := soldiers b; lastUpdate := lastUpdate b;
     isSelected := sel; ownership := ownership b;
     isPlayerOwned := isPlayerOwned b; level := level b;
     isUpgrading := isUpgrading b; upgradeProgress := upgradeProgress b;
     upgradeTime := upgradeTime b; lastClickTime := lastClickTime b;
     active := active b |}.

(** The field writes of [setOwnership(newOwnership)]: both representations
    of the owner.  Its call of [scene.calculateSoldierCounts()] is made by
    [MainScene.setOwnership]. *)
Definition setOwnership (o : Ownership) (b : t) : t :=
  {| x := x b; y := y b; soldiers := soldiers b; lastUpdate := lastUpdate b;
     isSelected := isSelected b; ownership := o;
     isPlayerOwned := bool_decide (o = player); level := level b;
     isUpgrading := isUpgrading b; upgradeProgress := upgradeProgress b;
     upgradeTime := upgradeTime b; lastClickTime := lastClickTime b;
     active := active b |}.

(** [startUpgrade()]: the building afterwards, and whether the method went on
    to its last statement, the call of [scene.calculateSoldierCounts()]
    (made by [MainScene.startUpgrade]).  The camera shake and the red flash
    of the refusal are cosmetic. *)
Definition startUpgrade (b : t) : t * bool :=
  if isUpgrading b then (b, false)
  else
    let upgradeCost := 5 * level b in
    if soldiers b <? upgradeCost then (b, false)
    else
      (set_upgradeProgress 0
         (set_isUpgrading true (set_soldiers (soldiers b - upgradeCost) b)),
       true).

(** The upgrade half of [update(time, delta, scene)]. *)
Definition updateUpgrade (elapsedMs : Z) (b : t) : t :=
  if isUpgrading b then
    let b1 := set_upgradeProgress (upgradeProgress b + elapsedMs) b in
    if upgradeTime b1 <=? upgradeProgress b1
    then set_isUpgrading false (set_level (level b1 + 1) b1)
    else b1
  else b.

(** [baseGenerationTime * Math.pow(0.85, this.level - 1)] *)
Definition generationTime (b : t) : float :=
  PrimFloat.mul 1000%float (JS.Math_pow 0.85%float (level b - 1)).

(** [update(time, delta, scene)], with [now] the reading of [Date.now()]:
    the building afterwards, and whether a soldier was generated (in which
    case the method calls [scene.calculateSoldierCounts()], see
    [MainScene.buildingUpdate]). *)
Definition update (now : Z) (b : t) : t * bool :=
  let elapsedMs := now - lastUpdate b in
  let b1 := updateUpgrade elapsedMs b in
  if negb (bool_decide (ownership b1 = neutral)) && negb (isUpgrading b1) then
    if PrimFloat.leb (generationTime b1) (JS.Z2float elapsedMs)
    then (set_lastUpdate now (set_soldiers (soldiers b1 + 1) b1), true)
    else (b1, false)
  else (set_lastUpdate now b1, false).

End Building.

(** ** class AIController: settings and the evaluation of options *)

Module AIController.

Inductive Difficulty := easy | medium | hard.

Record Settings := mkSettings {
  s_decisionInterval : float;
  s_aggressiveness : float;
  s_expansionPriority : float;
  s_minSoldiersToKeep : float;
  s_targetAnalysisDepth : Z
}.

(** [this.difficultySettings] *)
Definition difficultySettings (d : Difficulty) : Settings :=
  match d with
  | easy => mkSettings 2000 0.4 0.6 0.5 1
  | medium => mkSettings 1000 0.7 0.8 0.3 2
  | hard => mkSettings 500 0.9 0.9 0.2 3
  end.

Record t := mk {
  lastDecisionTime : float;
  decisionInterval : float;
  difficultyLevel : Difficulty;
  aggressiveness : float;
  expansionPriority : float;
  minSoldiersToKeep : float;
  targetAnalysisDepth : Z
}.

(** [applyDifficultySettings()] *)
Definition applyDifficultySettings (ai : t) : t :=
  let settings := difficultySettings (difficultyLevel ai) in
  {| lastDecisionTime := lastDecisionTime ai;
     decisionInterval := s_decisionInterval settings;
     difficultyLevel := difficultyLevel ai;
     aggressiveness := s_aggressiveness settings;
     expansionPriority := s_expansionPriority settings;
     minSoldiersToKeep := s_minSoldiersToKeep settings;
     targetAnalysisDepth := s_targetAnalysisDepth settings |}.

(** [setDifficulty(level)], for a [level] that is a key of the table. *)
Definition setDifficulty (d : Difficulty) (ai : t) : t :=
  applyDifficultySettings
    {| lastDecisionTime := lastDecisionTime ai;
       decisionInterval := decisionInterval ai;
       difficultyLevel := d;
       aggressiveness := aggressiveness ai;
       expansionPriority := expansionPriority ai;
       minSoldiersToKeep := minSoldiersToKeep ai;
       targetAnalysisDepth := targetAnalysisDepth ai |}.

(** [constructor(scene)] *)
Definition constructor : t :=
  applyDifficultySettings
    {| lastDecisionTime := 0; decisionInterval := 1000;
       difficultyLevel := medium; aggressiveness := 0.7;
       expansionPriority := 0.8; minSoldiersToKeep := 0.3;
       targetAnalysisDepth := 2 |}.

Definition set_lastDecisionTime (time : float) (ai : t) : t :=
  {| lastDecisionTime := time;
     decisionInterval := decisionInterval ai;
     difficultyLevel := difficultyLevel ai;
     aggressiveness := aggressiveness ai;
     expansionPriority := expansionPriority ai;
     minSoldiersToKeep := minSoldiersToKeep ai;
     targetAnalysisDepth := targetAnalysisDepth ai |}.

(** The buildings of [this.scene.buildings] (here [bs]) that are active and
    owned by [o], each with its index: [getEnemyBuildings()],
    [getPlayerBuildings()] and [getNeutralBuildings()]. *)
Definition buildingsOf (o : Ownership) (bs : list Building.t) : list (nat * Building.t) :=
  List.filter
    (fun ib => Building.active (snd ib) && bool_decide (Building.ownership (snd ib) = o))
    (imap (fun i b => (i, b)) bs).

Definition getEnemyBuildings := buildingsOf enemy.
Definition getPlayerBuildings := buildingsOf player.
Definition getNeutralBuildings := buildingsOf neutral.

(** [calculateThreatLevel(building, playerBuildings)] *)
Definition calculateThreatLevel (building : Building.t)
    (playerBuildings : list (nat * Building.t)) : float :=
  let threatLevel :=
    foldl
      (fun threatLevel ib =>
         let playerBuilding := snd ib in
         let distance :=
           JS.Distance_Between (Building.x building) (Building.y building)
             (Building.x playerBuilding) (Building.y playerBuilding) in
         if PrimFloat.ltb distance 300 then
           let distanceFactor := (1 - distance / 300)%float in
           let strengthFactor := (JS.Z2float (Building.soldiers playerBuilding) / 30)%float in
           (threatLevel + distanceFactor * strengthFactor)%float
         else threatLevel)
      0%float playerBuildings in
  JS.Math_min 1 threatLevel.

(** The entries of the target arrays: [{ building, score, distance }]. *)
Record Target := mkTarget {
  building : nat;
  score : float;
  distance : float
}.

(** [targets.sort((a, b) => b.score - a.score)]: the sort is stable, so an
    entry is placed after the entries before which the comparator does not
    put it. *)
Fixpoint insertByScore (a : Target) (l : list Target) : list Target :=
  match l with
  | [] => [a]
  | b :: l' =>
      (* the comparator, called on (a, b), is positive: b goes first *)
      if PrimFloat.ltb 0 (PrimFloat.sub (score b) (score a))
      then b :: insertByScore a l'
      else a :: l
  end.

Definition sortByScore (l : list Target) : list Target :=
  foldr insertByScore [] l.

(** [evaluateExpansionTargets(building, neutralBuildings)] *)
Definition evaluateExpansionTargets (building : Building.t)
    (neutralBuildings : list (nat * Building.t)) : list Target :=
  let targets :=
    foldl
      (fun targets ib =>
         let neutralBuilding := snd ib in
         let distance :=
           JS.Distance_Between (Building.x building) (Building.y building)
             (Building.x neutralBuilding) (Building.y neutralBuilding) in
         let distanceScore := (1000 / (distance + 1))%float in
         let soldierScore := (20 / JS.Z2float (Building.soldiers neutralBuilding + 1))%float in
         let canCapture :=
           PrimFloat.ltb (JS.Z2float (Building.soldiers neutralBuilding) * 1.2)%float
                         (JS.Z2float (Building.soldiers building)) in
         if canCapture
         then targets ++ [mkTarget (fst ib) (distanceScore * soldierScore)%float distance]
         else targets)
      [] neutralBuildings in
  sortByScore targets.

(** [evaluateAttackTargets(building, playerBuildings)] *)
Definition evaluateAttackTargets (building : Building.t)
    (playerBuildings : list (nat * Building.t)) : list Target :=
  let targets :=
    foldl
      (fun targets ib =>
         let playerBuilding := snd ib in
         let distance :=
           JS.Distance_Between (Building.x building) (Building.y building)
             (Building.x playerBuilding) (Building.y playerBuilding) in
         let distanceScore := (1000 / (distance + 1))%float in
         let soldierScore := (30 / JS.Z2float (Building.soldiers playerBuilding + 1))%float in
         let levelScore := JS.Z2float (Building.level playerBuilding * 2) in
         let canAttack :=
           PrimFloat.ltb (JS.Z2float (Building.soldiers playerBuilding) * 1.5)%float
                         (JS.Z2float (Building.soldiers building)) in
         if canAttack
         then targets ++ [mkTarget (fst ib) (distanceScore * soldierScore * levelScore)%float distance]
         else targets)
      [] playerBuildings in
  sortByScore targets.

(** The object returned by [evaluateStrategicOptions]:
    [{ action, target, soldierCount }]. *)
Inductive Decision :=
  | hold
  | upgrade
  | expand (target : nat) (soldierCount : float)
  | attack (target : nat) (soldierCount : float).

(** The three readings of [Math.random()] that one call of
    [evaluateStrategicOptions] can make, one per call site. *)
Record Draws := mkDraws {
  r_upgrade : float;
  r_expand : float;
  r_attack : float
}.

(** [Math.max(1, Math.floor(building.soldiers * (1 - this.minSoldiersToKeep * threatLevel)))] *)
Definition maxSoldiersToSend (ai : t) (bs : list Building.t) (building : Building.t) : float :=
  let threatLevel := calculateThreatLevel building (getPlayerBuildings bs) in
  JS.Math_max 1
    (JS.Math_floor
       (JS.Z2float (Building.soldiers building) * (1 - minSoldiersToKeep ai * threatLevel))%float).

(** [target.building.soldiers], read through the reference held by the
    target entry. *)
Definition targetSoldiers (bs : list Building.t) (tg : Target) : Z :=
  match bs !! building tg with
  | Some b => Building.soldiers b
  | None => 0
  end.

(** [evaluateStrategicOptions(building)] *)
Definition evaluateStrategicOptions (ai : t) (bs : list Building.t)
    (building : Building.t) (rnd : Draws) : Decision :=
  let playerBuildings := getPlayerBuildings bs in
  let neutralBuildings := getNeutralBuildings bs in
  let expansionTargets := evaluateExpansionTargets building neutralBuildings in
  let attackTargets := evaluateAttackTargets building playerBuildings in
  let maxSoldiersToSend := maxSoldiersToSend ai bs building in
  let sendAttack :=
    (* the last [if] of the method and its default *)
    match attackTargets with
    | target :: _ =>
        if PrimFloat.ltb (r_attack rnd) (aggressiveness ai) then
          attack (AIController.building target)
            (JS.Math_min maxSoldiersToSend
               (JS.Math_ceil (JS.Z2float (targetSoldiers bs target) * 1.5)%float))
        else hold
    | [] => hold
    end in
  if PrimFloat.leb maxSoldiersToSend 1 then hold
  else if (Building.level building <? 3) && (15 <? Building.soldiers building)
          && PrimFloat.ltb (r_upgrade rnd) 0.1
  then upgrade
  else
    match expansionTargets with
    | target :: _ =>
        if PrimFloat.ltb (r_expand rnd) (expansionPriority ai) then
          expand (AIController.building target)
            (JS.Math_min maxSoldiersToSend
               (JS.Math_ceil (JS.Z2float (targetSoldiers bs target) * 1.5)%float))
        else sendAttack
    | [] => sendAttack
    end.

End AIController.

(** ** class MainScene *)

Module MainScene.

(** The placeholder objects of [sendSoldiers]:
    [{ active, isPlayerOwned, destroy }]. *)
Record Placeholder := mkPlaceholder {
  p_active : bool;
  p_isPlayerOwned : bool
}.

(** An entry of [this.activeSoldiers]: a [Soldier], or a reference to a
    placeholder object of the store. *)
Inductive ActiveSoldier :=
  | Real (soldier : Soldier.t)
  | PlaceholderRef (r : nat).

(** The variables captured by the spawn callbacks of one call of
    [sendSoldiers].  ([angleToTarget] only feeds [Math.cos] and [Math.sin],
    whose results the callback receives, see [SpawnDraws].) *)
Record SpawnClosure := mkSpawnClosure {
  sourceBuilding : nat;
  targetBuilding : nat;
  placeholderSoldiers : list nat;
  spawnedSoldiers : Z;
  soldiersToSend : Z
}.

(** A pending [this.time.delayedCall(delay, callback)]: the callback is the
    spawn function over the closure of that index. *)
Record DelayedCall := mkDelayedCall {
  delay : Z;
  callback : nat
}.

Record t := mk {
  gameOver : bool;
  selectedBuilding : option nat;
  (** [this.players.player.soldierCount], [this.players.enemy.soldierCount] *)
  playerSoldierCount : Z;
  enemySoldierCount : Z;
  activeSoldiers : list ActiveSoldier;
  buildings : list Building.t;
  aiController : AIController.t;
  (** the store of placeholder objects *)
  placeholders : list Placeholder;
  (** the closures of the calls of [sendSoldiers] *)
  closures : list SpawnClosure;
  (** the engine clock's pending delayed calls *)
  delayedCalls : list DelayedCall;
  (** the calls of [showGameOverModal(isWin)] so far, oldest first *)
  shownModals : list bool
}.

Definition set_gameOver (v : bool) (s : t) : t :=
  {| gameOver := v; selectedBuilding := selectedBuilding s;
     playerSoldierCount := playerSoldierCount s;
     enemySoldierCount := enemySoldierCount s;
     activeSoldiers := activeSoldiers s; buildings := buildings s;
     aiController := aiController s; placeholders := placeholders s;
     closures := closures s; delayedCalls := delayedCalls s;
     shownModals := shownModals s |}.

Definition set_selectedBuilding (v : option nat) (s : t) : t :=
  {| gameOver := gameOver s; selectedBuilding := v;
     playerSoldierCount := playerSoldierCount s;
     enemySoldierCount := enemySoldierCount s;
     activeSoldiers := activeSoldiers s; buildings := buildings s;
     aiController := aiController s; placeholders := placeholders s;
     closures := closures s; delayedCalls := delayedCalls s;
     shownModals := shownModals s |}.

Definition set_soldierCounts (p e : Z) (s : t) : t :=
  {| gameOver := gameOver s; selectedBuilding := selectedBuilding s;
     playerSoldierCount := p;
     enemySoldierCount := e;
     activeSoldiers := activeSoldiers s; buildings := buildings s;
     aiController := aiController s; placeholders := placeholders s;
     closures := closures s; delayedCalls := delayedCalls s;
     shownModals := shownModals s |}.

Definition set_activeSoldiers (v : list ActiveSoldier) (s : t) : t :=
  {| gameOver := gameOver s; selectedBuilding := selectedBuilding s;
     playerSoldierCount := playerSoldierCount s;
     enemySoldierCount := enemySoldierCount s;
     activeSoldiers := v; buildings := buildings s;
     aiController := aiController s; placeholders := placeholders s;
     closures := closures s; delayedCalls := delayedCalls s;
     shownModals := shownModals s |}.

Definition set_buildings (v : list Building.t) (s : t) : t :=
  {| gameOver := gameOver s; selectedBuilding := selectedBuilding s;
     playerSoldierCount := playerSoldierCount s;
     enemySoldierCount := enemySoldierCount s;
     activeSoldiers := activeSoldiers s; buildings := v;
     aiController := aiController s; placeholders := placeholders s;
     closures := closures s; delayedCalls := delayedCalls s;
     shownModals := shownModals s |}.

Definition set_aiController (v : AIController.t) (s : t) : t :=
  {| gameOver := gameOver s; selectedBuilding := selectedBuilding s;
     playerSoldierCount := playerSoldierCount s;
     enemySoldierCount := enemySoldierCount s;
     activeSoldiers := activeSoldiers s; buildings := buildings s;
     aiController := v; placeholders := placeholders s;
     closures := closures s; delayedCalls := delayedCalls s;
     shownModals := shownModals s |}.

Definition set_placeholders (v : list Placeholder) (s : t) : t :=
  {| gameOver := gameOver s; selectedBuilding := selectedBuilding s;
     playerSoldierCount := playerSoldierCount s;
     enemySoldierCount := enemySoldierCount s;
     activeSoldiers := activeSoldiers s; buildings := buildings s;
     aiController := aiController s; placeholders := v;
     closures := closures s; delayedCalls := delayedCalls s;
     shownModals := shownModals s |}.

Definition set_closures (v : list SpawnClosure) (s : t) : t :=
  {| gameOver := gameOver s; selectedBuilding := selectedBuilding s;
     playerSoldierCount := playerSoldierCount s;
     enemySoldierCount := enemySoldierCount s;
     activeSoldiers := activeSoldiers s; buildings := buildings s;
     aiController := aiController s; placeholders := placeholders s;
     closures := v; delayedCalls := delayedCalls s;
     shownModals := shownModals s |}.

Definition set_delayedCalls (v : list DelayedCall) (s : t) : t :=
  {| gameOver := gameOver s; selectedBuilding := selectedBuilding s;
     playerSoldierCount := playerSoldierCount s;
     enemySoldierCount := enemySoldierCount s;
     activeSoldiers := activeSoldiers s; buildings := buildings s;
     aiController := aiController s; placeholders := placeholders s;
     closures := closures s; delayedCalls := v;
     shownModals := shownModals s |}.

(** [showGameOverModal(isWin)]: the modal itself is presentation; the call
    is recorded. *)
Definition showGameOverModal (isWin : bool) (s : t) : t :=
  {| gameOver := gameOver s; selectedBuilding := selectedBuilding s;
     playerSoldierCount := playerSoldierCount s;
     enemySoldierCount := enemySoldierCount s;
     activeSoldiers := activeSoldiers s; buildings := buildings s;
     aiController := aiController s; placeholders := placeholders s;
     closures := closures s; delayedCalls := delayedCalls s;
     shownModals := shownModals s ++ [isWin] |}.

(** A write through a building reference. *)
Definition modifyBuilding (i : nat) (f : Building.t -> Building.t) (s : t) : t :=
  set_buildings (alter f i (buildings s)) s.

(** [soldier.active] and [soldier.isPlayerOwned] of an entry of
    [this.activeSoldiers]. *)
Definition soldierActive (s : t) (u : ActiveSoldier) : bool :=
  match u with
  | Real soldier => Soldier.active soldier
  | PlaceholderRef r =>
      match placeholders s !! r with
      | Some p => p_active p
      | None => false
      end
  end.

Definition soldierIsPlayerOwned (s : t) (u : ActiveSoldier) : bool :=
  match u with
  | Real soldier => Soldier.isPlayerOwned soldier
  | PlaceholderRef r =>
      match placeholders s !! r with
      | Some p => p_isPlayerOwned p
      | None => false
      end
  end.

(** [calculateSoldierCounts()] *)
Definition calculateSoldierCounts (s : t) : t :=
  let inBuildings :=
    foldl
      (fun (c : Z * Z) building =>
         if negb (Building.active building) then c
         else
           match Building.ownership building with
           | player => (fst c + Building.soldiers building, snd c)
           | enemy => (fst c, snd c + Building.soldiers building)
           | neutral => c
           end)
      (0, 0) (buildings s) in
  let onField :=
    foldl
      (fun (c : Z * Z) soldier =>
         if negb (soldierActive s soldier) then c
         else if soldierIsPlayerOwned s soldier then (fst c + 1, snd c)
         else (fst c, snd c + 1))
      inBuildings (activeSoldiers s) in
  set_soldierCounts (fst onField) (snd onField) s.

(** [building.setOwnership(newOwnership)] on the building of index [i]. *)
Definition setOwnership (i : nat) (o : Ownership) (s : t) : t :=
  calculateSoldierCounts (modifyBuilding i (Building.setOwnership o) s).

(** [building.startUpgrade()] on the building of index [i]. *)
Definition startUpgrade (i : nat) (s : t) : t :=
  match buildings s !! i with
  | Some b =>
      let s' := set_buildings (<[i := fst (Building.startUpgrade b)]> (buildings s)) s in
      if snd (Building.startUpgrade b) then calculateSoldierCounts s' else s'
  | None => s
  end.

(** [building.update(time, delta, this)] on the building of index [i]. *)
Definition buildingUpdate (now : Z) (i : nat) (s : t) : t :=
  match buildings s !! i with
  | Some b =>
      let s' := set_buildings (<[i := fst (Building.update now b)]> (buildings s)) s in
      if snd (Building.update now b) then calculateSoldierCounts s' else s'
  | None => s
  end.

(** [sendSoldiers(sourceBuilding, targetBuilding, count)] *)
Definition sendSoldiers (src tgt : nat) (count : Z) (s : t) : t :=
  match buildings s !! src, buildings s !! tgt with
  | Some sourceBuilding, Some _ =>
      if count <=? 0 then s
      else
        let soldiersToSend := Z.min (Building.soldiers sourceBuilding) count in
        if soldiersToSend <=? 0 then s
        else
          let s1 :=
            modifyBuilding src
              (fun b => Building.set_soldiers (Building.soldiers b - soldiersToSend) b) s in
          (* the placeholders, pushed on [this.activeSoldiers] and kept in
             the local array [placeholderSoldiers] *)
          let refs := seq (length (placeholders s1)) (Z.to_nat soldiersToSend) in
          let placeholder :=
            mkPlaceholder true
              (bool_decide (Building.ownership sourceBuilding = player)) in
          let s2 :=
            set_activeSoldiers (activeSoldiers s1 ++ map PlaceholderRef refs)
              (set_placeholders
                 (placeholders s1 ++ replicate (Z.to_nat soldiersToSend) placeholder) s1) in
          let s3 := calculateSoldierCounts s2 in
          (* one delayed call per soldier, [delay = i * 50] *)
          let c := length (closures s3) in
          set_delayedCalls
            (delayedCalls s3 ++
             map (fun i => mkDelayedCall (Z.of_nat i * 50) c)
                 (seq 0 (Z.to_nat soldiersToSend)))
            (set_closures
               (closures s3 ++ [mkSpawnClosure src tgt refs 0 soldiersToSend]) s3)
  | _, _ => s
  end.

(** What a spawn callback reads from outside the program: three readings of
    [Math.random()] (radius variation and the two target offsets) and the
    values of [Math.cos(spawnAngle)] and [Math.sin(spawnAngle)], where
    [spawnAngle] is [angleToTarget] plus a fourth random reading scaled to
    the 90 degree arc. *)
Record SpawnDraws := mkSpawnDraws {
  r_radius : float;
  cosSpawnAngle : float;
  sinSpawnAngle : float;
  r_targetOffsetX : float;
  r_targetOffsetY : float
}.

(** The callback of the delayed call of index [k] fires: the arrow function
    given to [this.time.delayedCall] in [sendSoldiers]; the clock then drops
    the call. *)
Definition spawn (k : nat) (rnd : SpawnDraws) (s : t) : t :=
  match delayedCalls s !! k with
  | None => s
  | Some call =>
      let s0 := set_delayedCalls (delete k (delayedCalls s)) s in
      match closures s !! callback call with
      | None => s0
      | Some env =>
          match buildings s !! sourceBuilding env, buildings s !! targetBuilding env with
          | Some sb, Some tb =>
              let radius := 45%float in
              let spreadRadius := (radius + (r_radius rnd * 20 - 10))%float in
              let spawnX := (Building.x sb + cosSpawnAngle rnd * spreadRadius)%float in
              let spawnY := (Building.y sb + sinSpawnAngle rnd * spreadRadius)%float in
              let targetOffsetX := (r_targetOffsetX rnd * 40 - 20)%float in
              let targetOffsetY := (r_targetOffsetY rnd * 40 - 20)%float in
              let soldier :=
                Soldier.set_targetBuilding (targetBuilding env)
                  (Soldier.constructor spawnX spawnY
                     (Building.x tb + targetOffsetX)%float
                     (Building.y tb + targetOffsetY)%float
                     (bool_decide (Building.ownership sb = player))) in
              let s1 := set_activeSoldiers (activeSoldiers s0 ++ [Real soldier]) s0 in
              (* placeholderSoldiers.pop(); placeholder.active = false *)
              let s2 :=
                match last (placeholderSoldiers env) with
                | Some r =>
                    set_placeholders
                      (alter (fun p => mkPlaceholder false (p_isPlayerOwned p)) r
                         (placeholders s1)) s1
                | None => s1
                end in
              let env' :=
                mkSpawnClosure (sourceBuilding env) (targetBuilding env)
                  (removelast (placeholderSoldiers env))
                  (spawnedSoldiers env + 1) (soldiersToSend env) in
              let s3 := set_closures (<[callback call := env']> (closures s2)) s2 in
              if spawnedSoldiers env' =? soldiersToSend env'
              then calculateSoldierCounts s3 else s3
          | _, _ => s0
          end
      end
  end.

(** [selectBuilding(building)] *)
Definition selectBuilding (i : nat) (s : t) : t :=
  match buildings s !! i with
  | None => s
  | Some building =>
      if negb (Building.isPlayerOwned building) then s
      else
        let s1 :=
          match selectedBuilding s with
          | Some j => modifyBuilding j (Building.setSelected false) s
          | None => s
          end in
        if bool_decide (selectedBuilding s = Some i)
        then set_selectedBuilding None s1
        else set_selectedBuilding (Some i)
               (modifyBuilding i (Building.setSelected true) s1)
  end.

(** [handleRightClick(targetBuilding)] *)
Definition handleRightClick (tgt : nat) (s : t) : t :=
  match selectedBuilding s with
  | None => s
  | Some src =>
      if bool_decide (src = tgt) then s
      else
        match buildings s !! src with
        | None => s
        | Some sourceBuilding =>
            if Building.soldiers sourceBuilding <=? 0 then s
            else
              let s1 := sendSoldiers src tgt (Building.soldiers sourceBuilding) s in
              set_selectedBuilding None
                (modifyBuilding src (Building.setSelected false) s1)
        end
  end.

(** The ['pointerdown'] listener that [Building.setupInteractions] installs
    on the building of index [i]; [currentTime] is the reading of
    [Date.now()]. *)
Definition pointerdown (i : nat) (rightButtonDown : bool) (currentTime : Z) (s : t) : t :=
  if rightButtonDown then handleRightClick i s
  else
    match buildings s !! i with
    | None => s
    | Some b =>
        if Building.isPlayerOwned b then
          let s1 :=
            if currentTime - Building.lastClickTime b <? 300
            then startUpgrade i s
            else selectBuilding i s in
          modifyBuilding i (Building.set_lastClickTime currentTime) s1
        else s
    end.

(** *** The AI controller's actions on the scene *)

(** [AIController.attackTarget(sourceBuilding, targetBuilding, soldierCount)];
    both references are buildings of the scene here, and after the test
    [soldierCount > 0] the count is a finite whole number. *)
Definition attackTarget (src tgt : nat) (soldierCount : float) (s : t) : t :=
  if PrimFloat.ltb 0 soldierCount
  then sendSoldiers src tgt (JS.float2Z soldierCount) s
  else s.

(** [AIController.expandToNeutral] *)
Definition expandToNeutral (src tgt : nat) (soldierCount : float) (s : t) : t :=
  attackTarget src tgt soldierCount s.

(** [AIController.decideForBuilding(building)] for the building of index
    [i]. *)
Definition decideForBuilding (i : nat) (rnd : AIController.Draws) (s : t) : t :=
  match buildings s !! i with
  | None => s
  | Some building =>
      if Building.isUpgrading building then s
      else if Building.soldiers building <=? 1 then s
      else
        match AIController.evaluateStrategicOptions
                (aiController s) (buildings s) building rnd with
        | AIController.attack target soldierCount =>
            attackTarget i target soldierCount s
        | AIController.expand target soldierCount =>
            expandToNeutral i target soldierCount s
        | AIController.upgrade =>
            if negb (Building.isUpgrading building) && (Building.level building <? 3)
            then startUpgrade i s
            else s
        | AIController.hold => s
        end
  end.

(** [AIController.makeDecisions()]: the enemy buildings are collected once,
    then decided for in order; [rnd k] are the random readings of the [k]-th
    of them. *)
Definition makeDecisions (rnd : nat -> AIController.Draws) (s : t) : t :=
  let enemyBuildings := AIController.getEnemyBuildings (buildings s) in
  foldl (fun s' kb => decideForBuilding (fst (snd kb)) (rnd (fst kb)) s')
        s (imap (fun k ib => (k, ib)) enemyBuildings).

(** [AIController.update(time)] *)
Definition aiUpdate (time : float) (rnd : nat -> AIController.Draws) (s : t) : t :=
  let ai := aiController s in
  if PrimFloat.ltb (time - AIController.lastDecisionTime ai)%float
                   (AIController.decisionInterval ai)
  then s
  else makeDecisions rnd (set_aiController (AIController.set_lastDecisionTime time ai) s).

(** *** Terminal detection *)

(** The two flags that [checkGameOver] computes with [forEach]:
    [(playerHasBuildings, enemyHasBuildings)]. *)
Definition hasBuildings (bs : list Building.t) : bool * bool :=
  foldl
    (fun (f : bool * bool) building =>
       if negb (Building.active building) then f
       else
         match Building.ownership building with
         | player => (true, snd f)
         | enemy => (fst f, true)
         | neutral => f
         end)
    (false, false) bs.

(** [checkGameOver()] *)
Definition checkGameOver (s : t) : t :=
  if gameOver s then s
  else
    let playerHasBuildings := fst (hasBuildings (buildings s)) in
    let enemyHasBuildings := snd (hasBuildings (buildings s)) in
    if playerHasBuildings && negb enemyHasBuildings
    then showGameOverModal true (set_gameOver true s)
    else if enemyHasBuildings && negb playerHasBuildings
    then showGameOverModal false (set_gameOver true s)
    else s.

(** *** Arrival of a soldier *)

(** The predicate of [this.buildings.find] in [update]. *)
Definition inCaptureRadius (soldier : Soldier.t) (b : Building.t) : bool :=
  Building.active b &&
  (let dx := (Building.x b - Soldier.targetX soldier)%float in
   let dy := (Building.y b - Soldier.targetY soldier)%float in
   let distanceSquared := (dx * dx + dy * dy)%float in
   PrimFloat.ltb distanceSquared 2500).

(** [this.buildings.find(b => ...)]: the first building in the capture
    radius of the soldier's target point, with its index. *)
Definition findTargetBuilding (soldier : Soldier.t) (bs : list Building.t)
    : option (nat * Building.t) :=
  list_find (fun b => Is_true (inCaptureRadius soldier b)) bs.

(** The block [if (targetBuilding) { ... }] of [update], for the target
    building of index [j]: reinforcement of a friendly building, else one
    soldier less and, below zero, capture. *)
Definition resolveArrival (soldier : Soldier.t) (j : nat) (s : t) : t :=
  match buildings s !! j with
  | None => s
  | Some targetBuilding =>
      if bool_decide (Building.ownership targetBuilding
                      = owner_of (Soldier.isPlayerOwned soldier))
      then modifyBuilding j (fun b => Building.set_soldiers (Building.soldiers b + 1) b) s
      else
        let s1 :=
          modifyBuilding j (fun b => Building.set_soldiers (Building.soldiers b - 1) b) s in
        if Building.soldiers targetBuilding - 1 <? 0 then
          let s2 := setOwnership j (owner_of (Soldier.isPlayerOwned soldier)) s1 in
          modifyBuilding j
            (fun b => Building.set_soldiers (Z.abs (Building.soldiers b)) b) s2
        else s1
  end.

(** What [resolveArrival] does to the fields of the target building, as one
    function of the building (see [resolveArrival_buildings]). *)
Definition arrive (isPlayerOwned : bool) (b : Building.t) : Building.t :=
  if bool_decide (Building.ownership b = owner_of isPlayerOwned)
  then Building.set_soldiers (Building.soldiers b + 1) b
  else
    let b1 := Building.set_soldiers (Building.soldiers b - 1) b in
    if Building.soldiers b1 <? 0 then
      let b2 := Building.setOwnership (owner_of isPlayerOwned) b1 in
      Building.set_soldiers (Z.abs (Building.soldiers b2)) b2
    else b1.

(** The state of the soldier loop of [update]: the scene (whose
    [activeSoldiers] is the array being walked, its soldiers moved and
    destroyed in place), [stillActiveSoldiers] and [soldierCountChanged]. *)
Definition LoopState : Type := t * list ActiveSoldier * bool.

(** The body of [if (reachedTarget) { ... }] for the soldier at index [i] of
    the array, already moved to [soldier]. *)
Definition handleArrival (i : nat) (soldier : Soldier.t) (s : t) : t :=
  let s1 :=
    match findTargetBuilding soldier (buildings s) with
    | Some (j, _) => resolveArrival soldier j s
    | None => s
    end in
  (* soldier.destroy() *)
  set_activeSoldiers (<[i := Real (Soldier.destroy soldier)]> (activeSoldiers s1)) s1.

(** One turn of the loop [for (let i = 0; i < this.activeSoldiers.length;
    i++)].  Nothing in the [try] block throws on the objects of this model,
    so the [catch] branch is not entered. *)
Definition soldierStep (delta : float) (st : LoopState) (i : nat) : LoopState :=
  let '(s, stillActiveSoldiers, soldierCountChanged) := st in
  match activeSoldiers s !! i with
  | None => st
  | Some (PlaceholderRef r) =>
      if negb (soldierActive s (PlaceholderRef r)) then st
      else (s, stillActiveSoldiers ++ [PlaceholderRef r], soldierCountChanged)
  | Some (Real soldier) =>
      if negb (Soldier.active soldier) then st
      else
        let soldier' := fst (Soldier.update delta soldier) in
        let reachedTarget := snd (Soldier.update delta soldier) in
        let s1 := set_activeSoldiers (<[i := Real soldier']> (activeSoldiers s)) s in
        if reachedTarget
        then (handleArrival i soldier' s1, stillActiveSoldiers, true)
        else (s1, stillActiveSoldiers ++ [Real soldier'], soldierCountChanged)
  end.

(** [update(time, delta)].  [clock i] is the reading of [Date.now()] in the
    update of building [i], [rnd] the random readings of the AI. *)
Definition update (time delta : float) (clock : nat -> Z)
    (rnd : nat -> AIController.Draws) (s : t) : t :=
  if gameOver s then s
  else
    let s1 :=
      foldl (fun s' i => buildingUpdate (clock i) i s') s
            (seq 0 (length (buildings s))) in
    let '(s2, stillActiveSoldiers, soldierCountChanged) :=
      foldl (soldierStep delta) (s1, [], false)
            (seq 0 (length (activeSoldiers s1))) in
    let s3 := set_activeSoldiers stillActiveSoldiers s2 in
    let s4 := if soldierCountChanged then calculateSoldierCounts s3 else s3 in
    let s5 := checkGameOver s4 in
    aiUpdate time rnd s5.

(** *** Placement of the buildings *)

(** [isOverlapping(x, y, buildings)] *)
Fixpoint isOverlapping (x y : float) (buildings : list Building.t) : bool :=
  match buildings with
  | [] => false
  | building :: rest =>
      let minDistance := 100%float in
      let dx := (x - Building.x building)%float in
      let dy := (y - Building.y building)%float in
      let distanceSquared := (dx * dx + dy * dy)%float in
      if PrimFloat.ltb distanceSquared (minDistance * minDistance)%float then true
      else isOverlapping x y rest
  end.

(** [maxAttempts] of [getValidBuildingPosition] *)
Definition maxAttempts : nat := 100.

(** The [do ... while] loop of [getValidBuildingPosition], from the attempt
    that follows [attempts] earlier ones and after which [remaining] more
    are allowed: the last [x] and [y] and the final value of [attempts].
    [rnd k] is the [k]-th reading of [Math.random()] in the call. *)
Fixpoint drawPosition (remaining attempts : nat) (minX maxX minY maxY : float)
    (buildings : list Building.t) (rnd : nat -> float) : float * float * nat :=
  let x := (minX + rnd (2 * attempts)%nat * (maxX - minX))%float in
  let y := (minY + rnd (2 * attempts + 1)%nat * (maxY - minY))%float in
  match remaining with
  | O => (x, y, S attempts)
  | S remaining' =>
      if isOverlapping x y buildings
      then drawPosition remaining' (S attempts) minX maxX minY maxY buildings rnd
      else (x, y, S attempts)
  end.

(** [getValidBuildingPosition(minX, maxX, minY, maxY, buildings)]: the
    position [{ x, y }], and the number of readings of [Math.random()] that
    the call made. *)
Definition getValidBuildingPosition (minX maxX minY maxY : float)
    (buildings : list Building.t) (rnd : nat -> float) : float * float * nat :=
  let '(x, y, attempts) :=
    drawPosition (maxAttempts - 1) 0 minX maxX minY maxY buildings rnd in
  if (attempts =? maxAttempts)%nat then
    let minX' := (minX - 50)%float in
    let maxX' := (maxX + 50)%float in
    ((minX' + rnd (2 * attempts)%nat * (maxX' - minX'))%float,
     (minY + rnd (2 * attempts + 1)%nat * (maxY - minY))%float,
     (2 * attempts + 2)%nat)
  else (x, y, (2 * attempts)%nat).

(** One turn of a placement loop of [create()]: a position is drawn against
    the buildings placed so far and a building of owner [o] is pushed there.
    The state is [this.buildings] and the number of readings of
    [Math.random()] made so far. *)
Definition placeBuilding (now : Z) (minX maxX minY maxY : float) (o : Ownership)
    (rnd : nat -> float) (st : list Building.t * nat) : list Building.t * nat :=
  let '(x, y, readings) :=
    getValidBuildingPosition minX maxX minY maxY (fst st)
      (fun k => rnd (snd st + k)%nat) in
  (fst st ++ [Building.constructor now x y o], (snd st + readings)%nat).

(** The three placement loops of [create()] on a screen of
    [screenWidth] by [screenHeight]: four player buildings on the left,
    four enemy buildings on the right, six neutral ones in the middle. *)
Definition placeBuildings (now : Z) (screenWidth screenHeight : float)
    (rnd : nat -> float) : list Building.t :=
  let minY := (screenHeight * 0.2)%float in
  let maxY := (screenHeight * 0.8)%float in
  let players :=
    Nat.iter 4
      (placeBuilding now (screenWidth * 0.15)%float (screenWidth * 0.35)%float
         minY maxY player rnd)
      ([], 0%nat) in
  let enemies :=
    Nat.iter 4
      (placeBuilding now (screenWidth * 0.65)%float (screenWidth * 0.85)%float
         minY maxY enemy rnd)
      players in
  let neutrals :=
    Nat.iter 6
      (placeBuilding now (screenWidth * 0.35)%float (screenWidth * 0.65)%float
         minY maxY neutral rnd)
      enemies in
  fst neutrals.

(** [init()] and [create()]: four player, four enemy and six neutral
    buildings at the positions [pos 0 .. pos 13] that
    [getValidBuildingPosition] drew, and a medium AI. *)
Definition create (now : Z) (pos : nat -> float * float) : t :=
  let building o i := Building.constructor now (fst (pos i)) (snd (pos i)) o in
  calculateSoldierCounts
    {| gameOver := false; selectedBuilding := None;
       playerSoldierCount := 0; enemySoldierCount := 0;
       activeSoldiers := [];
       buildings :=
         map (building player) (seq 0 4) ++ map (building enemy) (seq 4 4)
         ++ map (building neutral) (seq 8 6);
       aiController := AIController.setDifficulty AIController.medium AIController.constructor;
       placeholders := []; closures := []; delayedCalls := [];
       shownModals := [] |}.

(** *** The scene as a transition system *)

(** What the engine can call between two states of a match: a frame
    ([update]), a due delayed call, a pointer press on a building. *)
Inductive Event :=
  | Frame (time delta : float) (clock : nat -> Z) (rnd : nat -> AIController.Draws)
  | DelayedCallFires (k : nat) (rnd : SpawnDraws)
  | PointerDown (i : nat) (rightButtonDown : bool) (currentTime : Z).

Definition step (s : t) (e : Event) : t :=
  match e with
  | Frame time delta clock rnd => update time delta clock rnd s
  | DelayedCallFires k rnd => spawn k rnd s
  | PointerDown i rightButtonDown currentTime => pointerdown i rightButtonDown currentTime s
  end.

Definition run (s : t) (es : list Event) : t := foldl step s es.

End MainScene.

(** * Observations and sample scenes *)

(** ** What the properties observe *)

(** What building [j] holds: its owner and its troop count. *)
Definition garrison (j : nat) (s : MainScene.t) : option (Ownership * Z) :=
  (fun b => (Building.ownership b, Building.soldiers b)) <$> MainScene.buildings s !! j.



(** No building of the scene stores a negative troop count. *)
Definition troopsNonNegative (s : MainScene.t) : Prop :=
  Forall (fun b => 0 <= Building.soldiers b) (MainScene.buildings s).

(** Faction [o] owns at least one (active) building of the list. *)
Definition owns (o : Ownership) (bs : list Building.t) : Prop :=
  exists b, b ∈ bs /\ Building.active b = true /\ Building.ownership b = o.

(** What the presentation layer has been told about the end of the match:
    the sticky flag and the modal calls. *)
Definition reported (s : MainScene.t) : bool * list bool :=
  (MainScene.gameOver s, MainScene.shownModals s).

(** The match has reported its end at most once, and exactly once when the
    terminal flag is set. *)
Definition reportedOnce (s : MainScene.t) : Prop :=
  length (MainScene.shownModals s) = if MainScene.gameOver s then 1%nat else 0%nat.

(** The real soldiers (not the placeholders) among the entries of
    [this.activeSoldiers]. *)
Fixpoint realSoldiers (l : list MainScene.ActiveSoldier) : list Soldier.t :=
  match l with
  | [] => []
  | MainScene.Real soldier :: l' => soldier :: realSoldiers l'
  | MainScene.PlaceholderRef _ :: l' => realSoldiers l'
  end.

(** What a soldier leaves in the live collection after a frame of [delta]
    ms: itself, moved, if it is active and has not arrived; nothing
    otherwise. *)
Definition survivor (delta : float) (soldier : Soldier.t) : list Soldier.t :=
  if Soldier.active soldier && negb (snd (Soldier.update delta soldier))
  then [fst (Soldier.update delta soldier)]
  else [].

(** The delayed calls of the closure of index [c] that are still pending. *)
Definition pendingOf (c : nat) (s : MainScene.t) : nat :=
  length (filter (fun call => MainScene.callback call = c) (MainScene.delayedCalls s)).

(** Every pending call has its closure, every closure its two buildings, and
    every closure has made as many soldiers as it has calls that fired:
    [spawnedSoldiers + pending = soldiersToSend]. *)
Definition spawnAccounting (s : MainScene.t) : Prop :=
  Forall (fun call => (MainScene.callback call < length (MainScene.closures s))%nat)
         (MainScene.delayedCalls s)
  /\ forall c env,
       MainScene.closures s !! c = Some env ->
       (MainScene.sourceBuilding env < length (MainScene.buildings s))%nat
       /\ (MainScene.targetBuilding env < length (MainScene.buildings s))%nat
       /\ MainScene.spawnedSoldiers env + Z.of_nat (pendingOf c s)
          = MainScene.soldiersToSend env.

(** The part of the scene that the accounting reads. *)
Definition timers (s : MainScene.t) : list MainScene.SpawnClosure * list MainScene.DelayedCall * nat :=
  (MainScene.closures s, MainScene.delayedCalls s, length (MainScene.buildings s)).

(** The accounting, and closure [c] is a dispatch of [n] soldiers. *)
Definition dispatched (c : nat) (n : Z) (s : MainScene.t) : Prop :=
  spawnAccounting s
  /\ (MainScene.soldiersToSend <$> MainScene.closures s !! c) = Some n.

(** The buildings of [s'] are those of [s], index by index, each one
    related by [R] to what it was. *)
Definition written (R : Building.t -> Building.t -> Prop) (s s' : MainScene.t) : Prop :=
  Forall2 R (MainScene.buildings s) (MainScene.buildings s').

(** The two representations of a building's owner agree. *)
Definition ownerFlagsAgree (b : Building.t) : Prop :=
  Building.isPlayerOwned b = bool_decide (Building.ownership b = player).

(** What a match never writes to a building: its position, the engine's
    [active] flag and the duration of an upgrade. *)
Definition site (b : Building.t) : float * float * bool * Z :=
  (Building.x b, Building.y b, Building.active b, Building.upgradeTime b).

(** The selection ring is shown on the building that [this.selectedBuilding]
    refers to and on no other. *)
Definition selectionConsistent (s : MainScene.t) : Prop :=
  forall i b,
    MainScene.buildings s !! i = Some b ->
    (Building.isSelected b = true <-> MainScene.selectedBuilding s = Some i).

(** The building after the ticks that read [ts] from the clock, in order. *)
Definition ticks (ts : list Z) (b : Building.t) : Building.t :=
  foldl (fun b' now => fst (Building.update now b')) b ts.

(** What a pass of the AI can do to a building. *)
Definition aiWrites (b b' : Building.t) : Prop :=
  Building.ownership b' = Building.ownership b
  /\ Building.isPlayerOwned b' = Building.isPlayerOwned b
  /\ Building.level b' = Building.level b
  /\ site b' = site b
  /\ (0 <= Building.level b -> Building.soldiers b' <= Building.soldiers b)
  /\ (Building.ownership b <> enemy -> b' = b)
  /\ (Building.isUpgrading b' = Building.isUpgrading b
      /\ Building.upgradeProgress b' = Building.upgradeProgress b
      \/ Building.isUpgrading b = false
         /\ Building.isUpgrading b' = true
         /\ Building.upgradeProgress b' = 0
         /\ Building.level b < 3).

(** [canCapture] and [canAttack] of the target evaluations: the attacker
    holds more than [factor] times the soldiers of the target. *)
Definition outnumbers (factor : float) (building target : Building.t) : bool :=
  PrimFloat.ltb (JS.Z2float (Building.soldiers target) * factor)%float
                (JS.Z2float (Building.soldiers building)).

(** The soldiers that faction [o] holds in its active buildings. *)
Definition garrisons (o : Ownership) (bs : list Building.t) : Z :=
  foldr (fun b n =>
           if Building.active b && bool_decide (Building.ownership b = o)
           then Building.soldiers b + n else n)
        0 bs.

(** The active entries of [l] that are the player's ([p = true]) or the
    enemy's ([p = false]), read in scene [s]. *)
Definition fielded (s : MainScene.t) (p : bool) (l : list MainScene.ActiveSoldier) : Z :=
  foldr (fun u n =>
           if MainScene.soldierActive s u
              && Bool.eqb (MainScene.soldierIsPlayerOwned s u) p
           then 1 + n else n)
        0 l.

(** The strength of the two sides: what they hold in buildings and on the
    field, the player's first. *)
Definition strengths (s : MainScene.t) : Z * Z :=
  (garrisons player (MainScene.buildings s) + fielded s true (MainScene.activeSoldiers s),
   garrisons enemy (MainScene.buildings s) + fielded s false (MainScene.activeSoldiers s)).

(** The displayed counts. *)
Definition soldierCounts (s : MainScene.t) : Z * Z :=
  (MainScene.playerSoldierCount s, MainScene.enemySoldierCount s).

(** Every placeholder reference of [this.activeSoldiers] is a placeholder of
    the store. *)
Definition placeholdersStored (s : MainScene.t) : Prop :=
  Forall (fun u => match u with
                   | MainScene.PlaceholderRef r => (r < length (MainScene.placeholders s))%nat
                   | MainScene.Real _ => True
                   end)
         (MainScene.activeSoldiers s).

(** The test of [isOverlapping] on one building: its centre is less than
    100 away from the point. *)
Definition tooClose (x y : float) (building : Building.t) : bool :=
  let dx := (x - Building.x building)%float in
  let dy := (y - Building.y building)%float in
  PrimFloat.ltb (dx * dx + dy * dy)%float 10000.

(** The point that the attempt of index [k] of a call of
    [getValidBuildingPosition] draws. *)
Definition attempt (minX maxX minY maxY : float) (rnd : nat -> float) (k : nat)
    : float * float :=
  ((minX + rnd (2 * k)%nat * (maxX - minX))%float,
   (minY + rnd (2 * k + 1)%nat * (maxY - minY))%float).

(** The horizontal band of the screen in which [create()] places the
    buildings of owner [o]: [minX] and [maxX] as fractions of the width. *)
Definition band (o : Ownership) : float * float :=
  match o with
  | player => (0.15, 0.35)
  | enemy => (0.65, 0.85)
  | neutral => (0.35, 0.65)
  end%float.

(** The building of index [j] of [bs] is where [getValidBuildingPosition]
    put it against the buildings before it, after [used] readings of
    [Math.random()], and it is not too close to any of them unless the call
    gave up (after 202 readings). *)
Definition placedAt (now : Z) (screenWidth screenHeight : float) (rnd : nat -> float)
    (bs : list Building.t) (j : nat) (bj : Building.t) : Prop :=
  exists used readings,
    MainScene.getValidBuildingPosition
      (screenWidth * fst (band (Building.ownership bj)))%float
      (screenWidth * snd (band (Building.ownership bj)))%float
      (screenHeight * 0.2)%float (screenHeight * 0.8)%float
      (take j bs) (fun k => rnd (used + k)%nat)
    = (Building.x bj, Building.y bj, readings)
    /\ bj = Building.constructor now (Building.x bj) (Building.y bj) (Building.ownership bj)
    /\ ((readings < 200)%nat ->
        Forall (fun bi => tooClose (Building.x bj) (Building.y bj) bi = false) (take j bs)).

(** ** Sample scenes *)

(** A match used to instantiate the properties: the fourteen buildings of
    [create] on a line, 150 apart, created at time 0. *)
Definition sampleScene : MainScene.t :=
  MainScene.create 0 (fun i => (JS.Z2float (Z.of_nat i * 150), 0%float)).

(** A frame of 16 ms at time [now], in which the AI draws 0.5 everywhere. *)
Definition sampleFrame (now : Z) : MainScene.Event :=
  MainScene.Frame (JS.Z2float now) 16 (fun _ => now)
    (fun _ => AIController.mkDraws 0.5 0.5 0.5).

(** The readings of a spawn callback that puts the soldier straight towards
    the right of its building. *)
Definition sampleSpawnDraws : MainScene.SpawnDraws :=
  MainScene.mkSpawnDraws 0.5 1 0 0.5 0.5.

(** The scenario of the capture property: the neutral building of index 8
    holds 5 soldiers. *)
Definition garrison5Scene : MainScene.t :=
  MainScene.modifyBuilding 8 (Building.set_soldiers 5) sampleScene.

(** The same building without a garrison. *)
Definition garrison0Scene : MainScene.t :=
  MainScene.modifyBuilding 8 (Building.set_soldiers 0) sampleScene.

(** A player soldier on its way to the building of index 8. *)
Definition attacker : Soldier.t := Soldier.constructor 1100 0 1200 0 true.

(** The scenario of the AI hold rule: an easy AI, an enemy building with 2
    soldiers, and a player building with 60 soldiers 100 away from it (a
    threat level of 1). *)
Definition holdScene : MainScene.t :=
  {| MainScene.gameOver := false; MainScene.selectedBuilding := None;
     MainScene.playerSoldierCount := 60; MainScene.enemySoldierCount := 2;
     MainScene.activeSoldiers := [];
     MainScene.buildings :=
       [Building.set_soldiers 60 (Building.constructor 0 100 0 player);
        Building.set_soldiers 2 (Building.constructor 0 0 0 enemy)];
     MainScene.aiController :=
       AIController.setDifficulty AIController.easy AIController.constructor;
     MainScene.placeholders := []; MainScene.closures := [];
     MainScene.delayedCalls := []; MainScene.shownModals := [] |}.

(** A player soldier about to arrive at a point that is far from every
    building of the sample match. *)
Definition straySoldier : Soldier.t := Soldier.constructor 1000 1000 1004 1000 true.

(** The sample match with that soldier as its only live soldier. *)
Definition emptyGroundScene : MainScene.t :=
  MainScene.set_activeSoldiers [MainScene.Real straySoldier] sampleScene.

(** The sample match after the player has taken the four enemy buildings. *)
Definition wonScene : MainScene.t :=
  foldl (fun s i => MainScene.setOwnership i player s) sampleScene [4; 5; 6; 7]%nat.

(** A frame of 16 ms in which no building generates and the AI does not
    decide: the clocks stand at 0. *)
Definition quietFrame : MainScene.Event :=
  MainScene.Frame 0 16 (fun _ => 0) (fun _ => AIController.mkDraws 0.5 0.5 0.5).

(** A played capture: the player building of index 3 holds 8 soldiers and
    the neutral building of index 8 holds 5; the player presses on the
    first, presses the right button on the second, the eight spawn calls
    fire, and [frames] quiet frames follow. *)
Definition playedCapture (frames : nat) : MainScene.t :=
  MainScene.run
    (MainScene.modifyBuilding 3 (Building.set_soldiers 8) garrison5Scene)
    ([MainScene.PointerDown 3 false 1000; MainScene.PointerDown 8 true 2000]
     ++ replicate 8 (MainScene.DelayedCallFires 0 sampleSpawnDraws)
     ++ replicate frames quietFrame).



(** Readings of [Math.random()] on which the AI holds. *)
Definition holdDraws : AIController.Draws := AIController.mkDraws 0.99 0.99 0.99.



(** The first building of the sample match, as [create] makes it. *)
Definition firstBuilding : Building.t := Building.constructor 0 (JS.Z2float 0) 0 player.

(** * Properties *)

(** ** Loops *)

(** What every turn of a [forEach] or [for] loop preserves holds after the
    loop. *)
Lemma foldl_invariant {A B} (P : A -> Prop) (f : A -> B -> A) (l : list B) (a : A) :
  P a -> (forall a' x, P a' -> P (f a' x)) -> P (foldl f a l).
Proof. intros Ha Hf. revert a Ha. induction l; simpl; auto. Qed.

(** ** Writes through building references *)

Section BuildingWrites.

Implicit Types (s : MainScene.t) (b : Building.t) (l : list Building.t).

Lemma alter_as_insert {A} (f : A -> A) (l : list A) (j : nat) (a : A) :
  l !! j = Some a -> alter f j l = <[j := f a]> l.
Proof.
  intros Hj. apply list_eq. intros i.
  destruct (decide (i = j)) as [->|Hne].
  - rewrite list_lookup_alter_eq, Hj.
    rewrite list_lookup_insert_eq; [done|]. by eapply lookup_lt_Some.
  - by rewrite list_lookup_alter_ne, list_lookup_insert_ne.
Qed.

Lemma buildings_modifyBuilding i f s :
  MainScene.buildings (MainScene.modifyBuilding i f s)
  = alter f i (MainScene.buildings s).
Proof. reflexivity. Qed.

Lemma buildings_calculateSoldierCounts s :
  MainScene.buildings (MainScene.calculateSoldierCounts s) = MainScene.buildings s.
Proof. reflexivity. Qed.

Lemma buildings_setOwnership i o s :
  MainScene.buildings (MainScene.setOwnership i o s)
  = alter (Building.setOwnership o) i (MainScene.buildings s).
Proof. reflexivity. Qed.

(** The target building after [resolveArrival] is [arrive] of the target
    building before; no other building is written. *)
Lemma resolveArrival_buildings soldier j s b :
  MainScene.buildings s !! j = Some b ->
  MainScene.buildings (MainScene.resolveArrival soldier j s)
  = <[j := MainScene.arrive (Soldier.isPlayerOwned soldier) b]> (MainScene.buildings s).
Proof.
  intros Hj. unfold MainScene.resolveArrival, MainScene.arrive. rewrite Hj.
  case_bool_decide as Hown.
  - rewrite buildings_modifyBuilding. by rewrite (alter_as_insert _ _ _ _ Hj).
  - cbn [Building.soldiers Building.set_soldiers].
    destruct (Building.soldiers b - 1 <? 0) eqn:Hneg.
    + rewrite buildings_modifyBuilding, buildings_setOwnership,
        buildings_modifyBuilding.
      rewrite !list_alter_alter_eq. by rewrite (alter_as_insert _ _ _ _ Hj).
    + rewrite buildings_modifyBuilding. by rewrite (alter_as_insert _ _ _ _ Hj).
Qed.

End BuildingWrites.

(** ** One arrival at a building *)

Section Arrival.

Implicit Types (b : Building.t) (p : bool).

Lemma arrive_friendly p b :
  Building.ownership b = owner_of p ->
  Building.ownership (MainScene.arrive p b) = owner_of p
  /\ Building.soldiers (MainScene.arrive p b) = Building.soldiers b + 1.
Proof.
  intros Hown. unfold MainScene.arrive.
  rewrite bool_decide_eq_true_2 by done. by split.
Qed.

Lemma arrive_hostile_held p b :
  Building.ownership b <> owner_of p -> 1 <= Building.soldiers b ->
  Building.ownership (MainScene.arrive p b) = Building.ownership b
  /\ Building.soldiers (MainScene.arrive p b) = Building.soldiers b - 1.
Proof.
  intros Hown Hg. unfold MainScene.arrive.
  rewrite bool_decide_eq_false_2 by done. cbn [Building.soldiers Building.set_soldiers].
  destruct (Z.ltb_spec (Building.soldiers b - 1) 0); [lia|]. by split.
Qed.

Lemma arrive_hostile_captured p b :
  Building.ownership b <> owner_of p -> Building.soldiers b <= 0 ->
  Building.ownership (MainScene.arrive p b) = owner_of p
  /\ Building.soldiers (MainScene.arrive p b) = Z.abs (Building.soldiers b - 1).
Proof.
  intros Hown Hg. unfold MainScene.arrive.
  rewrite bool_decide_eq_false_2 by done. cbn [Building.soldiers Building.set_soldiers].
  destruct (Z.ltb_spec (Building.soldiers b - 1) 0); [|lia]. by split.
Qed.

Lemma arrive_nonneg p b :
  0 <= Building.soldiers b -> 0 <= Building.soldiers (MainScene.arrive p b).
Proof.
  intros Hg.
  destruct (decide (Building.ownership b = owner_of p)) as [Hown|Hown].
  - destruct (arrive_friendly p b Hown) as [_ ->]. lia.
  - destruct (decide (1 <= Building.soldiers b)) as [H1|H1].
    + destruct (arrive_hostile_held p b Hown H1) as [_ ->]. lia.
    + destruct (arrive_hostile_captured p b Hown ltac:(lia)) as [_ ->]. lia.
Qed.

End Arrival.

(** ** Capture *)

Section Capture.

Implicit Types (s : MainScene.t) (b : Building.t) (p : bool).








(** C10.  One arrival at a building with a non-negative garrison changes the
    count by exactly one; when it changes the owner (a capture), the garrison
    was 0 and is exactly 1 afterwards, and the new owner is the soldier's. *)
Theorem garrison_after_capture_is_one s j b (soldier : Soldier.t) :
  MainScene.buildings s !! j = Some b ->
  0 <= Building.soldiers b ->
  exists b',
    MainScene.buildings (MainScene.resolveArrival soldier j s) !! j = Some b'
    /\ (Building.ownership b' <> Building.ownership b ->
        Building.soldiers b = 0 /\ Building.soldiers b' = 1
        /\ Building.ownership b' = owner_of (Soldier.isPlayerOwned soldier))
    /\ (Building.soldiers b' = Building.soldiers b + 1
        \/ Building.soldiers b' = Building.soldiers b - 1).
Proof.
  intros Hj Hg. set (p := Soldier.isPlayerOwned soldier).
  exists (MainScene.arrive p b). split.
  { rewrite (resolveArrival_buildings _ _ _ _ Hj).
    apply list_lookup_insert_eq. by eapply lookup_lt_Some. }
  destruct (decide (Building.ownership b = owner_of p)) as [Hown|Hown].
  - destruct (arrive_friendly p b Hown) as [Ho Hs]. rewrite Ho, Hs.
    split; [congruence|by left].
  - destruct (decide (1 <= Building.soldiers b)) as [H1|H1].
    + destruct (arrive_hostile_held p b Hown H1) as [Ho Hs]. rewrite Ho, Hs.
      split; [congruence|by right].
    + destruct (arrive_hostile_captured p b Hown ltac:(lia)) as [Ho Hs].
      rewrite Ho, Hs. split; [intros _; repeat split; lia|left; lia].
Qed.

End Capture.

(** ** Troop counts are never stored negative *)

Section TroopCounts.

Implicit Types (s : MainScene.t) (b : Building.t).

Lemma troopsNonNegative_same_buildings s s' :
  MainScene.buildings s' = MainScene.buildings s ->
  troopsNonNegative s -> troopsNonNegative s'.
Proof. unfold troopsNonNegative. by intros ->. Qed.

Lemma troopsNonNegative_insert i b s s' :
  MainScene.buildings s' = <[i := b]> (MainScene.buildings s) ->
  0 <= Building.soldiers b ->
  troopsNonNegative s -> troopsNonNegative s'.
Proof. unfold troopsNonNegative. intros -> Hb Hs. by apply Forall_insert. Qed.

Lemma troopsNonNegative_modifyBuilding i f s :
  (forall b, 0 <= Building.soldiers b -> 0 <= Building.soldiers (f b)) ->
  troopsNonNegative s -> troopsNonNegative (MainScene.modifyBuilding i f s).
Proof.
  unfold troopsNonNegative. intros Hf Hs. rewrite buildings_modifyBuilding.
  apply Forall_alter; auto.
Qed.

Lemma soldiers_updateUpgrade elapsedMs b :
  Building.soldiers (Building.updateUpgrade elapsedMs b) = Building.soldiers b.
Proof. unfold Building.updateUpgrade. by repeat case_match. Qed.

Lemma Building_update_nonneg now b :
  0 <= Building.soldiers b -> 0 <= Building.soldiers (fst (Building.update now b)).
Proof.
  intros Hb. unfold Building.update.
  repeat case_match; cbn; rewrite soldiers_updateUpgrade; lia.
Qed.

Lemma Building_startUpgrade_nonneg b :
  0 <= Building.soldiers b -> 0 <= Building.soldiers (fst (Building.startUpgrade b)).
Proof.
  intros Hb. unfold Building.startUpgrade.
  destruct (Building.isUpgrading b); [done|].
  destruct (Z.ltb_spec (Building.soldiers b) (5 * Building.level b)); cbn; lia.
Qed.

Lemma buildingUpdate_nonneg now i s :
  troopsNonNegative s -> troopsNonNegative (MainScene.buildingUpdate now i s).
Proof.
  intros Hs. unfold MainScene.buildingUpdate.
  destruct (MainScene.buildings s !! i) as [b|] eqn:Hi; [|done].
  eapply (troopsNonNegative_insert i (fst (Building.update now b)) s); [|  |done].
  - by destruct (snd (Building.update now b)).
  - apply Building_update_nonneg. by eapply (Forall_lookup_1 _ _ _ _ Hs).
Qed.

Lemma startUpgrade_nonneg i s :
  troopsNonNegative s -> troopsNonNegative (MainScene.startUpgrade i s).
Proof.
  intros Hs. unfold MainScene.startUpgrade.
  destruct (MainScene.buildings s !! i) as [b|] eqn:Hi; [|done].
  eapply (troopsNonNegative_insert i (fst (Building.startUpgrade b)) s); [|  |done].
  - by destruct (snd (Building.startUpgrade b)).
  - apply Building_startUpgrade_nonneg. by eapply (Forall_lookup_1 _ _ _ _ Hs).
Qed.

(** [sendSoldiers] either returns at once or takes the clamped count from
    the source building and from nothing else. *)
Lemma sendSoldiers_buildings src tgt count s :
  MainScene.buildings (MainScene.sendSoldiers src tgt count s) = MainScene.buildings s
  \/ exists sb,
       MainScene.buildings s !! src = Some sb
       /\ 0 < Z.min (Building.soldiers sb) count
       /\ MainScene.buildings (MainScene.sendSoldiers src tgt count s)
          = <[src := Building.set_soldiers
                       (Building.soldiers sb - Z.min (Building.soldiers sb) count) sb]>
              (MainScene.buildings s).
Proof.
  unfold MainScene.sendSoldiers.
  destruct (MainScene.buildings s !! src) as [sb|] eqn:Hsrc; [|by left].
  destruct (MainScene.buildings s !! tgt) as [tb|]; [|by left].
  destruct (Z.leb_spec count 0); [by left|].
  destruct (Z.leb_spec (Z.min (Building.soldiers sb) count) 0); [by left|].
  right. exists sb. split; [done|]. split; [done|].
  cbn [MainScene.buildings MainScene.set_delayedCalls MainScene.set_closures].
  rewrite buildings_calculateSoldierCounts.
  cbn [MainScene.buildings MainScene.set_activeSoldiers MainScene.set_placeholders].
  rewrite buildings_modifyBuilding. by rewrite (alter_as_insert _ _ _ _ Hsrc).
Qed.

Lemma sendSoldiers_nonneg src tgt count s :
  troopsNonNegative s -> troopsNonNegative (MainScene.sendSoldiers src tgt count s).
Proof.
  intros Hs. destruct (sendSoldiers_buildings src tgt count s) as [Heq|(sb & Hsrc & Hn & Heq)].
  - by eapply troopsNonNegative_same_buildings.
  - eapply troopsNonNegative_insert; [done| |done]. cbn. lia.
Qed.

Lemma buildings_spawn k rnd s :
  MainScene.buildings (MainScene.spawn k rnd s) = MainScene.buildings s.
Proof. unfold MainScene.spawn. by repeat case_match. Qed.

Lemma set_selectedBuilding_nonneg v s :
  troopsNonNegative s -> troopsNonNegative (MainScene.set_selectedBuilding v s).
Proof. done. Qed.

Lemma setSelected_nonneg i v s :
  troopsNonNegative s ->
  troopsNonNegative (MainScene.modifyBuilding i (Building.setSelected v) s).
Proof. by apply troopsNonNegative_modifyBuilding. Qed.

Lemma set_lastClickTime_nonneg i v s :
  troopsNonNegative s ->
  troopsNonNegative (MainScene.modifyBuilding i (Building.set_lastClickTime v) s).
Proof. by apply troopsNonNegative_modifyBuilding. Qed.

Lemma selectBuilding_nonneg i s :
  troopsNonNegative s -> troopsNonNegative (MainScene.selectBuilding i s).
Proof.
  intros Hs. unfold MainScene.selectBuilding.
  repeat case_match;
    auto using set_selectedBuilding_nonneg, setSelected_nonneg.
Qed.

Lemma handleRightClick_nonneg tgt s :
  troopsNonNegative s -> troopsNonNegative (MainScene.handleRightClick tgt s).
Proof.
  intros Hs. unfold MainScene.handleRightClick.
  repeat case_match;
    auto using set_selectedBuilding_nonneg, setSelected_nonneg, sendSoldiers_nonneg.
Qed.

Lemma pointerdown_nonneg i right currentTime s :
  troopsNonNegative s -> troopsNonNegative (MainScene.pointerdown i right currentTime s).
Proof.
  intros Hs. unfold MainScene.pointerdown.
  repeat case_match;
    auto using handleRightClick_nonneg, set_lastClickTime_nonneg,
      startUpgrade_nonneg, selectBuilding_nonneg.
Qed.

Lemma decideForBuilding_nonneg i rnd s :
  troopsNonNegative s -> troopsNonNegative (MainScene.decideForBuilding i rnd s).
Proof.
  intros Hs. unfold MainScene.decideForBuilding, MainScene.expandToNeutral,
    MainScene.attackTarget.
  repeat case_match; auto using sendSoldiers_nonneg, startUpgrade_nonneg.
Qed.

Lemma aiUpdate_nonneg time rnd s :
  troopsNonNegative s -> troopsNonNegative (MainScene.aiUpdate time rnd s).
Proof.
  intros Hs. unfold MainScene.aiUpdate, MainScene.makeDecisions.
  case_match; [done|].
  apply foldl_invariant; [done|]. intros; by apply decideForBuilding_nonneg.
Qed.

Lemma buildings_checkGameOver s :
  MainScene.buildings (MainScene.checkGameOver s) = MainScene.buildings s.
Proof. unfold MainScene.checkGameOver. by repeat case_match. Qed.

Lemma resolveArrival_nonneg soldier j s :
  troopsNonNegative s -> troopsNonNegative (MainScene.resolveArrival soldier j s).
Proof.
  intros Hs. destruct (MainScene.buildings s !! j) as [b|] eqn:Hj.
  - eapply troopsNonNegative_insert; [by apply resolveArrival_buildings| |done].
    apply arrive_nonneg. by eapply (Forall_lookup_1 _ _ _ _ Hs).
  - unfold MainScene.resolveArrival. by rewrite Hj.
Qed.

Lemma set_activeSoldiers_nonneg v s :
  troopsNonNegative s -> troopsNonNegative (MainScene.set_activeSoldiers v s).
Proof. done. Qed.

Lemma handleArrival_nonneg i soldier s :
  troopsNonNegative s -> troopsNonNegative (MainScene.handleArrival i soldier s).
Proof.
  intros Hs. unfold MainScene.handleArrival.
  apply set_activeSoldiers_nonneg.
  repeat case_match; auto using resolveArrival_nonneg.
Qed.

Lemma soldierStep_nonneg delta (st : MainScene.LoopState) i :
  troopsNonNegative st.1.1 -> troopsNonNegative (MainScene.soldierStep delta st i).1.1.
Proof.
  destruct st as [[s still] changed]. intros Hs. unfold MainScene.soldierStep.
  repeat case_match; try done; cbn [fst].
  by apply handleArrival_nonneg.
Qed.

Lemma update_nonneg time delta clock rnd s :
  troopsNonNegative s -> troopsNonNegative (MainScene.update time delta clock rnd s).
Proof.
  intros Hs. unfold MainScene.update. destruct (MainScene.gameOver s); [done|].
  set (s1 := foldl _ s _).
  assert (troopsNonNegative s1) as Hs1.
  { apply (foldl_invariant troopsNonNegative); [done|].
    intros; by apply buildingUpdate_nonneg. }
  pose proof (foldl_invariant (fun st : MainScene.LoopState => troopsNonNegative st.1.1)
                (MainScene.soldierStep delta)
                (seq 0 (length (MainScene.activeSoldiers s1))) (s1, [], false) Hs1
                (soldierStep_nonneg delta)) as Hloop.
  destruct (foldl (MainScene.soldierStep delta) _ _) as [[s2 still] changed].
  apply aiUpdate_nonneg.
  eapply troopsNonNegative_same_buildings; [apply buildings_checkGameOver|].
  by destruct changed.
Qed.

Lemma step_nonneg s e :
  troopsNonNegative s -> troopsNonNegative (MainScene.step s e).
Proof.
  intros Hs. destruct e; cbn [MainScene.step].
  - by apply update_nonneg.
  - eapply troopsNonNegative_same_buildings; [apply buildings_spawn|done].
  - by apply pointerdown_nonneg.
Qed.

End TroopCounts.

Section TroopCountsInvariant.

Lemma create_nonneg now pos : troopsNonNegative (MainScene.create now pos).
Proof.
  unfold troopsNonNegative, MainScene.create.
  rewrite buildings_calculateSoldierCounts. cbn.
  repeat (constructor; [cbn; lia|]). constructor.
Qed.

(** C2.  A new match stores no negative troop count, and from a scene that
    stores none, every sequence of frames, delayed spawns and pointer
    presses leads to such a scene again (so every count is non-negative at
    the end of every frame); and a hostile arrival that takes the count of
    building [j] below zero stores its absolute value instead and hands the
    building to the soldier's faction. *)
Theorem troop_count_never_negative (s : MainScene.t) (es : list MainScene.Event) :
  (forall now pos, troopsNonNegative (MainScene.run (MainScene.create now pos) es))
  /\ (troopsNonNegative s -> troopsNonNegative (MainScene.run s es))
  /\ (forall soldier j b,
        MainScene.buildings s !! j = Some b ->
        Building.ownership b <> owner_of (Soldier.isPlayerOwned soldier) ->
        Building.soldiers b - 1 < 0 ->
        exists b',
          MainScene.buildings (MainScene.resolveArrival soldier j s) !! j = Some b'
          /\ Building.soldiers b' = Z.abs (Building.soldiers b - 1)
          /\ Building.ownership b' = owner_of (Soldier.isPlayerOwned soldier)).
Proof.
  assert (forall s0, troopsNonNegative s0 -> troopsNonNegative (MainScene.run s0 es))
    as Hrun.
  { intros s0 Hs0. unfold MainScene.run. apply foldl_invariant; [done|].
    intros; by apply step_nonneg. }
  split; [|split].
  - intros now pos. apply Hrun, create_nonneg.
  - apply Hrun.
  - intros soldier j b Hj Hown Hneg.
    exists (MainScene.arrive (Soldier.isPlayerOwned soldier) b). split.
    + rewrite (resolveArrival_buildings _ _ _ _ Hj).
      apply list_lookup_insert_eq. by eapply lookup_lt_Some.
    + destruct (arrive_hostile_captured (Soldier.isPlayerOwned soldier) b Hown)
        as [Ho Hc]; [lia|done].
Qed.

End TroopCountsInvariant.

(** ** Terminal detection *)

Section Terminal.

Implicit Types (s : MainScene.t) (b : Building.t) (bs : list Building.t).

Lemma owns_snoc o bs b :
  owns o (bs ++ [b])
  <-> owns o bs \/ (Building.active b = true /\ Building.ownership b = o).
Proof.
  unfold owns. split.
  - intros (b' & Hin & Ha & Ho). apply elem_of_app in Hin as [Hin|Hin].
    + left. by exists b'.
    + apply list_elem_of_singleton in Hin as ->. by right.
  - intros [(b' & Hin & Ha & Ho)|[Ha Ho]].
    + exists b'. split; [apply elem_of_app; by left|done].
    + exists b. split; [apply elem_of_app; right; by apply list_elem_of_singleton|done].
Qed.

Lemma owns_nil o : ~ owns o [].
Proof. intros (b & Hin & _). by apply not_elem_of_nil in Hin. Qed.

(** The flags of [checkGameOver] say who owns a building. *)
Lemma hasBuildings_spec bs :
  (fst (MainScene.hasBuildings bs) = true <-> owns player bs)
  /\ (snd (MainScene.hasBuildings bs) = true <-> owns enemy bs).
Proof.
  induction bs as [|b bs [IHp IHe]] using rev_ind.
  - split; (split; [done|intros H; by apply owns_nil in H]).
  - unfold MainScene.hasBuildings in *. rewrite foldl_snoc, !owns_snoc.
    destruct (Building.active b), (Building.ownership b); cbn [negb fst snd];
      rewrite <- IHp, <- IHe; intuition (discriminate || done).
Qed.

Lemma reported_buildingUpdate now i s :
  reported (MainScene.buildingUpdate now i s) = reported s.
Proof. unfold MainScene.buildingUpdate. by repeat case_match. Qed.

Lemma reported_startUpgrade i s :
  reported (MainScene.startUpgrade i s) = reported s.
Proof. unfold MainScene.startUpgrade. by repeat case_match. Qed.

Lemma reported_sendSoldiers src tgt count s :
  reported (MainScene.sendSoldiers src tgt count s) = reported s.
Proof. unfold MainScene.sendSoldiers. by repeat case_match. Qed.

Lemma reported_spawn k rnd s :
  reported (MainScene.spawn k rnd s) = reported s.
Proof. unfold MainScene.spawn. by repeat case_match. Qed.

Lemma reported_selectBuilding i s :
  reported (MainScene.selectBuilding i s) = reported s.
Proof. unfold MainScene.selectBuilding. by repeat case_match. Qed.

Lemma reported_handleRightClick tgt s :
  reported (MainScene.handleRightClick tgt s) = reported s.
Proof.
  unfold MainScene.handleRightClick.
  destruct (MainScene.selectedBuilding s) as [src|]; [|done].
  case_bool_decide; [done|].
  destruct (MainScene.buildings s !! src) as [sb|]; [|done].
  destruct (Building.soldiers sb <=? 0); [done|].
  exact (reported_sendSoldiers src tgt (Building.soldiers sb) s).
Qed.

Lemma reported_pointerdown i right currentTime s :
  reported (MainScene.pointerdown i right currentTime s) = reported s.
Proof.
  unfold MainScene.pointerdown.
  destruct right; [apply reported_handleRightClick|].
  destruct (MainScene.buildings s !! i) as [b|]; [|done].
  destruct (Building.isPlayerOwned b); [|done].
  destruct (currentTime - Building.lastClickTime b <? 300).
  - exact (reported_startUpgrade i s).
  - exact (reported_selectBuilding i s).
Qed.

Lemma reported_decideForBuilding i rnd s :
  reported (MainScene.decideForBuilding i rnd s) = reported s.
Proof.
  unfold MainScene.decideForBuilding, MainScene.expandToNeutral,
    MainScene.attackTarget.
  repeat case_match; auto using reported_sendSoldiers, reported_startUpgrade.
Qed.

Lemma reported_aiUpdate time rnd s :
  reported (MainScene.aiUpdate time rnd s) = reported s.
Proof.
  unfold MainScene.aiUpdate, MainScene.makeDecisions. case_match; [done|].
  apply (foldl_invariant (fun s' => reported s' = reported s)); [done|].
  intros s' x <-. apply reported_decideForBuilding.
Qed.

Lemma reported_resolveArrival soldier j s :
  reported (MainScene.resolveArrival soldier j s) = reported s.
Proof. unfold MainScene.resolveArrival. by repeat case_match. Qed.

Lemma reported_handleArrival i soldier s :
  reported (MainScene.handleArrival i soldier s) = reported s.
Proof.
  unfold MainScene.handleArrival.
  destruct (MainScene.findTargetBuilding soldier (MainScene.buildings s)) as [[j b]|];
    [|done].
  exact (reported_resolveArrival soldier j s).
Qed.

Lemma reported_soldierStep delta (st : MainScene.LoopState) i :
  reported (MainScene.soldierStep delta st i).1.1 = reported st.1.1.
Proof.
  destruct st as [[s still] changed]. unfold MainScene.soldierStep.
  repeat case_match; try done. cbn [fst].
  by rewrite reported_handleArrival.
Qed.

(** Up to its call of [checkGameOver], a frame reports nothing; after it,
    the AI reports nothing. *)
Lemma reported_update time delta clock rnd s :
  MainScene.gameOver s = false ->
  exists s4,
    reported s4 = reported s
    /\ reported (MainScene.update time delta clock rnd s)
       = reported (MainScene.checkGameOver s4).
Proof.
  intros Hgo. unfold MainScene.update. rewrite Hgo.
  set (s1 := foldl _ s _).
  assert (reported s1 = reported s) as Hs1.
  { apply (foldl_invariant (fun s' => reported s' = reported s)); [done|].
    intros s' x <-. apply reported_buildingUpdate. }
  pose proof (foldl_invariant
                (fun st : MainScene.LoopState => reported st.1.1 = reported s)
                (MainScene.soldierStep delta)
                (seq 0 (length (MainScene.activeSoldiers s1))) (s1, [], false) Hs1) as Hloop.
  destruct (foldl (MainScene.soldierStep delta) _ _) as [[s2 still] changed].
  cbn [fst] in Hloop.
  eexists. split; [|apply reported_aiUpdate].
  rewrite <- Hloop.
  - by destruct changed.
  - intros st x <-. apply reported_soldierStep.
Qed.

End Terminal.

Section TerminalDetection.

Implicit Types (s : MainScene.t).

Lemma reported_step_gameOver s e :
  MainScene.gameOver s = true -> reported (MainScene.step s e) = reported s.
Proof.
  intros Hgo. destruct e; cbn [MainScene.step].
  - unfold MainScene.update. by rewrite Hgo.
  - apply reported_spawn.
  - apply reported_pointerdown.
Qed.

Lemma reportedOnce_reported s s' :
  reported s' = reported s -> reportedOnce s -> reportedOnce s'.
Proof. unfold reported, reportedOnce. by intros [= -> ->]. Qed.

Lemma reportedOnce_checkGameOver s :
  reportedOnce s -> reportedOnce (MainScene.checkGameOver s).
Proof.
  unfold reportedOnce, MainScene.checkGameOver.
  destruct (MainScene.gameOver s) eqn:Hgo; [by rewrite Hgo|].
  intros Hlen. repeat case_match; rewrite ?Hgo; try done;
    cbn; rewrite length_app, Hlen; done.
Qed.

Lemma reportedOnce_step s e : reportedOnce s -> reportedOnce (MainScene.step s e).
Proof.
  intros Hs. destruct (MainScene.gameOver s) eqn:Hgo.
  { eapply reportedOnce_reported; [by apply reported_step_gameOver|done]. }
  destruct e; cbn [MainScene.step].
  - destruct (reported_update time delta clock rnd s Hgo) as (s4 & Hs4 & Hup).
    eapply reportedOnce_reported; [exact Hup|].
    apply reportedOnce_checkGameOver. by eapply reportedOnce_reported.
  - eapply reportedOnce_reported; [apply reported_spawn|done].
  - eapply reportedOnce_reported; [apply reported_pointerdown|done].
Qed.

(** C6.  [checkGameOver] does nothing once the terminal flag is set.
    Otherwise it reports a win exactly when the player owns a building and
    the enemy owns none, a loss exactly when the enemy owns one and the
    player none, and does nothing when neither owns a building.  Once the
    flag is set, a frame changes nothing at all, and no frame, delayed spawn
    or pointer press changes the flag or reports again; and a match that has
    reported at most once (exactly once if terminal), as a new match has,
    keeps doing so. *)
Theorem terminal_detection s :
  (MainScene.gameOver s = true -> MainScene.checkGameOver s = s)
  /\ (MainScene.gameOver s = false ->
      (reported (MainScene.checkGameOver s) = (true, MainScene.shownModals s ++ [true])
       <-> owns player (MainScene.buildings s) /\ ~ owns enemy (MainScene.buildings s))
      /\ (reported (MainScene.checkGameOver s) = (true, MainScene.shownModals s ++ [false])
          <-> owns enemy (MainScene.buildings s) /\ ~ owns player (MainScene.buildings s))
      /\ (~ owns player (MainScene.buildings s) -> ~ owns enemy (MainScene.buildings s) ->
          MainScene.checkGameOver s = s))
  /\ (MainScene.gameOver s = true ->
      forall time delta clock rnd, MainScene.update time delta clock rnd s = s)
  /\ (forall es, MainScene.gameOver s = true ->
        reported (MainScene.run s es) = reported s)
  /\ (forall es, reportedOnce s -> reportedOnce (MainScene.run s es))
  /\ (forall now pos, reportedOnce (MainScene.create now pos)).
Proof.
  split; [|split; [|split; [|split; [|split]]]].
  - intros Hgo. unfold MainScene.checkGameOver. by rewrite Hgo.
  - intros Hgo. unfold MainScene.checkGameOver, reported. rewrite Hgo.
    destruct (hasBuildings_spec (MainScene.buildings s)) as [Hp He].
    destruct (MainScene.hasBuildings (MainScene.buildings s)) as [p e].
    cbn [fst snd] in *.
    assert (forall l : list bool, l ++ [true] <> l ++ [false]) as Hne.
    { intros l Heq. by apply app_inj_tail in Heq as [_ ?]. }
    destruct p, e; cbn [andb negb MainScene.gameOver MainScene.shownModals
      MainScene.showGameOverModal MainScene.set_gameOver]; rewrite ?Hgo;
      rewrite <- ?Hp, <- ?He; repeat split; try done;
      try (by intros [? ?]); try (by intros [=]);
      exfalso;
      match goal with
      | H : (_, _) = (_, _) |- _ =>
          injection H as Heq;
          first [by apply Hne in Heq | symmetry in Heq; by apply Hne in Heq]
      end.
  - intros Hgo time delta clock rnd. unfold MainScene.update. by rewrite Hgo.
  - intros es Hgo. unfold MainScene.run.
    apply (foldl_invariant (fun s' => reported s' = reported s)); [done|].
    intros s' e Hs'. rewrite <- Hs'. apply reported_step_gameOver.
    unfold reported in Hs'. injection Hs' as -> _. done.
  - intros es Hs. unfold MainScene.run. apply foldl_invariant; [done|].
    intros; by apply reportedOnce_step.
  - done.
Qed.

End TerminalDetection.

(** ** Dispatch *)

Section Dispatch.

Implicit Types (s : MainScene.t).

Lemma realSoldiers_app l1 l2 :
  realSoldiers (l1 ++ l2) = realSoldiers l1 ++ realSoldiers l2.
Proof.
  induction l1 as [|[soldier|r] l1 IH]; cbn; [done| |done]. by rewrite IH.
Qed.

Lemma realSoldiers_placeholders (refs : list nat) :
  realSoldiers (map MainScene.PlaceholderRef refs) = [].
Proof. by induction refs. Qed.

(** A due delayed call whose closure and buildings exist creates exactly one
    soldier and leaves the clock; its closure counts one more spawned
    soldier and stays on the same two buildings. *)
Lemma spawn_fires k rnd s call env :
  MainScene.delayedCalls s !! k = Some call ->
  MainScene.closures s !! MainScene.callback call = Some env ->
  is_Some (MainScene.buildings s !! MainScene.sourceBuilding env) ->
  is_Some (MainScene.buildings s !! MainScene.targetBuilding env) ->
  MainScene.delayedCalls (MainScene.spawn k rnd s) = delete k (MainScene.delayedCalls s)
  /\ MainScene.buildings (MainScene.spawn k rnd s) = MainScene.buildings s
  /\ (exists soldier,
        MainScene.activeSoldiers (MainScene.spawn k rnd s)
        = MainScene.activeSoldiers s ++ [MainScene.Real soldier])
  /\ MainScene.closures (MainScene.spawn k rnd s)
     = <[MainScene.callback call :=
           MainScene.mkSpawnClosure (MainScene.sourceBuilding env)
             (MainScene.targetBuilding env)
             (removelast (MainScene.placeholderSoldiers env))
             (MainScene.spawnedSoldiers env + 1) (MainScene.soldiersToSend env)]>
         (MainScene.closures s).
Proof.
  intros Hk Hc [sb Hsb] [tb Htb]. unfold MainScene.spawn.
  rewrite Hk, Hc, Hsb, Htb.
  destruct (last (MainScene.placeholderSoldiers env));
    cbn [MainScene.spawnedSoldiers MainScene.soldiersToSend];
    destruct (MainScene.spawnedSoldiers env + 1 =? MainScene.soldiersToSend env);
    (split; [done|]); (split; [done|]); (split; [by eexists|]); done.
Qed.

(** The delayed calls of one closure, fired one after the other. *)
Lemma spawn_all (rnds : list MainScene.SpawnDraws) :
  forall s pre calls c env,
    MainScene.delayedCalls s = pre ++ calls ->
    length calls = length rnds ->
    Forall (fun call => MainScene.callback call = c) calls ->
    MainScene.closures s !! c = Some env ->
    is_Some (MainScene.buildings s !! MainScene.sourceBuilding env) ->
    is_Some (MainScene.buildings s !! MainScene.targetBuilding env) ->
    let s' := foldl (fun st rnd => MainScene.spawn (length pre) rnd st) s rnds in
    MainScene.delayedCalls s' = pre
    /\ MainScene.buildings s' = MainScene.buildings s
    /\ length (realSoldiers (MainScene.activeSoldiers s'))
       = (length (realSoldiers (MainScene.activeSoldiers s)) + length rnds)%nat.
Proof.
  induction rnds as [|rnd rnds IH]; intros s pre calls c env Hcalls Hlen Hcb Hc Hsrc Htgt.
  - destruct calls; [|done]. cbn. rewrite app_nil_r in Hcalls. auto with lia.
  - destruct calls as [|call calls]; [done|].
    apply Forall_cons in Hcb as [Hcall Hcb].
    assert (MainScene.delayedCalls s !! length pre = Some call) as Hk.
    { rewrite Hcalls. by apply list_lookup_middle. }
    rewrite <- Hcall in Hc.
    destruct (spawn_fires (length pre) rnd s call env Hk Hc Hsrc Htgt)
      as (Hd & Hb & [soldier Ha] & He).
    cbn [foldl]. set (s1 := MainScene.spawn (length pre) rnd s) in *.
    destruct (IH s1 pre calls c
                (MainScene.mkSpawnClosure (MainScene.sourceBuilding env)
                   (MainScene.targetBuilding env)
                   (removelast (MainScene.placeholderSoldiers env))
                   (MainScene.spawnedSoldiers env + 1) (MainScene.soldiersToSend env)))
      as (Hd' & Hb' & Hn').
    + by rewrite Hd, Hcalls, delete_middle.
    + cbn in Hlen. lia.
    + done.
    + rewrite He, Hcall. apply list_lookup_insert_eq.
      rewrite <- Hcall. by eapply lookup_lt_Some.
    + by rewrite Hb.
    + by rewrite Hb.
    + split; [done|]. split; [by rewrite Hb'|].
      rewrite Hn', Ha, realSoldiers_app, length_app. cbn. lia.
Qed.

(** *** The accounting of delayed spawns *)

Lemma spawnAccounting_timers s s' :
  timers s' = timers s -> spawnAccounting s -> spawnAccounting s'.
Proof.
  unfold timers, spawnAccounting, pendingOf. intros [= -> -> ->]. done.
Qed.

Ltac same_timers :=
  unfold timers; cbn;
  rewrite ?length_insert, ?length_alter; reflexivity.

Lemma timers_buildingUpdate now i s : timers (MainScene.buildingUpdate now i s) = timers s.
Proof. unfold MainScene.buildingUpdate. repeat case_match; same_timers. Qed.

Lemma timers_startUpgrade i s : timers (MainScene.startUpgrade i s) = timers s.
Proof. unfold MainScene.startUpgrade. repeat case_match; same_timers. Qed.

Lemma timers_selectBuilding i s : timers (MainScene.selectBuilding i s) = timers s.
Proof. unfold MainScene.selectBuilding. repeat case_match; same_timers. Qed.

Lemma timers_resolveArrival soldier j s :
  timers (MainScene.resolveArrival soldier j s) = timers s.
Proof. unfold MainScene.resolveArrival. repeat case_match; same_timers. Qed.

Lemma timers_handleArrival i soldier s :
  timers (MainScene.handleArrival i soldier s) = timers s.
Proof.
  unfold MainScene.handleArrival.
  destruct (MainScene.findTargetBuilding soldier (MainScene.buildings s)) as [[j b]|];
    [|done].
  exact (timers_resolveArrival soldier j s).
Qed.

Lemma timers_soldierStep delta (st : MainScene.LoopState) i :
  timers (MainScene.soldierStep delta st i).1.1 = timers st.1.1.
Proof.
  destruct st as [[s still] changed]. unfold MainScene.soldierStep.
  repeat case_match; try done. cbn [fst]. by rewrite timers_handleArrival.
Qed.

Lemma timers_checkGameOver s : timers (MainScene.checkGameOver s) = timers s.
Proof. unfold MainScene.checkGameOver. by repeat case_match. Qed.


Lemma filter_callback_none (c : nat) (calls : list MainScene.DelayedCall) :
  Forall (fun call => MainScene.callback call <> c) calls ->
  filter (fun call => MainScene.callback call = c) calls = [].
Proof.
  induction 1 as [|call calls Hne _ IH]; [done|].
  by rewrite filter_cons_False.
Qed.

Lemma filter_callback_all (c : nat) (calls : list MainScene.DelayedCall) :
  Forall (fun call => MainScene.callback call = c) calls ->
  filter (fun call => MainScene.callback call = c) calls = calls.
Proof.
  induction 1 as [|call calls Heq _ IH]; [done|].
  rewrite filter_cons_True by done. by rewrite IH.
Qed.

Lemma length_filter_delete {A} (P : A -> Prop) `{!forall x, Decision (P x)}
    (l : list A) (k : nat) (x : A) :
  l !! k = Some x ->
  length (filter P l)
  = (length (filter P (delete k l)) + (if decide (P x) then 1 else 0))%nat.
Proof.
  revert k. induction l as [|y l IH]; intros [|k] Hk; try done.
  - injection Hk as ->. change (delete 0%nat (x :: l)) with l.
    rewrite filter_cons. case_decide; cbn [length]; lia.
  - change (delete (S k) (y :: l)) with (y :: delete k l).
    rewrite !filter_cons. specialize (IH k Hk).
    destruct (decide (P y)); cbn [length]; lia.
Qed.

(** [sendSoldiers] either returns at once or adds one closure and its
    delayed calls. *)
Lemma sendSoldiers_timers src tgt count s :
  MainScene.sendSoldiers src tgt count s = s
  \/ exists n refs,
       0 < n
       /\ (src < length (MainScene.buildings s))%nat
       /\ (tgt < length (MainScene.buildings s))%nat
       /\ MainScene.closures (MainScene.sendSoldiers src tgt count s)
          = MainScene.closures s ++ [MainScene.mkSpawnClosure src tgt refs 0 n]
       /\ MainScene.delayedCalls (MainScene.sendSoldiers src tgt count s)
          = MainScene.delayedCalls s
            ++ map (fun i => MainScene.mkDelayedCall (Z.of_nat i * 50)
                               (length (MainScene.closures s)))
                   (seq 0 (Z.to_nat n))
       /\ length (MainScene.buildings (MainScene.sendSoldiers src tgt count s))
          = length (MainScene.buildings s).
Proof.
  unfold MainScene.sendSoldiers.
  destruct (MainScene.buildings s !! src) as [sb|] eqn:Hsrc; [|by left].
  destruct (MainScene.buildings s !! tgt) as [tb|] eqn:Htgt; [|by left].
  destruct (Z.leb_spec count 0); [by left|].
  destruct (Z.leb_spec (Z.min (Building.soldiers sb) count) 0); [by left|].
  right. eexists _, _. split; [done|].
  split; [by eapply lookup_lt_Some|]. split; [by eapply lookup_lt_Some|].
  split; [reflexivity|]. split; [reflexivity|].
  cbn. by rewrite length_alter.
Qed.

Lemma spawnAccounting_sendSoldiers src tgt count s :
  spawnAccounting s -> spawnAccounting (MainScene.sendSoldiers src tgt count s).
Proof.
  intros [Hcalls Hcl].
  destruct (sendSoldiers_timers src tgt count s)
    as [->|(n & refs & Hn & Hsrc & Htgt & Hc & Hd & Hb)]; [done|].
  unfold spawnAccounting, pendingOf. rewrite Hc, Hd, Hb, length_app. cbn [length].
  split.
  - apply Forall_app. split.
    + eapply Forall_impl; [exact Hcalls|]. cbn. intros; lia.
    + apply Forall_forall. intros call Hin.
      apply list_elem_of_In, in_map_iff in Hin as (i & <- & _). cbn. lia.
  - intros c env Hlook. rewrite filter_app, length_app.
    apply lookup_app_Some in Hlook as [Hold|[Hge Hnew]].
    + destruct (Hcl c env Hold) as (Hs & Ht & Hacc).
      split; [done|]. split; [done|].
      rewrite (filter_callback_none c (map _ _)).
      * cbn [length]. unfold pendingOf in Hacc. lia.
      * apply Forall_forall. intros call Hin.
        apply list_elem_of_In, in_map_iff in Hin as (i & <- & _). cbn.
        apply lookup_lt_Some in Hold. lia.
    + apply list_lookup_singleton_Some in Hnew as [Hc0 <-].
      assert (c = length (MainScene.closures s)) as -> by lia.
      cbn [MainScene.sourceBuilding MainScene.targetBuilding
           MainScene.spawnedSoldiers MainScene.soldiersToSend].
      split; [done|]. split; [done|].
      rewrite (filter_callback_none _ (MainScene.delayedCalls s)).
      * rewrite filter_callback_all.
        -- rewrite length_map, length_seq. cbn [length]. lia.
        -- apply Forall_forall. intros call Hin.
           by apply list_elem_of_In, in_map_iff in Hin as (i & <- & _).
      * eapply Forall_impl; [exact Hcalls|]. cbn. intros; lia.
Qed.

Lemma dispatched_sendSoldiers c n src tgt count s :
  dispatched c n s -> dispatched c n (MainScene.sendSoldiers src tgt count s).
Proof.
  intros [Hacc Hc]. split; [by apply spawnAccounting_sendSoldiers|].
  destruct (sendSoldiers_timers src tgt count s)
    as [->|(n' & refs & _ & _ & _ & Hcl & _)]; [done|].
  rewrite Hcl. destruct (MainScene.closures s !! c) as [env|] eqn:Hlook; [|done].
  by rewrite (lookup_app_l_Some _ _ _ _ Hlook).
Qed.


Lemma dispatched_spawn c n k rnd s :
  dispatched c n s -> dispatched c n (MainScene.spawn k rnd s).
Proof.
  intros [[Hcalls Hcl] Hc].
  destruct (MainScene.delayedCalls s !! k) as [call|] eqn:Hk;
    [|unfold MainScene.spawn; by rewrite Hk].
  pose proof (Forall_lookup_1 _ _ _ _ Hcalls Hk) as Hlt. cbn in Hlt.
  destruct (lookup_lt_is_Some_2 _ _ Hlt) as [env Henv].
  destruct (Hcl _ _ Henv) as (Hsrc & Htgt & Hacc).
  destruct (spawn_fires k rnd s call env Hk Henv) as (Hd & Hb & _ & Hcl');
    [by apply lookup_lt_is_Some_2..|].
  unfold dispatched, spawnAccounting, pendingOf. rewrite Hd, Hb, Hcl', length_insert.
  split; [split|].
  - by apply Forall_delete.
  - intros c' env' Hlook.
    pose proof (length_filter_delete (fun call' => MainScene.callback call' = c')
                  _ k call Hk) as Hlen.
    destruct (decide (c' = MainScene.callback call)) as [->|Hne].
    + rewrite list_lookup_insert_eq in Hlook by done. injection Hlook as <-.
      cbn [MainScene.sourceBuilding MainScene.targetBuilding
           MainScene.spawnedSoldiers MainScene.soldiersToSend].
      rewrite decide_True in Hlen by done. unfold pendingOf in Hacc.
      split; [done|]. split; [done|]. lia.
    + rewrite list_lookup_insert_ne in Hlook by done.
      destruct (Hcl _ _ Hlook) as (Hsrc' & Htgt' & Hacc').
      rewrite decide_False in Hlen by done. unfold pendingOf in Hacc'.
      split; [done|]. split; [done|]. lia.
  - destruct (decide (c = MainScene.callback call)) as [->|Hne].
    + rewrite list_lookup_insert_eq by done. by rewrite Henv in Hc.
    + by rewrite list_lookup_insert_ne.
Qed.

Lemma dispatched_timers c n s s' :
  timers s' = timers s -> dispatched c n s -> dispatched c n s'.
Proof.
  intros Ht [Hacc Hc]. split; [by eapply spawnAccounting_timers|].
  unfold timers in Ht. by injection Ht as -> _ _.
Qed.

Lemma dispatched_handleRightClick c n tgt s :
  dispatched c n s -> dispatched c n (MainScene.handleRightClick tgt s).
Proof.
  intros Hs. unfold MainScene.handleRightClick.
  destruct (MainScene.selectedBuilding s) as [src|]; [|done].
  case_bool_decide; [done|].
  destruct (MainScene.buildings s !! src) as [sb|]; [|done].
  destruct (Building.soldiers sb <=? 0); [done|].
  eapply dispatched_timers; [|by apply (dispatched_sendSoldiers _ _ src tgt (Building.soldiers sb))].
  unfold timers. cbn. by rewrite length_alter.
Qed.

Lemma dispatched_pointerdown c n i right currentTime s :
  dispatched c n s -> dispatched c n (MainScene.pointerdown i right currentTime s).
Proof.
  intros Hs. unfold MainScene.pointerdown.
  destruct right; [by apply dispatched_handleRightClick|].
  destruct (MainScene.buildings s !! i) as [b|]; [|done].
  destruct (Building.isPlayerOwned b); [|done].
  eapply dispatched_timers; [|exact Hs].
  destruct (currentTime - Building.lastClickTime b <? 300).
  - rewrite <- (timers_startUpgrade i s). unfold timers. cbn. by rewrite length_alter.
  - rewrite <- (timers_selectBuilding i s). unfold timers. cbn. by rewrite length_alter.
Qed.

Lemma dispatched_decideForBuilding c n i rnd s :
  dispatched c n s -> dispatched c n (MainScene.decideForBuilding i rnd s).
Proof.
  intros Hs. unfold MainScene.decideForBuilding, MainScene.expandToNeutral,
    MainScene.attackTarget.
  repeat case_match; auto using dispatched_sendSoldiers.
  eapply dispatched_timers; [apply timers_startUpgrade|done].
Qed.

Lemma dispatched_aiUpdate c n time rnd s :
  dispatched c n s -> dispatched c n (MainScene.aiUpdate time rnd s).
Proof.
  intros Hs. unfold MainScene.aiUpdate, MainScene.makeDecisions.
  case_match; [done|].
  apply foldl_invariant; [done|]. intros; by apply dispatched_decideForBuilding.
Qed.

Lemma dispatched_update c n time delta clock rnd s :
  dispatched c n s -> dispatched c n (MainScene.update time delta clock rnd s).
Proof.
  intros Hs. unfold MainScene.update. destruct (MainScene.gameOver s); [done|].
  set (s1 := foldl _ s _).
  assert (timers s1 = timers s) as Hs1.
  { apply (foldl_invariant (fun s' => timers s' = timers s)); [done|].
    intros s' x <-. apply timers_buildingUpdate. }
  pose proof (foldl_invariant
                (fun st : MainScene.LoopState => timers st.1.1 = timers s)
                (MainScene.soldierStep delta)
                (seq 0 (length (MainScene.activeSoldiers s1))) (s1, [], false) Hs1) as Hloop.
  destruct (foldl (MainScene.soldierStep delta) _ _) as [[s2 still] changed].
  cbn [fst] in Hloop.
  apply dispatched_aiUpdate. eapply dispatched_timers; [|exact Hs].
  rewrite timers_checkGameOver. rewrite <- Hloop.
  - by destruct changed.
  - intros st x <-. apply timers_soldierStep.
Qed.

Lemma dispatched_step c n s e :
  dispatched c n s -> dispatched c n (MainScene.step s e).
Proof.
  intros Hs. destruct e; cbn [MainScene.step];
    auto using dispatched_update, dispatched_spawn, dispatched_pointerdown.
Qed.


Lemma create_spawnAccounting now pos : spawnAccounting (MainScene.create now pos).
Proof. split; [constructor|]. intros c env Hc. done. Qed.

(** Without a source or a target building, [sendSoldiers] returns at
    once. *)
Lemma sendSoldiers_missing_building src tgt count s :
  MainScene.buildings s !! src = None \/ MainScene.buildings s !! tgt = None ->
  MainScene.sendSoldiers src tgt count s = s.
Proof.
  unfold MainScene.sendSoldiers. intros [-> | ->]; [done|].
  by destruct (MainScene.buildings s !! src).
Qed.

(** Whatever has happened in the match, a delayed call that fires creates
    exactly one soldier, and its closure counts it. *)
Lemma delayed_call_creates_one_soldier k rnd s call :
  spawnAccounting s ->
  MainScene.delayedCalls s !! k = Some call ->
  exists soldier env,
    MainScene.activeSoldiers (MainScene.spawn k rnd s)
    = MainScene.activeSoldiers s ++ [MainScene.Real soldier]
    /\ MainScene.closures s !! MainScene.callback call = Some env
    /\ (MainScene.spawnedSoldiers <$>
          MainScene.closures (MainScene.spawn k rnd s) !! MainScene.callback call)
       = Some (MainScene.spawnedSoldiers env + 1).
Proof.
  intros [Hcalls Hcl] Hk.
  pose proof (Forall_lookup_1 _ _ _ _ Hcalls Hk) as Hlt. cbn in Hlt.
  destruct (lookup_lt_is_Some_2 _ _ Hlt) as [env Henv].
  destruct (Hcl _ _ Henv) as (Hsrc & Htgt & _).
  destruct (spawn_fires k rnd s call env Hk Henv) as (_ & _ & [soldier Ha] & Hcl');
    [by apply lookup_lt_is_Some_2..|].
  exists soldier, env. split; [done|]. split; [done|].
  rewrite Hcl'. by rewrite list_lookup_insert_eq.
Qed.

(** C3.  [sendSoldiers(src, tgt, count)] on two buildings of the scene sends
    [n = min(count, src.soldiers)].  If [n <= 0] nothing changes.
    Otherwise, at once, exactly [n] is taken from the source building (no
    other building changes), no soldier exists yet, and [n] delayed calls
    are pending, 50 ms apart.  When those [n] calls fire, whatever they
    draw, exactly [n] soldiers have been created, the clock is back to the
    calls that were pending before, and no building has changed in between.
    And whatever else happens in the match (frames, other dispatches, other
    spawns, pointer presses) in a match whose delayed spawns were accounted
    for so far, as they are in a new match, the closure [c] of this dispatch
    has spawned [n] soldiers less one per call of its own that is still
    pending. *)
Theorem dispatch_invariant s src tgt count sb :
  MainScene.buildings s !! src = Some sb ->
  is_Some (MainScene.buildings s !! tgt) ->
  let n := Z.min (Building.soldiers sb) count in
  let s' := MainScene.sendSoldiers src tgt count s in
  let c := length (MainScene.closures s) in
  (n <= 0 -> s' = s)
  /\ (0 < n ->
      MainScene.buildings s'
      = <[src := Building.set_soldiers (Building.soldiers sb - n) sb]> (MainScene.buildings s)
      /\ realSoldiers (MainScene.activeSoldiers s') = realSoldiers (MainScene.activeSoldiers s)
      /\ MainScene.delayedCalls s'
         = MainScene.delayedCalls s
           ++ map (fun i => MainScene.mkDelayedCall (Z.of_nat i * 50) c)
                  (seq 0 (Z.to_nat n))
      /\ (forall rnds : list MainScene.SpawnDraws,
           length rnds = Z.to_nat n ->
           let s'' :=
             foldl (fun st rnd => MainScene.spawn (length (MainScene.delayedCalls s)) rnd st)
                   s' rnds in
           Z.of_nat (length (realSoldiers (MainScene.activeSoldiers s'')))
           = Z.of_nat (length (realSoldiers (MainScene.activeSoldiers s))) + n
           /\ MainScene.delayedCalls s'' = MainScene.delayedCalls s
           /\ MainScene.buildings s'' = MainScene.buildings s')
      /\ (forall es : list MainScene.Event,
           spawnAccounting s ->
           exists env,
             MainScene.closures (MainScene.run s' es) !! c = Some env
             /\ MainScene.soldiersToSend env = n
             /\ MainScene.spawnedSoldiers env
                + Z.of_nat (pendingOf c (MainScene.run s' es)) = n)).
Proof.
  intros Hsrc [tb Htgt] n s' c.
  pose proof (spawnAccounting_sendSoldiers src tgt count s) as Hacc'. fold s' in Hacc'.
  subst s'. unfold MainScene.sendSoldiers in *.
  rewrite Hsrc, Htgt in *. fold n in Hacc' |- *. split.
  - intros Hn. destruct (Z.leb_spec count 0); [done|].
    destruct (Z.leb_spec n 0); [done|lia].
  - intros Hn. destruct (Z.leb_spec count 0); [lia|].
    destruct (Z.leb_spec n 0); [lia|].
    set (s' := MainScene.set_delayedCalls _ _) in *.
    assert (MainScene.buildings s'
            = <[src := Building.set_soldiers (Building.soldiers sb - n) sb]>
                (MainScene.buildings s)) as Hb.
    { subst s'. cbn [MainScene.buildings MainScene.set_delayedCalls MainScene.set_closures].
      rewrite buildings_calculateSoldierCounts.
      cbn [MainScene.buildings MainScene.set_activeSoldiers MainScene.set_placeholders].
      rewrite buildings_modifyBuilding. by rewrite (alter_as_insert _ _ _ _ Hsrc). }
    assert (realSoldiers (MainScene.activeSoldiers s')
            = realSoldiers (MainScene.activeSoldiers s)) as Ha.
    { subst s'. cbn. by rewrite realSoldiers_app, realSoldiers_placeholders, app_nil_r. }
    assert (MainScene.closures s' !! c
            = Some (MainScene.mkSpawnClosure src tgt
                      (seq (length (MainScene.placeholders s)) (Z.to_nat n)) 0 n)) as Hc.
    { subst s'. cbn. by apply list_lookup_middle. }
    split; [done|]. split; [done|]. split; [done|]. split.
    + intros rnds Hlen. cbv zeta.
      destruct (spawn_all rnds s' (MainScene.delayedCalls s)
                  (map (fun i => MainScene.mkDelayedCall (Z.of_nat i * 50) c)
                       (seq 0 (Z.to_nat n)))
                  c
                  (MainScene.mkSpawnClosure src tgt
                     (seq (length (MainScene.placeholders s)) (Z.to_nat n)) 0 n))
        as (Hd & Hb' & Hn').
      * done.
      * by rewrite length_map, length_seq.
      * apply Forall_forall. intros call Hin. apply list_elem_of_In, in_map_iff in Hin.
        by destruct Hin as (i & <- & _).
      * done.
      * cbn [MainScene.sourceBuilding]. rewrite Hb.
        apply list_lookup_insert_is_Some. by eexists.
      * cbn [MainScene.targetBuilding]. rewrite Hb.
        apply list_lookup_insert_is_Some. by eexists.
      * rewrite Hn', Ha. split; [lia|done].
    + intros es Hacc.
      assert (dispatched c n (MainScene.run s' es)) as [[_ Hcl] Hn'].
      { unfold MainScene.run. apply foldl_invariant.
        - split; [by apply Hacc'|]. by rewrite Hc.
        - intros; by apply dispatched_step. }
      destruct (MainScene.closures (MainScene.run s' es) !! c) as [env|] eqn:Henv;
        [|done].
      injection Hn' as Hn'. destruct (Hcl c env Henv) as (_ & _ & Hsum).
      exists env. split; [done|]. split; [done|]. lia.
Qed.

End Dispatch.

(** ** Troop generation *)

Section Generation.

(** C4 as stated, on the building that [new Building(scene, 0, 0, 'player')]
    makes at time 0, ticked once 2500 ms later: it does not gain two
    soldiers, and the timer restarts at the tick (the elapsed time it then
    shows is 0, not 500). *)
Lemma generation_2500ms_gains_one :
  Building.soldiers (fst (Building.update 2500 (Building.constructor 0 0 0 player)))
  <> Building.soldiers (Building.constructor 0 0 0 player) + 2
  /\ 2500 - Building.lastUpdate (fst (Building.update 2500 (Building.constructor 0 0 0 player)))
     <> 500.
Proof. split; vm_compute; discriminate. Qed.

(** C4, amended.  A player building at level 1 that is not upgrading, ticked
    once 2500 ms after its last generation, gains exactly one soldier and its
    timer restarts at the tick: nothing is carried over, so a second tick
    500 ms later generates nothing. *)
Theorem generation_one_per_tick (b : Building.t) (now : Z) :
  Building.ownership b = player ->
  Building.level b = 1 ->
  Building.isUpgrading b = false ->
  now - Building.lastUpdate b = 2500 ->
  let b' := fst (Building.update now b) in
  Building.soldiers b' = Building.soldiers b + 1
  /\ Building.lastUpdate b' = now
  /\ Building.soldiers (fst (Building.update (now + 500) b')) = Building.soldiers b'.
Proof.
  intros Hown Hlevel Hup Hel.
  assert (forall now', Building.update now' b
          = if PrimFloat.leb 1000 (JS.Z2float (now' - Building.lastUpdate b))
            then (Building.set_lastUpdate now'
                    (Building.set_soldiers (Building.soldiers b + 1) b), true)
            else (b, false)) as Hupd.
  { intros now'. unfold Building.update, Building.updateUpgrade, Building.generationTime.
    rewrite Hup. cbv iota. rewrite Hup, Hown, Hlevel. reflexivity. }
  cbv zeta. rewrite Hupd, Hel.
  change (PrimFloat.leb 1000 (JS.Z2float 2500)) with true. cbn [fst].
  split; [done|]. split; [done|].
  unfold Building.update, Building.updateUpgrade, Building.generationTime.
  cbn [Building.isUpgrading Building.ownership Building.level Building.lastUpdate
       Building.set_lastUpdate Building.set_soldiers].
  rewrite Hup. cbv iota.
  cbn [Building.isUpgrading Building.ownership Building.level Building.lastUpdate
       Building.set_lastUpdate Building.set_soldiers].
  rewrite Hup, Hown, Hlevel.
  replace (now + 500 - now) with 500 by lia.
  reflexivity.
Qed.

End Generation.

(** ** Upgrades *)

Section Upgrade.

(** What [startUpgrade] does, whatever the level: nothing while an upgrade
    is running or when the troops do not cover [5 * level]; otherwise it
    takes the cost, sets the flag and zeroes the progress. *)
Lemma startUpgrade_spec (b : Building.t) :
  (Building.isUpgrading b = true -> fst (Building.startUpgrade b) = b)
  /\ (Building.soldiers b < 5 * Building.level b -> fst (Building.startUpgrade b) = b)
  /\ (Building.isUpgrading b = false -> 5 * Building.level b <= Building.soldiers b ->
      let b' := fst (Building.startUpgrade b) in
      Building.soldiers b' = Building.soldiers b - 5 * Building.level b
      /\ Building.isUpgrading b' = true
      /\ Building.upgradeProgress b' = 0
      /\ Building.level b' = Building.level b).
Proof.
  unfold Building.startUpgrade. repeat split.
  - by intros ->.
  - intros Hlt. destruct (Building.isUpgrading b); [done|].
    destruct (Z.ltb_spec (Building.soldiers b) (5 * Building.level b)); [done|lia].
  - rewrite H. destruct (Z.ltb_spec (Building.soldiers b) (5 * Building.level b)); [lia|done].
  - rewrite H. destruct (Z.ltb_spec (Building.soldiers b) (5 * Building.level b)); [lia|done].
  - rewrite H. destruct (Z.ltb_spec (Building.soldiers b) (5 * Building.level b)); [lia|done].
  - rewrite H. destruct (Z.ltb_spec (Building.soldiers b) (5 * Building.level b)); [lia|done].
Qed.

(** C5, at the level cap.  On a building at level 3 or more that is not
    upgrading and holds the cost [5 * level], [startUpgrade()] is not a
    no-op: it takes the cost and starts an upgrade, and the first [update]
    after the upgrade time has passed raises the level by one, beyond 3. *)
Theorem startUpgrade_ignores_level_cap (b : Building.t) :
  3 <= Building.level b ->
  Building.isUpgrading b = false ->
  5 * Building.level b <= Building.soldiers b ->
  let b' := fst (Building.startUpgrade b) in
  b' <> b
  /\ Building.soldiers b' = Building.soldiers b - 5 * Building.level b
  /\ Building.isUpgrading b' = true
  /\ (forall now, Building.upgradeTime b <= now - Building.lastUpdate b ->
      Building.level (fst (Building.update now b')) = Building.level b + 1).
Proof.
  intros Hlevel Hup Hcost.
  destruct (startUpgrade_spec b) as (_ & _ & Hstart).
  destruct (Hstart Hup Hcost) as (Hs & Hu & Hp & Hl).
  cbv zeta. split; [|split; [done|split; [done|]]].
  - intros Heq. rewrite Heq in Hu. congruence.
  - intros now Hnow. unfold Building.startUpgrade.
    rewrite Hup. destruct (Z.ltb_spec (Building.soldiers b) (5 * Building.level b)); [lia|].
    cbn [fst]. unfold Building.update, Building.updateUpgrade.
    cbn [Building.isUpgrading Building.set_upgradeProgress Building.set_isUpgrading
         Building.set_soldiers Building.upgradeProgress Building.upgradeTime
         Building.lastUpdate Building.level Building.set_level Building.ownership].
    destruct (Z.leb_spec (Building.upgradeTime b) (0 + (now - Building.lastUpdate b)));
      [|lia].
    by repeat case_match.
Qed.

End Upgrade.

(** ** A soldier created on its target *)

Section DegenerateSoldier.

Lemma mul_nan_l (y : float) : PrimFloat.mul PrimFloat.nan y = PrimFloat.nan.
Proof. apply Prim2SF_inj. rewrite mul_spec. reflexivity. Qed.

Lemma add_nan_r (y : float) : PrimFloat.add y PrimFloat.nan = PrimFloat.nan.
Proof.
  apply Prim2SF_inj. rewrite add_spec. cbn. unfold SF64add, SFadd.
  destruct (Prim2SF y) as [| | |[] ? ?]; try reflexivity; destruct s; reflexivity.
Qed.

Lemma sub_nan_r (y : float) : PrimFloat.sub y PrimFloat.nan = PrimFloat.nan.
Proof.
  apply Prim2SF_inj. rewrite sub_spec. cbn. unfold SF64sub, SFsub.
  destruct (Prim2SF y) as [| | |[] ? ?]; try reflexivity; destruct s; reflexivity.
Qed.

Lemma add_nan_l (y : float) : PrimFloat.add PrimFloat.nan y = PrimFloat.nan.
Proof. apply Prim2SF_inj. rewrite add_spec. reflexivity. Qed.

Lemma ltb_nan_l (y : float) : PrimFloat.ltb PrimFloat.nan y = false.
Proof. rewrite ltb_spec. reflexivity. Qed.

(** A soldier whose velocity is NaN does not reach its target in a frame,
    and its velocity stays NaN. *)
Lemma nan_velocity_stuck (delta : float) (soldier : Soldier.t) :
  Soldier.vx soldier = PrimFloat.nan ->
  snd (Soldier.update delta soldier) = false
  /\ Soldier.vx (fst (Soldier.update delta soldier)) = PrimFloat.nan.
Proof.
  intros Hvx. unfold Soldier.update. cbn [fst snd Soldier.vx]. rewrite Hvx.
  split; [|done].
  by rewrite mul_nan_l, add_nan_r, sub_nan_r, mul_nan_l, add_nan_l, ltb_nan_l.
Qed.

(** A finite number is a zero or has a mantissa and an exponent. *)
Lemma Prim2SF_finite (x : float) :
  PrimFloat.is_finite x = true ->
  (exists sgn, Prim2SF x = S754_zero sgn)
  \/ (exists sgn m e, Prim2SF x = S754_finite sgn m e).
Proof.
  unfold PrimFloat.is_finite, Prim2SF.
  destruct (PrimFloat.is_nan x); [done|].
  destruct (PrimFloat.is_infinity x); [done|]. intros _.
  destruct (PrimFloat.is_zero x); [left; by eexists|].
  destruct (Z.frexp x) as [r e].
  destruct (shr_fexp _ _ _ _ _) as [shr e'].
  destruct (shr_m shr); [left|right|left]; by repeat eexists.
Qed.

(** A finite number minus itself is [+0]. *)
Lemma sub_diag (x : float) :
  PrimFloat.is_finite x = true -> PrimFloat.sub x x = PrimFloat.zero.
Proof.
  intros Hfin. apply Prim2SF_inj. rewrite sub_spec.
  destruct (Prim2SF_finite x Hfin) as [[sgn ->]|(sgn & m & e & ->)].
  - by destruct sgn.
  - unfold SF64sub, SFsub. by rewrite Z.sub_diag.
Qed.

(** C7, on soldiers created where their target is.  For every finite point
    [(x, y)], the velocity of [new Soldier(scene, x, y, x, y, p)] is NaN on
    both axes (the zero direction is divided by a distance of 0, without a
    guard), and whatever the frames that follow, [update] never reports the
    soldier as arrived. *)
Theorem degenerate_soldier_never_arrives (x y : float) (p : bool)
    (deltas : list float) (delta : float) :
  PrimFloat.is_finite x = true ->
  PrimFloat.is_finite y = true ->
  PrimFloat.is_nan (Soldier.vx (Soldier.constructor x y x y p)) = true
  /\ PrimFloat.is_nan (Soldier.vy (Soldier.constructor x y x y p)) = true
  /\ snd (Soldier.update delta
            (foldl (fun soldier d => fst (Soldier.update d soldier))
                   (Soldier.constructor x y x y p) deltas)) = false.
Proof.
  intros Hx Hy.
  assert (Soldier.vx (Soldier.constructor x y x y p) = PrimFloat.nan
          /\ Soldier.vy (Soldier.constructor x y x y p) = PrimFloat.nan) as [Hvx Hvy].
  { unfold Soldier.constructor. cbn [Soldier.vx Soldier.vy].
    rewrite (sub_diag x Hx), (sub_diag y Hy). split; reflexivity. }
  rewrite Hvx, Hvy. split; [reflexivity|]. split; [reflexivity|].
  apply nan_velocity_stuck.
  apply (foldl_invariant (fun soldier => Soldier.vx soldier = PrimFloat.nan)).
  - exact Hvx.
  - intros soldier d Hs. by apply nan_velocity_stuck.
Qed.

End DegenerateSoldier.

(** ** The AI holds when it cannot send more than one soldier *)

Section AIHold.

(** C8.  For the building [b] of index [i], the cap that
    [evaluateStrategicOptions] computes is
    [max(1, floor(b.soldiers * (1 - minSoldiersToKeep * threatLevel)))];
    when it is at most 1 the decision is to hold, whatever the random
    readings, and [decideForBuilding] leaves the whole scene as it is: no
    soldier is sent from the building and no upgrade is started. *)
Theorem ai_holds_when_cap_at_most_one (s : MainScene.t) (i : nat) (b : Building.t)
    (rnd : AIController.Draws) :
  MainScene.buildings s !! i = Some b ->
  let ai := MainScene.aiController s in
  let bs := MainScene.buildings s in
  let cap := AIController.maxSoldiersToSend ai bs b in
  cap = JS.Math_max 1
          (JS.Math_floor
             (JS.Z2float (Building.soldiers b)
              * (1 - AIController.minSoldiersToKeep ai
                     * AIController.calculateThreatLevel b
                         (AIController.getPlayerBuildings bs)))%float)
  /\ (PrimFloat.leb cap 1 = true ->
      AIController.evaluateStrategicOptions ai bs b rnd = AIController.hold
      /\ MainScene.decideForBuilding i rnd s = s).
Proof.
  intros Hi ai bs cap. split; [reflexivity|]. intros Hcap.
  assert (AIController.evaluateStrategicOptions ai bs b rnd = AIController.hold) as Hhold.
  { unfold AIController.evaluateStrategicOptions. cbv zeta. fold cap. by rewrite Hcap. }
  split; [done|].
  unfold MainScene.decideForBuilding. rewrite Hi. fold ai bs. rewrite Hhold.
  by repeat case_match.
Qed.

End AIHold.

(** ** The live collection after a frame *)

Section LiveCollection.
Implicit Types (s : MainScene.t).

Lemma activeSoldiers_buildingUpdate now i s :
  MainScene.activeSoldiers (MainScene.buildingUpdate now i s) = MainScene.activeSoldiers s.
Proof. unfold MainScene.buildingUpdate. by repeat case_match. Qed.

Lemma activeSoldiers_resolveArrival soldier j s :
  MainScene.activeSoldiers (MainScene.resolveArrival soldier j s)
  = MainScene.activeSoldiers s.
Proof. unfold MainScene.resolveArrival. by repeat case_match. Qed.

Lemma activeSoldiers_handleArrival i soldier s :
  MainScene.activeSoldiers (MainScene.handleArrival i soldier s)
  = <[i := MainScene.Real (Soldier.destroy soldier)]> (MainScene.activeSoldiers s).
Proof.
  unfold MainScene.handleArrival. cbn [MainScene.activeSoldiers MainScene.set_activeSoldiers].
  destruct (MainScene.findTargetBuilding soldier (MainScene.buildings s)) as [[j b]|];
    [|done].
  by rewrite activeSoldiers_resolveArrival.
Qed.

Lemma activeSoldiers_checkGameOver s :
  MainScene.activeSoldiers (MainScene.checkGameOver s) = MainScene.activeSoldiers s.
Proof. unfold MainScene.checkGameOver. by repeat case_match. Qed.

Lemma activeSoldiers_startUpgrade i s :
  MainScene.activeSoldiers (MainScene.startUpgrade i s) = MainScene.activeSoldiers s.
Proof. unfold MainScene.startUpgrade. by repeat case_match. Qed.

Lemma realSoldiers_sendSoldiers src tgt count s :
  realSoldiers (MainScene.activeSoldiers (MainScene.sendSoldiers src tgt count s))
  = realSoldiers (MainScene.activeSoldiers s).
Proof.
  unfold MainScene.sendSoldiers. repeat case_match; try done.
  cbn. by rewrite realSoldiers_app, realSoldiers_placeholders, app_nil_r.
Qed.

Lemma realSoldiers_decideForBuilding i rnd s :
  realSoldiers (MainScene.activeSoldiers (MainScene.decideForBuilding i rnd s))
  = realSoldiers (MainScene.activeSoldiers s).
Proof.
  unfold MainScene.decideForBuilding, MainScene.expandToNeutral,
    MainScene.attackTarget.
  repeat case_match; auto using realSoldiers_sendSoldiers.
  by rewrite activeSoldiers_startUpgrade.
Qed.

Lemma realSoldiers_aiUpdate time rnd s :
  realSoldiers (MainScene.activeSoldiers (MainScene.aiUpdate time rnd s))
  = realSoldiers (MainScene.activeSoldiers s).
Proof.
  unfold MainScene.aiUpdate, MainScene.makeDecisions. case_match; [done|].
  apply (foldl_invariant
           (fun s' => realSoldiers (MainScene.activeSoldiers s')
                      = realSoldiers (MainScene.activeSoldiers s))); [done|].
  intros s' x <-. apply realSoldiers_decideForBuilding.
Qed.

(** One turn of the soldier loop writes the array at its own index only,
    and keeps what [survivor] says. *)
Lemma soldierStep_live delta (st : MainScene.LoopState) i u :
  MainScene.activeSoldiers st.1.1 !! i = Some u ->
  let st' := MainScene.soldierStep delta st i in
  realSoldiers st'.1.2
  = realSoldiers st.1.2 ++ flat_map (survivor delta) (realSoldiers [u])
  /\ length (MainScene.activeSoldiers st'.1.1) = length (MainScene.activeSoldiers st.1.1)
  /\ forall i', i' <> i ->
       MainScene.activeSoldiers st'.1.1 !! i' = MainScene.activeSoldiers st.1.1 !! i'.
Proof.
  destruct st as [[s still] changed]. cbn [fst snd]. intros Hi.
  unfold MainScene.soldierStep. rewrite Hi. destruct u as [soldier|r].
  - cbn [realSoldiers flat_map]. unfold survivor. rewrite app_nil_r.
    destruct (Soldier.active soldier); cbn [negb andb fst snd];
      [|by rewrite app_nil_r].
    destruct (snd (Soldier.update delta soldier)); cbn [negb fst snd].
    + rewrite app_nil_r. split; [done|].
      rewrite activeSoldiers_handleArrival.
      cbn [MainScene.activeSoldiers MainScene.set_activeSoldiers].
      rewrite !length_insert. split; [done|].
      intros i' Hne. by rewrite !list_lookup_insert_ne.
    + rewrite realSoldiers_app. cbn [realSoldiers]. split; [done|].
      cbn [MainScene.activeSoldiers MainScene.set_activeSoldiers].
      rewrite length_insert. split; [done|].
      intros i' Hne. by rewrite list_lookup_insert_ne.
  - cbn [realSoldiers flat_map]. rewrite app_nil_r.
    destruct (MainScene.soldierActive s (MainScene.PlaceholderRef r)); cbn [negb fst snd].
    + rewrite realSoldiers_app. cbn [realSoldiers]. by rewrite app_nil_r.
    + done.
Qed.

(** The soldier loop, up to index [k]. *)
Lemma soldierLoop_live delta s1 k :
  (k <= length (MainScene.activeSoldiers s1))%nat ->
  let st := foldl (MainScene.soldierStep delta) (s1, [], false) (seq 0 k) in
  realSoldiers st.1.2
  = flat_map (survivor delta) (realSoldiers (take k (MainScene.activeSoldiers s1)))
  /\ length (MainScene.activeSoldiers st.1.1) = length (MainScene.activeSoldiers s1)
  /\ forall i, (k <= i)%nat ->
       MainScene.activeSoldiers st.1.1 !! i = MainScene.activeSoldiers s1 !! i.
Proof.
  induction k as [|k IH]; intros Hk; cbv zeta in *.
  - cbn. by rewrite take_0.
  - destruct IH as (Hstill & Hlen & Hrest); [lia|].
    rewrite seq_S, foldl_snoc. cbn [Nat.add].
    destruct (lookup_lt_is_Some_2 (MainScene.activeSoldiers s1) k) as [u Hu]; [lia|].
    destruct (soldierStep_live delta
                (foldl (MainScene.soldierStep delta) (s1, [], false) (seq 0 k)) k u)
      as (Hstill' & Hlen' & Hrest').
    { rewrite Hrest by lia. done. }
    rewrite Hstill', Hstill, Hlen', Hlen.
    rewrite (take_S_r _ _ _ Hu), realSoldiers_app, flat_map_app.
    split; [done|]. split; [done|].
    intros i Hi. rewrite Hrest' by lia. apply Hrest. lia.
Qed.

(** The real soldiers of the live collection after a frame are the
    survivors of those before it, in order: a soldier that arrived is not
    among them, whether a building was found at its target or not. *)
Lemma frame_live_soldiers time delta clock rnd s :
  MainScene.gameOver s = false ->
  realSoldiers (MainScene.activeSoldiers (MainScene.update time delta clock rnd s))
  = flat_map (survivor delta) (realSoldiers (MainScene.activeSoldiers s)).
Proof.
  intros Hgo. unfold MainScene.update. rewrite Hgo.
  set (s1 := foldl _ s _).
  assert (MainScene.activeSoldiers s1 = MainScene.activeSoldiers s) as Hs1.
  { apply (foldl_invariant
             (fun s' => MainScene.activeSoldiers s' = MainScene.activeSoldiers s)); [done|].
    intros s' x <-. apply activeSoldiers_buildingUpdate. }
  destruct (soldierLoop_live delta s1 (length (MainScene.activeSoldiers s1)))
    as (Hstill & _); [done|].
  destruct (foldl (MainScene.soldierStep delta) _ _) as [[s2 still] changed].
  cbn [fst snd] in Hstill. rewrite take_ge in Hstill by done.
  rewrite realSoldiers_aiUpdate, activeSoldiers_checkGameOver, <- Hs1, <- Hstill.
  by destruct changed.
Qed.

End LiveCollection.

(** ** Arrival on empty ground *)

Section EmptyGround.

(** C9.  A live soldier at index [i] of the array that reports arrival in
    this frame while no (active) building is within the capture radius of
    its target point: the turn of the loop destroys it and does not keep it
    among the still active soldiers, and nothing else of the scene changes,
    no building in particular.  It leaves nothing in the live collection:
    after a frame, the real soldiers of the collection are the survivors of
    those before it, and this soldier has none. *)
Theorem arrival_on_empty_ground (delta : float) (s : MainScene.t)
    (still : list MainScene.ActiveSoldier) (changed : bool) (i : nat)
    (soldier : Soldier.t) :
  MainScene.activeSoldiers s !! i = Some (MainScene.Real soldier) ->
  Soldier.active soldier = true ->
  snd (Soldier.update delta soldier) = true ->
  Forall (fun b => MainScene.inCaptureRadius (fst (Soldier.update delta soldier)) b = false)
         (MainScene.buildings s) ->
  MainScene.soldierStep delta (s, still, changed) i
  = (MainScene.set_activeSoldiers
       (<[i := MainScene.Real (Soldier.destroy (fst (Soldier.update delta soldier)))]>
          (MainScene.activeSoldiers s)) s,
     still, true)
  /\ MainScene.buildings (MainScene.soldierStep delta (s, still, changed) i).1.1
     = MainScene.buildings s
  /\ survivor delta soldier = []
  /\ (forall time clock rnd,
        MainScene.gameOver s = false ->
        realSoldiers (MainScene.activeSoldiers (MainScene.update time delta clock rnd s))
        = flat_map (survivor delta) (realSoldiers (MainScene.activeSoldiers s))).
Proof.
  intros Hi Hactive Hreached Hnone.
  assert (MainScene.findTargetBuilding (fst (Soldier.update delta soldier))
            (MainScene.buildings s) = None) as Hfind.
  { apply list_find_None. eapply Forall_impl; [exact Hnone|].
    intros b Hb. rewrite Hb. by intros []. }
  assert (MainScene.soldierStep delta (s, still, changed) i
          = (MainScene.set_activeSoldiers
               (<[i := MainScene.Real (Soldier.destroy (fst (Soldier.update delta soldier)))]>
                  (MainScene.activeSoldiers s)) s,
             still, true)) as Hstep.
  { unfold MainScene.soldierStep. rewrite Hi, Hactive, Hreached. cbn [negb].
    unfold MainScene.handleArrival.
    cbn [MainScene.buildings MainScene.set_activeSoldiers]. rewrite Hfind.
    unfold MainScene.set_activeSoldiers. cbn. by rewrite list_insert_insert_eq. }
  split; [done|]. split; [by rewrite Hstep|]. split.
  - unfold survivor. by rewrite Hactive, Hreached.
  - intros time clock rnd Hgo. by apply frame_live_soldiers.
Qed.

End EmptyGround.

(** ** What the events write to the buildings *)

Section Writes.

Implicit Types (s : MainScene.t) (b : Building.t).

(** A relation between a building before and after, kept by the writes
    that the code makes to a building. *)
Variable R : Building.t -> Building.t -> Prop.

Hypothesis R_refl : forall b, R b b.
Hypothesis R_trans : forall b1 b2 b3, R b1 b2 -> R b2 b3 -> R b1 b3.

Lemma written_refl s : written R s s.
Proof. unfold written. by apply Forall_Forall2_diag, Forall_forall. Qed.

Lemma written_trans s1 s2 s3 : written R s1 s2 -> written R s2 s3 -> written R s1 s3.
Proof.
  unfold written. intros H12 H23.
  eapply Forall2_trans; [|done..]. intros ???; apply R_trans.
Qed.

Lemma written_same s s' :
  MainScene.buildings s' = MainScene.buildings s -> written R s s'.
Proof. unfold written. intros ->. apply written_refl. Qed.

Lemma written_alter i f s s' :
  MainScene.buildings s' = alter f i (MainScene.buildings s) ->
  (forall b, R b (f b)) -> written R s s'.
Proof.
  unfold written. intros -> Hf.
  apply Forall2_alter_r; [by apply Forall_Forall2_diag, Forall_forall|].
  intros b b' Hb Hb' _. rewrite Hb in Hb'. injection Hb' as <-. apply Hf.
Qed.

Lemma written_insert i b b' s s' :
  MainScene.buildings s !! i = Some b ->
  MainScene.buildings s' = <[i := b']> (MainScene.buildings s) ->
  R b b' -> written R s s'.
Proof.
  unfold written. intros Hi -> Hb.
  rewrite <- (list_insert_id (MainScene.buildings s) i b Hi) at 1.
  apply Forall2_insert; [by apply Forall_Forall2_diag, Forall_forall|done].
Qed.

Lemma written_foldl {A} (f : MainScene.t -> A -> MainScene.t) (l : list A) s :
  (forall s' a, written R s' (f s' a)) -> written R s (foldl f s l).
Proof.
  intros Hf. apply (foldl_invariant (written R s)); [apply written_refl|].
  intros s' a Hs'. eapply written_trans; [done|apply Hf].
Qed.

(** *** Frames, spawns and the AI *)

Hypothesis R_soldiers : forall b n, R b (Building.set_soldiers n b).
Hypothesis R_owner : forall b o, R b (Building.setOwnership o b).
Hypothesis R_update : forall b now, R b (fst (Building.update now b)).
Hypothesis R_startUpgrade : forall b, R b (fst (Building.startUpgrade b)).

Lemma written_arrive p b : R b (MainScene.arrive p b).
Proof.
  unfold MainScene.arrive. repeat case_match; eauto.
Qed.

Lemma written_resolveArrival soldier j s :
  written R s (MainScene.resolveArrival soldier j s).
Proof.
  destruct (MainScene.buildings s !! j) as [b|] eqn:Hj.
  - eapply written_insert; [done|by apply resolveArrival_buildings|].
    apply written_arrive.
  - unfold MainScene.resolveArrival. rewrite Hj. apply written_refl.
Qed.

Lemma written_handleArrival i soldier s :
  written R s (MainScene.handleArrival i soldier s).
Proof.
  unfold MainScene.handleArrival.
  destruct (MainScene.findTargetBuilding soldier (MainScene.buildings s)) as [[j ?]|].
  - eapply written_trans; [apply (written_resolveArrival soldier j)|].
    by apply written_same.
  - by apply written_same.
Qed.

Lemma written_soldierStep delta (st : MainScene.LoopState) i :
  written R st.1.1 (MainScene.soldierStep delta st i).1.1.
Proof.
  destruct st as [[s still] changed]. unfold MainScene.soldierStep. cbn [fst].
  repeat case_match; cbn [fst]; try apply written_refl.
  - eapply written_trans; [|apply written_handleArrival]. by apply written_same.
  - by apply written_same.
Qed.

Lemma written_buildingUpdate now i s :
  written R s (MainScene.buildingUpdate now i s).
Proof.
  unfold MainScene.buildingUpdate.
  destruct (MainScene.buildings s !! i) as [b|] eqn:Hi; [|apply written_refl].
  eapply (written_insert i b (fst (Building.update now b))); [done| |done].
  by destruct (snd (Building.update now b)).
Qed.

Lemma written_startUpgrade i s :
  written R s (MainScene.startUpgrade i s).
Proof.
  unfold MainScene.startUpgrade.
  destruct (MainScene.buildings s !! i) as [b|] eqn:Hi; [|apply written_refl].
  eapply (written_insert i b (fst (Building.startUpgrade b))); [done| |done].
  by destruct (snd (Building.startUpgrade b)).
Qed.

Lemma written_sendSoldiers src tgt count s :
  written R s (MainScene.sendSoldiers src tgt count s).
Proof.
  destruct (sendSoldiers_buildings src tgt count s) as [Heq|(sb & Hsrc & Hn & Heq)].
  - by apply written_same.
  - eapply written_insert; [done..|]. apply R_soldiers.
Qed.

Lemma written_spawn k rnd s : written R s (MainScene.spawn k rnd s).
Proof. apply written_same, buildings_spawn. Qed.

Lemma written_decideForBuilding i rnd s :
  written R s (MainScene.decideForBuilding i rnd s).
Proof.
  unfold MainScene.decideForBuilding, MainScene.expandToNeutral, MainScene.attackTarget.
  repeat case_match;
    auto using written_refl, written_sendSoldiers, written_startUpgrade.
Qed.

Lemma written_aiUpdate time rnd s : written R s (MainScene.aiUpdate time rnd s).
Proof.
  unfold MainScene.aiUpdate, MainScene.makeDecisions.
  case_match; [apply written_refl|].
  eapply written_trans; [|apply written_foldl; intros; apply written_decideForBuilding].
  by apply written_same.
Qed.

Lemma written_update time delta clock rnd s :
  written R s (MainScene.update time delta clock rnd s).
Proof.
  unfold MainScene.update. destruct (MainScene.gameOver s); [apply written_refl|].
  set (s1 := foldl _ s _).
  assert (written R s s1) as Hs1.
  { apply written_foldl. intros; apply written_buildingUpdate. }
  pose proof (foldl_invariant (fun st : MainScene.LoopState => written R s1 st.1.1)
                (MainScene.soldierStep delta)
                (seq 0 (length (MainScene.activeSoldiers s1))) (s1, [], false)
                (written_refl s1)) as Hloop.
  destruct (foldl (MainScene.soldierStep delta) _ _) as [[s2 still] changed].
  eapply written_trans; [|apply written_aiUpdate].
  eapply written_trans; [apply Hs1|].
  eapply written_trans; [apply Hloop|].
  - intros st i Hst. eapply written_trans; [apply Hst|apply written_soldierStep].
  - apply written_same. rewrite buildings_checkGameOver. by destruct changed.
Qed.

(** *** Pointer presses *)

Hypothesis R_selected : forall b v, R b (Building.setSelected v b).
Hypothesis R_click : forall b t, R b (Building.set_lastClickTime t b).

Lemma written_setSelected i v s :
  written R s (MainScene.modifyBuilding i (Building.setSelected v) s).
Proof. eapply written_alter; [apply buildings_modifyBuilding|]. intros; apply R_selected. Qed.

Lemma written_selectBuilding i s : written R s (MainScene.selectBuilding i s).
Proof.
  unfold MainScene.selectBuilding.
  destruct (MainScene.buildings s !! i) as [b|]; [|apply written_refl].
  destruct (negb (Building.isPlayerOwned b)); [apply written_refl|].
  set (s1 := match MainScene.selectedBuilding s with Some _ => _ | None => _ end).
  assert (written R s s1) as Hs1.
  { subst s1. destruct (MainScene.selectedBuilding s);
      [apply written_setSelected|apply written_refl]. }
  eapply written_trans; [apply Hs1|].
  case_bool_decide; [by apply written_same|].
  eapply written_trans; [apply written_setSelected|]. by apply written_same.
Qed.

Lemma written_handleRightClick tgt s : written R s (MainScene.handleRightClick tgt s).
Proof.
  unfold MainScene.handleRightClick.
  repeat case_match; try apply written_refl.
  eapply written_trans; [apply written_sendSoldiers|].
  eapply written_trans; [apply written_setSelected|]. by apply written_same.
Qed.

Lemma written_pointerdown i right currentTime s :
  written R s (MainScene.pointerdown i right currentTime s).
Proof.
  unfold MainScene.pointerdown.
  repeat case_match; try apply written_refl.
  - apply written_handleRightClick.
  - eapply written_trans; [apply written_startUpgrade|].
    eapply written_alter; [apply buildings_modifyBuilding|]. intros; apply R_click.
  - eapply written_trans; [apply written_selectBuilding|].
    eapply written_alter; [apply buildings_modifyBuilding|]. intros; apply R_click.
Qed.

Lemma written_step s e : written R s (MainScene.step s e).
Proof.
  destruct e; cbn [MainScene.step].
  - apply written_update.
  - apply written_spawn.
  - apply written_pointerdown.
Qed.

Lemma written_run s es : written R s (MainScene.run s es).
Proof. unfold MainScene.run. apply written_foldl, written_step. Qed.

End Writes.

(** ** What frames, spawns and the AI leave alone *)

Section Untouched.

Implicit Types (s : MainScene.t).

(** An observation of the scene that no write to the buildings, the
    counts, the soldiers, the placeholders, the closures, the clock or the
    AI controller changes. *)
Context {A : Type} (obs : MainScene.t -> A).

Hypothesis obs_buildings : forall v s, obs (MainScene.set_buildings v s) = obs s.
Hypothesis obs_counts : forall p e s, obs (MainScene.set_soldierCounts p e s) = obs s.
Hypothesis obs_soldiers : forall v s, obs (MainScene.set_activeSoldiers v s) = obs s.
Hypothesis obs_placeholders : forall v s, obs (MainScene.set_placeholders v s) = obs s.
Hypothesis obs_closures : forall v s, obs (MainScene.set_closures v s) = obs s.
Hypothesis obs_clock : forall v s, obs (MainScene.set_delayedCalls v s) = obs s.
Hypothesis obs_ai : forall v s, obs (MainScene.set_aiController v s) = obs s.

Lemma obs_calculateSoldierCounts s : obs (MainScene.calculateSoldierCounts s) = obs s.
Proof. apply obs_counts. Qed.

Lemma obs_modifyBuilding i f s : obs (MainScene.modifyBuilding i f s) = obs s.
Proof. apply obs_buildings. Qed.

Lemma obs_buildingUpdate now i s : obs (MainScene.buildingUpdate now i s) = obs s.
Proof.
  unfold MainScene.buildingUpdate. repeat case_match; try done;
    by rewrite ?obs_calculateSoldierCounts, ?obs_buildings.
Qed.

Lemma obs_startUpgrade i s : obs (MainScene.startUpgrade i s) = obs s.
Proof.
  unfold MainScene.startUpgrade. repeat case_match; try done;
    by rewrite ?obs_calculateSoldierCounts, ?obs_buildings.
Qed.

Lemma obs_sendSoldiers src tgt count s :
  obs (MainScene.sendSoldiers src tgt count s) = obs s.
Proof.
  unfold MainScene.sendSoldiers. repeat case_match; try done.
  by rewrite obs_clock, obs_closures, obs_calculateSoldierCounts, obs_soldiers,
    obs_placeholders, obs_modifyBuilding.
Qed.

Lemma obs_spawn k rnd s : obs (MainScene.spawn k rnd s) = obs s.
Proof.
  unfold MainScene.spawn. repeat case_match; try done;
    by rewrite ?obs_calculateSoldierCounts, ?obs_closures, ?obs_placeholders,
      ?obs_soldiers, ?obs_clock.
Qed.

Lemma obs_resolveArrival soldier j s : obs (MainScene.resolveArrival soldier j s) = obs s.
Proof.
  unfold MainScene.resolveArrival, MainScene.setOwnership. repeat case_match; try done;
    by rewrite ?obs_modifyBuilding, ?obs_calculateSoldierCounts, ?obs_modifyBuilding.
Qed.

Lemma obs_handleArrival i soldier s : obs (MainScene.handleArrival i soldier s) = obs s.
Proof.
  unfold MainScene.handleArrival. rewrite obs_soldiers.
  repeat case_match; try done. apply obs_resolveArrival.
Qed.

Lemma obs_soldierStep delta (st : MainScene.LoopState) i :
  obs (MainScene.soldierStep delta st i).1.1 = obs st.1.1.
Proof.
  destruct st as [[s still] changed]. unfold MainScene.soldierStep.
  repeat case_match; try done; cbn [fst].
  - by rewrite obs_handleArrival, obs_soldiers.
  - by rewrite obs_soldiers.
Qed.

Lemma obs_decideForBuilding i rnd s : obs (MainScene.decideForBuilding i rnd s) = obs s.
Proof.
  unfold MainScene.decideForBuilding, MainScene.expandToNeutral, MainScene.attackTarget.
  repeat case_match; auto using obs_sendSoldiers, obs_startUpgrade.
Qed.

Lemma obs_aiUpdate time rnd s : obs (MainScene.aiUpdate time rnd s) = obs s.
Proof.
  unfold MainScene.aiUpdate, MainScene.makeDecisions. case_match; [done|].
  rewrite <- (obs_ai (AIController.set_lastDecisionTime time (MainScene.aiController s)) s).
  apply (foldl_invariant (fun s' => obs s' = obs _)); [done|].
  intros s' x <-. apply obs_decideForBuilding.
Qed.

(** Up to the terminal check. *)
Hypothesis obs_gameOver : forall v s, obs (MainScene.set_gameOver v s) = obs s.
Hypothesis obs_modal : forall v s, obs (MainScene.showGameOverModal v s) = obs s.

Lemma obs_checkGameOver s : obs (MainScene.checkGameOver s) = obs s.
Proof.
  unfold MainScene.checkGameOver. repeat case_match; try done;
    by rewrite obs_modal, obs_gameOver.
Qed.

Lemma obs_update time delta clock rnd s :
  obs (MainScene.update time delta clock rnd s) = obs s.
Proof.
  unfold MainScene.update. destruct (MainScene.gameOver s); [done|].
  set (s1 := foldl _ s _).
  assert (obs s1 = obs s) as Hs1.
  { apply (foldl_invariant (fun s' => obs s' = obs s)); [done|].
    intros s' x <-. apply obs_buildingUpdate. }
  pose proof (foldl_invariant
                (fun st : MainScene.LoopState => obs st.1.1 = obs s)
                (MainScene.soldierStep delta)
                (seq 0 (length (MainScene.activeSoldiers s1))) (s1, [], false) Hs1) as Hloop.
  destruct (foldl (MainScene.soldierStep delta) _ _) as [[s2 still] changed].
  cbn [fst] in Hloop.
  rewrite obs_aiUpdate, obs_checkGameOver. rewrite <- Hloop.
  - destruct changed; by rewrite ?obs_calculateSoldierCounts, obs_soldiers.
  - intros st x <-. apply obs_soldierStep.
Qed.

End Untouched.

(** ** Invariants of the buildings *)

Section BuildingInvariants.

Implicit Types (s : MainScene.t) (b : Building.t).

Lemma site_update now b : site (fst (Building.update now b)) = site b.
Proof.
  unfold Building.update, Building.updateUpgrade. by repeat case_match.
Qed.

Lemma site_startUpgrade b : site (fst (Building.startUpgrade b)) = site b.
Proof. unfold Building.startUpgrade. by repeat case_match. Qed.

Lemma level_updateUpgrade elapsedMs b :
  Building.level b <= Building.level (Building.updateUpgrade elapsedMs b)
  <= Building.level b + 1.
Proof. unfold Building.updateUpgrade. repeat case_match; cbn; lia. Qed.

Lemma level_update now b :
  Building.level b <= Building.level (fst (Building.update now b)) <= Building.level b + 1.
Proof.
  pose proof (level_updateUpgrade (now - Building.lastUpdate b) b).
  unfold Building.update. by repeat case_match.
Qed.

Lemma level_startUpgrade b :
  Building.level (fst (Building.startUpgrade b)) = Building.level b.
Proof. unfold Building.startUpgrade. by repeat case_match. Qed.

Lemma owner_updateUpgrade elapsedMs b :
  Building.ownership (Building.updateUpgrade elapsedMs b) = Building.ownership b
  /\ Building.isPlayerOwned (Building.updateUpgrade elapsedMs b) = Building.isPlayerOwned b.
Proof. unfold Building.updateUpgrade. by repeat case_match. Qed.

Lemma owner_update now b :
  Building.ownership (fst (Building.update now b)) = Building.ownership b
  /\ Building.isPlayerOwned (fst (Building.update now b)) = Building.isPlayerOwned b.
Proof.
  pose proof (owner_updateUpgrade (now - Building.lastUpdate b) b).
  unfold Building.update. by repeat case_match.
Qed.

Lemma owner_startUpgrade b :
  Building.ownership (fst (Building.startUpgrade b)) = Building.ownership b
  /\ Building.isPlayerOwned (fst (Building.startUpgrade b)) = Building.isPlayerOwned b.
Proof. unfold Building.startUpgrade. by repeat case_match. Qed.

Lemma create_buildings now pos :
  MainScene.buildings (MainScene.create now pos)
  = map (fun i => Building.constructor now (fst (pos i)) (snd (pos i)) player) (seq 0 4)
    ++ map (fun i => Building.constructor now (fst (pos i)) (snd (pos i)) enemy) (seq 4 4)
    ++ map (fun i => Building.constructor now (fst (pos i)) (snd (pos i)) neutral) (seq 8 6).
Proof. reflexivity. Qed.

(** X1.  No event of a match moves, adds or removes a building: after any
    sequence of frames, delayed spawns and pointer presses the scene has the
    same number of buildings, each at its position, with its [active] flag
    and its upgrade duration; a match that [create] started has its fourteen
    buildings where they were placed, active, with an upgrade duration of
    3000 ms. *)
Theorem buildings_stay_in_place (s : MainScene.t) (es : list MainScene.Event) :
  map site (MainScene.buildings (MainScene.run s es)) = map site (MainScene.buildings s)
  /\ length (MainScene.buildings (MainScene.run s es)) = length (MainScene.buildings s)
  /\ (forall now pos,
        length (MainScene.buildings (MainScene.run (MainScene.create now pos) es)) = 14%nat
        /\ forall i b,
             MainScene.buildings (MainScene.run (MainScene.create now pos) es) !! i = Some b ->
             site b = (fst (pos i), snd (pos i), true, 3000)).
Proof.
  assert (forall s0, map site (MainScene.buildings (MainScene.run s0 es))
                     = map site (MainScene.buildings s0)) as Hrun.
  { intros s0. symmetry. apply list_eq_Forall2, Forall2_fmap.
    apply (written_run (fun b b' => site b = site b')); try done.
    - intros b1 b2 b3. congruence.
    - intros b now. by rewrite site_update.
    - intros b. by rewrite site_startUpgrade. }
  assert (forall s0, length (MainScene.buildings (MainScene.run s0 es))
                     = length (MainScene.buildings s0)) as Hlen.
  { intros s0. rewrite <- (length_fmap site), Hrun. apply length_fmap. }
  split; [apply Hrun|]. split; [apply Hlen|].
  intros now pos. split; [by rewrite Hlen|].
  intros i b Hi.
  assert (map site (MainScene.buildings (MainScene.run (MainScene.create now pos) es)) !! i
          = Some (site b)) as Hsite by (by rewrite list_lookup_fmap, Hi).
  rewrite Hrun, create_buildings in Hsite.
  assert (i < 14)%nat as Hlt.
  { apply lookup_lt_Some in Hsite. by rewrite length_fmap in Hsite. }
  do 14 (destruct i as [|i]; [simpl in Hsite; apply (inj Some) in Hsite; symmetry; exact Hsite|]). lia.
Qed.

(** X2.  The two representations of a building's owner, [ownership] and
    [isPlayerOwned], agree on every building after any sequence of events,
    from a scene where they agree, and so from a new match. *)
Theorem owner_flags_agree (s : MainScene.t) (es : list MainScene.Event) :
  (Forall ownerFlagsAgree (MainScene.buildings s) ->
   Forall ownerFlagsAgree (MainScene.buildings (MainScene.run s es)))
  /\ (forall now pos,
        Forall ownerFlagsAgree (MainScene.buildings (MainScene.run (MainScene.create now pos) es))).
Proof.
  assert (forall s0, Forall ownerFlagsAgree (MainScene.buildings s0) ->
                     Forall ownerFlagsAgree (MainScene.buildings (MainScene.run s0 es))) as Hrun.
  { intros s0 Hs0.
    assert (written (fun b b' => ownerFlagsAgree b -> ownerFlagsAgree b') s0
              (MainScene.run s0 es)) as Hw.
    { apply written_run; unfold ownerFlagsAgree; try done; auto.
      - intros b now. by destruct (owner_update now b) as [-> ->].
      - intros b. by destruct (owner_startUpgrade b) as [-> ->]. }
    unfold written in Hw. revert Hs0.
    induction Hw; intros Hs0; [constructor|].
    inversion Hs0; subst. constructor; auto. }
  split; [apply Hrun|].
  intros now pos. apply Hrun. rewrite create_buildings.
  cbn. repeat (constructor; [done|]). constructor.
Qed.

End BuildingInvariants.

(** ** Levels *)

Section Levels.

(** X3.  No event lowers the level of a building, and in a match that
    [create] started every level is at least 1. *)
Theorem levels_never_decrease (s : MainScene.t) (es : list MainScene.Event) :
  written (fun b b' => Building.level b <= Building.level b') s (MainScene.run s es)
  /\ (forall now pos,
        Forall (fun b => 1 <= Building.level b)
               (MainScene.buildings (MainScene.run (MainScene.create now pos) es))).
Proof.
  assert (forall s0, written (fun b b' => Building.level b <= Building.level b') s0
                       (MainScene.run s0 es)) as Hrun.
  { intros s0. apply written_run; try done; cbn; try lia.
    - intros b now. apply level_update.
    - intros b. by rewrite level_startUpgrade. }
  split; [apply Hrun|].
  intros now pos. specialize (Hrun (MainScene.create now pos)).
  unfold written in Hrun. rewrite create_buildings in Hrun.
  apply Forall_lookup. intros i b' Hb'.
  destruct (Forall2_lookup_r _ _ _ _ _ Hrun Hb') as (b & Hb & Hle).
  assert (Building.level b = 1) as Hone.
  { apply lookup_lt_Some in Hb as Hlt. cbn in Hlt.
    do 14 (destruct i as [|i]; [cbn in Hb; by injection Hb as <-|]). lia. }
  lia.
Qed.

End Levels.

(** ** The selection *)

Section Selection.

Implicit Types (s : MainScene.t) (b : Building.t).

Lemma selectionConsistent_same s s' :
  MainScene.selectedBuilding s' = MainScene.selectedBuilding s ->
  written (fun b b' => Building.isSelected b' = Building.isSelected b) s s' ->
  selectionConsistent s -> selectionConsistent s'.
Proof.
  unfold selectionConsistent, written. intros Hsel Hw Hs i b' Hb'.
  destruct (Forall2_lookup_r _ _ _ _ _ Hw Hb') as (b & Hb & Heq).
  rewrite Heq, Hsel. by apply Hs.
Qed.

Lemma isSelected_update now b :
  Building.isSelected (fst (Building.update now b)) = Building.isSelected b.
Proof. unfold Building.update, Building.updateUpgrade. by repeat case_match. Qed.

Lemma isSelected_startUpgrade b :
  Building.isSelected (fst (Building.startUpgrade b)) = Building.isSelected b.
Proof. unfold Building.startUpgrade. by repeat case_match. Qed.

Lemma selectionConsistent_update time delta clock rnd s :
  selectionConsistent s -> selectionConsistent (MainScene.update time delta clock rnd s).
Proof.
  apply selectionConsistent_same.
  - by apply (obs_update MainScene.selectedBuilding).
  - apply written_update; try done; try congruence.
    + intros b now. apply isSelected_update.
    + intros b. apply isSelected_startUpgrade.
Qed.

Lemma selectionConsistent_spawn k rnd s :
  selectionConsistent s -> selectionConsistent (MainScene.spawn k rnd s).
Proof.
  apply selectionConsistent_same.
  - by apply (obs_spawn MainScene.selectedBuilding).
  - apply written_spawn. done.
Qed.

Lemma selectionConsistent_sendSoldiers src tgt count s :
  selectionConsistent s -> selectionConsistent (MainScene.sendSoldiers src tgt count s).
Proof.
  apply selectionConsistent_same.
  - by apply (obs_sendSoldiers MainScene.selectedBuilding).
  - apply written_sendSoldiers; done.
Qed.

Lemma selectionConsistent_startUpgrade i s :
  selectionConsistent s -> selectionConsistent (MainScene.startUpgrade i s).
Proof.
  apply selectionConsistent_same.
  - by apply (obs_startUpgrade MainScene.selectedBuilding).
  - apply written_startUpgrade; try done. intros b. apply isSelected_startUpgrade.
Qed.

Lemma selectionConsistent_click i t s :
  selectionConsistent s ->
  selectionConsistent (MainScene.modifyBuilding i (Building.set_lastClickTime t) s).
Proof.
  apply selectionConsistent_same; [done|].
  eapply written_alter; [done|apply buildings_modifyBuilding|done].
Qed.

(** Dropping the selection: the ring of the selected building goes. *)
Lemma selectionConsistent_deselect s :
  selectionConsistent s ->
  selectionConsistent
    (MainScene.set_selectedBuilding None
       (match MainScene.selectedBuilding s with
        | Some j => MainScene.modifyBuilding j (Building.setSelected false) s
        | None => s
        end)).
Proof.
  unfold selectionConsistent. intros Hs i b' Hb'.
  cbn [MainScene.selectedBuilding MainScene.set_selectedBuilding].
  split; [|done]. intros Hsel. exfalso.
  destruct (MainScene.selectedBuilding s) as [j|] eqn:Hj.
  - cbn [MainScene.buildings MainScene.set_selectedBuilding] in Hb'.
    rewrite buildings_modifyBuilding in Hb'.
    destruct (decide (j = i)) as [->|Hne].
    + rewrite list_lookup_alter_eq in Hb'.
      destruct (MainScene.buildings s !! i); [|done].
      injection Hb' as <-. done.
    + rewrite list_lookup_alter_ne in Hb' by done.
      apply Hs in Hb'. apply Hb' in Hsel. congruence.
  - cbn [MainScene.buildings MainScene.set_selectedBuilding] in Hb'.
    apply Hs in Hb'. apply Hb' in Hsel. congruence.
Qed.

Lemma selectionConsistent_select i s :
  selectionConsistent s ->
  MainScene.selectedBuilding s = None ->
  selectionConsistent
    (MainScene.set_selectedBuilding (Some i)
       (MainScene.modifyBuilding i (Building.setSelected true) s)).
Proof.
  unfold selectionConsistent. intros Hs Hnone k b' Hb'.
  cbn [MainScene.selectedBuilding MainScene.set_selectedBuilding].
  cbn [MainScene.buildings MainScene.set_selectedBuilding] in Hb'.
  rewrite buildings_modifyBuilding in Hb'.
  destruct (decide (i = k)) as [->|Hne].
  - rewrite list_lookup_alter_eq in Hb'.
    destruct (MainScene.buildings s !! k); [|done].
    injection Hb' as <-. done.
  - rewrite list_lookup_alter_ne in Hb' by done.
    apply Hs in Hb'. rewrite Hnone in Hb'.
    split; [intros Hsel; apply Hb' in Hsel; done|congruence].
Qed.

Lemma selectionConsistent_selectBuilding i s :
  selectionConsistent s -> selectionConsistent (MainScene.selectBuilding i s).
Proof.
  intros Hs. unfold MainScene.selectBuilding.
  destruct (MainScene.buildings s !! i) as [b|]; [|done].
  destruct (negb (Building.isPlayerOwned b)); [done|].
  pose proof (selectionConsistent_deselect s Hs) as Hd.
  case_bool_decide; [done|].
  by apply (selectionConsistent_select i) in Hd.
Qed.

Lemma selectionConsistent_handleRightClick tgt s :
  selectionConsistent s -> selectionConsistent (MainScene.handleRightClick tgt s).
Proof.
  intros Hs. unfold MainScene.handleRightClick.
  destruct (MainScene.selectedBuilding s) as [src|] eqn:Hsrc; [|done].
  case_bool_decide; [done|].
  destruct (MainScene.buildings s !! src) as [sb|]; [|done].
  destruct (Building.soldiers sb <=? 0); [done|].
  pose proof (selectionConsistent_sendSoldiers src tgt (Building.soldiers sb) s Hs) as Hsend.
  apply selectionConsistent_deselect in Hsend.
  by rewrite (obs_sendSoldiers MainScene.selectedBuilding), Hsrc in Hsend.
Qed.

Lemma selectionConsistent_pointerdown i right currentTime s :
  selectionConsistent s -> selectionConsistent (MainScene.pointerdown i right currentTime s).
Proof.
  intros Hs. unfold MainScene.pointerdown.
  destruct right; [by apply selectionConsistent_handleRightClick|].
  destruct (MainScene.buildings s !! i) as [b|]; [|done].
  destruct (Building.isPlayerOwned b); [|done].
  apply selectionConsistent_click.
  destruct (currentTime - Building.lastClickTime b <? 300).
  - by apply selectionConsistent_startUpgrade.
  - by apply selectionConsistent_selectBuilding.
Qed.

Lemma selectionConsistent_step s e :
  selectionConsistent s -> selectionConsistent (MainScene.step s e).
Proof.
  destruct e; cbn [MainScene.step].
  - apply selectionConsistent_update.
  - apply selectionConsistent_spawn.
  - apply selectionConsistent_pointerdown.
Qed.

Lemma create_selectionConsistent now pos : selectionConsistent (MainScene.create now pos).
Proof.
  intros i b Hb. rewrite create_buildings in Hb.
  split; [|done]. intros Hsel. exfalso.
  apply lookup_lt_Some in Hb as Hlt. cbn in Hlt.
  do 14 (destruct i as [|i]; [cbn in Hb; injection Hb as <-; done|]). lia.
Qed.

(** X4.  The selection stays consistent through any sequence of events: a
    building shows the selection ring exactly when [selectedBuilding] refers
    to it, so at most one building is selected. *)
Theorem selection_is_consistent (s : MainScene.t) (es : list MainScene.Event) :
  (selectionConsistent s -> selectionConsistent (MainScene.run s es))
  /\ (forall now pos, selectionConsistent (MainScene.run (MainScene.create now pos) es))
  /\ (selectionConsistent s ->
      forall i j bi bj,
        MainScene.buildings (MainScene.run s es) !! i = Some bi ->
        MainScene.buildings (MainScene.run s es) !! j = Some bj ->
        Building.isSelected bi = true -> Building.isSelected bj = true -> i = j).
Proof.
  assert (forall s0, selectionConsistent s0 -> selectionConsistent (MainScene.run s0 es))
    as Hrun.
  { intros s0 Hs0. unfold MainScene.run. apply foldl_invariant; [done|].
    intros; by apply selectionConsistent_step. }
  split; [apply Hrun|]. split.
  - intros now pos. apply Hrun, create_selectionConsistent.
  - intros Hs i j bi bj Hi Hj Hsi Hsj.
    apply (Hrun s Hs) in Hi, Hj. apply Hi in Hsi. apply Hj in Hsj. congruence.
Qed.

Lemma setSelected_id b v : Building.isSelected b = v -> Building.setSelected v b = b.
Proof. destruct b; cbn. by intros ->. Qed.

Lemma selectBuilding_select s i b :
  MainScene.buildings s !! i = Some b ->
  Building.isPlayerOwned b = true ->
  MainScene.selectedBuilding s = None ->
  MainScene.selectBuilding i s
  = MainScene.set_selectedBuilding (Some i)
      (MainScene.set_buildings (<[i := Building.setSelected true b]> (MainScene.buildings s)) s).
Proof.
  intros Hi Hown Hsel. unfold MainScene.selectBuilding, MainScene.modifyBuilding.
  rewrite Hi, Hown, Hsel. cbn [negb]. rewrite bool_decide_false by done.
  by rewrite (alter_as_insert _ _ _ _ Hi).
Qed.

Lemma selectBuilding_deselect s i b :
  MainScene.buildings s !! i = Some b ->
  Building.isPlayerOwned b = true ->
  MainScene.selectedBuilding s = Some i ->
  MainScene.selectBuilding i s
  = MainScene.set_selectedBuilding None
      (MainScene.set_buildings (<[i := Building.setSelected false b]> (MainScene.buildings s)) s).
Proof.
  intros Hi Hown Hsel. unfold MainScene.selectBuilding, MainScene.modifyBuilding.
  rewrite Hi, Hown, Hsel. cbn [negb]. rewrite bool_decide_true by done.
  by rewrite (alter_as_insert _ _ _ _ Hi).
Qed.

(** X5.  [selectBuilding] twice on the same player building brings the
    scene back, when no other building is selected: a press selects and the
    next deselects, or the other way round. *)
Theorem selectBuilding_twice (s : MainScene.t) (i : nat) (b : Building.t) :
  MainScene.buildings s !! i = Some b ->
  Building.isPlayerOwned b = true ->
  (MainScene.selectedBuilding s = None /\ Building.isSelected b = false
   \/ MainScene.selectedBuilding s = Some i /\ Building.isSelected b = true) ->
  MainScene.selectBuilding i (MainScene.selectBuilding i s) = s.
Proof.
  intros Hi Hown Hsel.
  assert (forall b', <[i := b']> (MainScene.buildings s) !! i = Some b') as Hlook.
  { intros b'. apply list_lookup_insert_eq. by eapply lookup_lt_Some. }
  destruct Hsel as [[Hsel Hb]|[Hsel Hb]].
  - rewrite (selectBuilding_select s i b Hi Hown Hsel).
    erewrite selectBuilding_deselect; [|apply Hlook|done..].
    cbn [MainScene.buildings MainScene.set_selectedBuilding MainScene.set_buildings].
    rewrite list_insert_insert_eq.
    change (Building.setSelected false (Building.setSelected true b))
      with (Building.setSelected false b).
    rewrite (setSelected_id b false Hb), (list_insert_id _ _ _ Hi).
    destruct s; cbn in *; by subst.
  - rewrite (selectBuilding_deselect s i b Hi Hown Hsel).
    erewrite selectBuilding_select; [|apply Hlook|done..].
    cbn [MainScene.buildings MainScene.set_selectedBuilding MainScene.set_buildings].
    rewrite list_insert_insert_eq.
    change (Building.setSelected true (Building.setSelected false b))
      with (Building.setSelected true b).
    rewrite (setSelected_id b true Hb), (list_insert_id _ _ _ Hi).
    destruct s; cbn in *; by subst.
Qed.

End Selection.

(** ** Ticks of a building *)

Section Ticks.

Implicit Types (b : Building.t).

(** X6.  One [update] of a building never takes a soldier and adds at most
    one, exactly when it reports a generation; it adds none to a neutral
    building nor to a building whose upgrade is still running, whose timer
    it restarts; it raises the level by at most one, and only by finishing
    an upgrade; on a building that is not upgrading it leaves the level and
    the progress alone. *)
Theorem tick_generates_at_most_one (now : Z) (b : Building.t) :
  let b' := fst (Building.update now b) in
  (Building.soldiers b' = Building.soldiers b
   \/ Building.soldiers b' = Building.soldiers b + 1)
  /\ (snd (Building.update now b) = true <-> Building.soldiers b' = Building.soldiers b + 1)
  /\ (Building.ownership b = neutral ->
      Building.soldiers b' = Building.soldiers b /\ Building.lastUpdate b' = now)
  /\ (Building.isUpgrading b' = true ->
      Building.isUpgrading b = true
      /\ Building.soldiers b' = Building.soldiers b /\ Building.lastUpdate b' = now)
  /\ (Building.level b' = Building.level b
      \/ Building.level b' = Building.level b + 1
         /\ Building.isUpgrading b = true /\ Building.isUpgrading b' = false)
  /\ (Building.isUpgrading b = false ->
      Building.level b' = Building.level b
      /\ Building.isUpgrading b' = false
      /\ Building.upgradeProgress b' = Building.upgradeProgress b).
Proof.
  cbv zeta. unfold Building.update, Building.updateUpgrade.
  destruct (Building.isUpgrading b) eqn:Hup; cbn [Building.upgradeTime
    Building.upgradeProgress Building.set_upgradeProgress Building.isUpgrading
    Building.set_isUpgrading Building.set_level Building.ownership];
    rewrite ?Hup;
    repeat match goal with
      | |- context [Z.leb ?a ?c] => destruct (Z.leb a c) eqn:?
      | |- context [Building.ownership b] => destruct (Building.ownership b) eqn:?
      | |- context [PrimFloat.leb ?a ?c] => destruct (PrimFloat.leb a c) eqn:?
      | _ => progress cbn [Building.upgradeTime Building.upgradeProgress
               Building.set_upgradeProgress Building.isUpgrading Building.set_isUpgrading
               Building.set_level Building.ownership Building.soldiers Building.level
               Building.set_soldiers Building.set_lastUpdate Building.lastUpdate
               fst snd negb andb bool_decide decide_rel]
      | _ => rewrite Hup
      | _ => rewrite bool_decide_true by done
      | _ => rewrite bool_decide_false by done
      end;
    repeat split; intros; try done; try lia; try congruence;
    try (left; lia); try (right; repeat split; (done || lia)).
Qed.

Lemma tick_upgrade_pending now b :
  Building.isUpgrading b = true ->
  Building.upgradeProgress b + (now - Building.lastUpdate b) < Building.upgradeTime b ->
  fst (Building.update now b)
  = Building.set_lastUpdate now
      (Building.set_upgradeProgress
         (Building.upgradeProgress b + (now - Building.lastUpdate b)) b).
Proof.
  intros Hup Hlt. unfold Building.update, Building.updateUpgrade. rewrite Hup.
  cbn [Building.upgradeTime Building.upgradeProgress Building.set_upgradeProgress].
  destruct (Z.leb_spec (Building.upgradeTime b)
              (Building.upgradeProgress b + (now - Building.lastUpdate b))); [lia|].
  cbn [Building.isUpgrading Building.set_upgradeProgress]. rewrite Hup.
  by rewrite andb_false_r.
Qed.

Lemma tick_upgrade_done now b :
  Building.isUpgrading b = true ->
  Building.upgradeTime b <= Building.upgradeProgress b + (now - Building.lastUpdate b) ->
  Building.level (fst (Building.update now b)) = Building.level b + 1
  /\ Building.isUpgrading (fst (Building.update now b)) = false.
Proof.
  intros Hup Hle. unfold Building.update, Building.updateUpgrade. rewrite Hup.
  cbn [Building.upgradeTime Building.upgradeProgress Building.set_upgradeProgress].
  destruct (Z.leb_spec (Building.upgradeTime b)
              (Building.upgradeProgress b + (now - Building.lastUpdate b))); [|lia].
  by repeat case_match.
Qed.

(** While an upgrade is pending, the progress runs with the clock. *)
Lemma ticks_upgrade_pending ts b :
  Building.isUpgrading b = true ->
  Forall (fun t => Building.upgradeProgress b + (t - Building.lastUpdate b)
                   < Building.upgradeTime b) ts ->
  Building.isUpgrading (ticks ts b) = true
  /\ Building.level (ticks ts b) = Building.level b
  /\ Building.soldiers (ticks ts b) = Building.soldiers b
  /\ Building.upgradeTime (ticks ts b) = Building.upgradeTime b
  /\ Building.upgradeProgress (ticks ts b) - Building.lastUpdate (ticks ts b)
     = Building.upgradeProgress b - Building.lastUpdate b.
Proof.
  revert b. induction ts as [|t ts IH]; intros b Hup Hts; [done|].
  inversion Hts as [|? ? Ht Hts']; subst.
  cbn [ticks foldl]. fold (ticks ts (fst (Building.update t b))).
  rewrite (tick_upgrade_pending t b Hup Ht).
  set (b1 := Building.set_lastUpdate t _).
  destruct (IH b1) as (H1 & H2 & H3 & H4 & H5); [done| |].
  - cbn. eapply Forall_impl; [exact Hts'|]. cbn. intros; lia.
  - rewrite H1, H2, H3, H4, H5. cbn. repeat split; lia.
Qed.

(** X7.  An upgrade started by [startUpgrade] runs on the generation clock:
    whatever ticks come while less than [upgradeTime] has passed since
    [lastUpdate] as it was at the start (the building's last generation),
    the building stays at its level, upgrading, with the cost taken and
    nothing generated; the first tick at which [upgradeTime] has passed
    since then raises the level by one and ends the upgrade. *)
Theorem upgrade_runs_on_the_generation_clock (b : Building.t) (ts : list Z) (now : Z) :
  Building.isUpgrading b = false ->
  5 * Building.level b <= Building.soldiers b ->
  Forall (fun t => t - Building.lastUpdate b < Building.upgradeTime b) ts ->
  Building.upgradeTime b <= now - Building.lastUpdate b ->
  let b1 := ticks ts (fst (Building.startUpgrade b)) in
  let b2 := fst (Building.update now b1) in
  (Building.isUpgrading b1 = true
   /\ Building.level b1 = Building.level b
   /\ Building.soldiers b1 = Building.soldiers b - 5 * Building.level b)
  /\ Building.level b2 = Building.level b + 1
  /\ Building.isUpgrading b2 = false.
Proof.
  intros Hup Hcost Hts Hnow. cbv zeta.
  assert (fst (Building.startUpgrade b)
          = Building.set_upgradeProgress 0
              (Building.set_isUpgrading true
                 (Building.set_soldiers (Building.soldiers b - 5 * Building.level b) b)))
    as ->.
  { unfold Building.startUpgrade. rewrite Hup.
    by destruct (Z.ltb_spec (Building.soldiers b) (5 * Building.level b)); [lia|]. }
  set (b0 := Building.set_upgradeProgress 0 _).
  destruct (ticks_upgrade_pending ts b0) as (H1 & H2 & H3 & H4 & H5); [done| |].
  - eapply Forall_impl; [exact Hts|]. cbn. intros; lia.
  - split; [by rewrite H1, H2, H3|].
    destruct (tick_upgrade_done now (ticks ts b0) H1) as [Hl Hu].
    + rewrite H4. cbn in H5 |- *. lia.
    + by rewrite Hl, H2, Hu.
Qed.

End Ticks.

(** ** Pointer presses *)

Section Pointer.

Implicit Types (s : MainScene.t) (b : Building.t).




End Pointer.

(** ** What a pass of the AI writes *)

Section AI.

Implicit Types (s : MainScene.t) (b : Building.t).

Lemma foldl_invariant_elem {A B} (P : A -> Prop) (f : A -> B -> A) (l : list B) (a : A) :
  P a -> (forall a' x, x ∈ l -> P a' -> P (f a' x)) -> P (foldl f a l).
Proof.
  revert a. induction l as [|x l IH]; intros a Ha Hf; [done|].
  cbn. apply IH.
  - apply Hf; [left|done].
  - intros a' y Hy. apply Hf. by right.
Qed.

Lemma buildingsOf_spec o (bs : list Building.t) i b :
  (i, b) ∈ AIController.buildingsOf o bs
  <-> bs !! i = Some b /\ Building.active b = true /\ Building.ownership b = o.
Proof.
  unfold AIController.buildingsOf.
  rewrite list_elem_of_In, filter_In, <- list_elem_of_In, elem_of_lookup_imap.
  cbn [snd]. rewrite andb_true_iff, bool_decide_eq_true. split.
  - intros [(j & y & [= -> ->] & Hj) [Ha Ho]]. done.
  - intros (Hi & Ha & Ho). split; [by exists i, b|done].
Qed.

Lemma aiWrites_refl b : aiWrites b b.
Proof. unfold aiWrites. repeat split; auto; lia. Qed.

Lemma aiWrites_trans b1 b2 b3 : aiWrites b1 b2 -> aiWrites b2 b3 -> aiWrites b1 b3.
Proof.
  unfold aiWrites.
  intros (Ho & Hp & Hl & Hs & Hn & He & Hu) (Ho' & Hp' & Hl' & Hs' & Hn' & He' & Hu').
  split; [congruence|]. split; [congruence|]. split; [congruence|].
  split; [congruence|]. split; [|split].
  - intros Hlev. specialize (Hn Hlev). rewrite <- Hl in Hlev. specialize (Hn' Hlev). lia.
  - intros Hne. rewrite (He' ltac:(congruence)). by apply He.
  - destruct Hu as [[Hu1 Hu2]|(Hu1 & Hu2 & Hu3 & Hu4)],
             Hu' as [[Hu1' Hu2']|(Hu1' & Hu2' & Hu3' & Hu4')].
    + left. split; congruence.
    + right. repeat split; try congruence; lia.
    + right. repeat split; try congruence.
    + congruence.
Qed.

Lemma aiWrites_send b n :
  Building.ownership b = enemy -> 0 < n ->
  aiWrites b (Building.set_soldiers (Building.soldiers b - n) b).
Proof. unfold aiWrites. intros Ho Hn. cbn. repeat split; auto; try lia; congruence. Qed.

Lemma aiWrites_startUpgrade b :
  Building.ownership b = enemy -> Building.level b < 3 ->
  aiWrites b (fst (Building.startUpgrade b)).
Proof.
  unfold aiWrites, Building.startUpgrade. intros Ho Hl.
  destruct (Building.isUpgrading b) eqn:Hup; [cbn; repeat split; auto; try lia; congruence|].
  destruct (Z.ltb_spec (Building.soldiers b) (5 * Building.level b));
    cbn; repeat split; auto; try lia; try congruence.
Qed.

Lemma aiWrites_sendSoldiers src tgt count s sb :
  MainScene.buildings s !! src = Some sb ->
  Building.ownership sb = enemy ->
  written aiWrites s (MainScene.sendSoldiers src tgt count s).
Proof.
  intros Hsrc Ho.
  destruct (sendSoldiers_buildings src tgt count s) as [Heq|(sb' & Hsrc' & Hn & Heq)].
  - by apply written_same; [apply aiWrites_refl|].
  - rewrite Hsrc in Hsrc'. injection Hsrc' as <-.
    eapply written_insert; [apply aiWrites_refl|done..|]. by apply aiWrites_send.
Qed.

Lemma aiWrites_decideForBuilding i rnd s b :
  MainScene.buildings s !! i = Some b ->
  Building.ownership b = enemy ->
  written aiWrites s (MainScene.decideForBuilding i rnd s).
Proof.
  intros Hi Ho. unfold MainScene.decideForBuilding, MainScene.expandToNeutral,
    MainScene.attackTarget. rewrite Hi.
  pose proof (written_refl aiWrites aiWrites_refl s) as Hrefl.
  destruct (Building.isUpgrading b) eqn:Hup; [done|].
  destruct (Building.soldiers b <=? 1); [done|].
  destruct (AIController.evaluateStrategicOptions _ _ _ _) as [| |t n|t n]; [done| | |].
  - cbn [negb andb]. destruct (Z.ltb_spec (Building.level b) 3); [|done].
    unfold MainScene.startUpgrade. rewrite Hi.
    eapply (written_insert _ aiWrites_refl i b (fst (Building.startUpgrade b))); [done| |].
    + by destruct (snd (Building.startUpgrade b)).
    + by apply aiWrites_startUpgrade.
  - destruct (PrimFloat.ltb 0 n); [|done]. by eapply aiWrites_sendSoldiers.
  - destruct (PrimFloat.ltb 0 n); [|done]. by eapply aiWrites_sendSoldiers.
Qed.

Lemma aiWrites_aiUpdate time rnd s :
  written aiWrites s (MainScene.aiUpdate time rnd s).
Proof.
  unfold MainScene.aiUpdate, MainScene.makeDecisions.
  case_match; [apply written_refl, aiWrites_refl|].
  set (s0 := MainScene.set_aiController _ s).
  change (MainScene.buildings s) with (MainScene.buildings s0).
  change (written aiWrites s0
            (foldl (fun s' kb => MainScene.decideForBuilding kb.2.1 (rnd kb.1) s') s0
               (imap (fun k ib => (k, ib))
                  (AIController.getEnemyBuildings (MainScene.buildings s0))))).
  apply (foldl_invariant_elem (written aiWrites s0));
    [apply written_refl, aiWrites_refl|].
  intros s' [k [i b]] Hin Hs'.
  apply elem_of_lookup_imap in Hin as (k' & ib & [= -> <-] & Hk).
  apply list_elem_of_lookup_2, buildingsOf_spec in Hk as (Hi & _ & Ho).
  cbn [fst snd].
  destruct (Forall2_lookup_l _ _ _ _ _ Hs' Hi) as (b' & Hi' & Hw).
  eapply written_trans; [apply aiWrites_trans|apply Hs'|].
  eapply aiWrites_decideForBuilding; [done|].
  destruct Hw as (-> & _). done.
Qed.

(** X10.  A pass of the AI only spends the enemy's own troops: it changes
    no owner and no level, leaves every building that is not the enemy's as
    it is, raises no troop count (of a building whose level is not
    negative), reports nothing and keeps the player's selection. *)
Theorem ai_only_spends_its_own_troops (time : float)
    (rnd : nat -> AIController.Draws) (s : MainScene.t) :
  Forall2
    (fun b b' =>
       Building.ownership b' = Building.ownership b
       /\ Building.level b' = Building.level b
       /\ (0 <= Building.level b -> Building.soldiers b' <= Building.soldiers b)
       /\ (Building.ownership b <> enemy -> b' = b))
    (MainScene.buildings s) (MainScene.buildings (MainScene.aiUpdate time rnd s))
  /\ reported (MainScene.aiUpdate time rnd s) = reported s
  /\ MainScene.selectedBuilding (MainScene.aiUpdate time rnd s) = MainScene.selectedBuilding s.
Proof.
  split; [|split].
  - eapply Forall2_impl; [apply (aiWrites_aiUpdate time rnd s)|].
    unfold aiWrites. intros b b' H. tauto.
  - apply reported_aiUpdate.
  - by apply (obs_aiUpdate MainScene.selectedBuilding).
Qed.

(** X11.  The AI respects the level cap: a pass of the AI starts no upgrade
    on a building of level 3 or more (nor on a building that is not the
    enemy's, nor on one that is upgrading), and changes no level. *)
Theorem ai_respects_the_level_cap (time : float)
    (rnd : nat -> AIController.Draws) (s : MainScene.t) :
  Forall2
    (fun b b' =>
       Building.level b' = Building.level b
       /\ (3 <= Building.level b \/ Building.ownership b <> enemy
           \/ Building.isUpgrading b = true ->
           Building.isUpgrading b' = Building.isUpgrading b
           /\ Building.upgradeProgress b' = Building.upgradeProgress b))
    (MainScene.buildings s) (MainScene.buildings (MainScene.aiUpdate time rnd s)).
Proof.
  eapply Forall2_impl; [apply (aiWrites_aiUpdate time rnd s)|].
  unfold aiWrites. intros b b' (Ho & Hp & Hl & Hs & Hn & He & Hu).
  split; [done|]. intros [Hcap|[Hne|Hup]].
  - destruct Hu as [?|(? & ? & ? & ?)]; [done|lia].
  - by rewrite (He Hne).
  - destruct Hu as [?|(? & ? & ? & ?)]; [done|congruence].
Qed.

End AI.

(** ** What the AI decides *)

Section AITargets.

Implicit Types (b : Building.t).

Lemma insertByScore_Permutation (t : AIController.Target) (l : list AIController.Target) :
  AIController.insertByScore t l ≡ₚ t :: l.
Proof.
  induction l as [|u l IH]; [done|]. cbn.
  destruct (PrimFloat.ltb _ _); [|done].
  rewrite IH. apply Permutation_swap.
Qed.

Lemma sortByScore_Permutation (l : list AIController.Target) :
  AIController.sortByScore l ≡ₚ l.
Proof.
  unfold AIController.sortByScore. induction l as [|t l IH]; [done|].
  cbn. by rewrite insertByScore_Permutation, IH.
Qed.

(** The targets that a target evaluation collects before sorting. *)
Lemma collected_targets {A} (keep : A -> bool) (target : A -> AIController.Target)
    (l : list A) (acc : list AIController.Target) (t : AIController.Target) :
  t ∈ foldl (fun targets a => if keep a then targets ++ [target a] else targets) acc l
  <-> t ∈ acc \/ exists a, a ∈ l /\ keep a = true /\ t = target a.
Proof.
  revert acc. induction l as [|a l IH]; intros acc; cbn.
  - split; [by left|]. intros [?|(a & Ha & _)]; [done|]. by apply elem_of_nil in Ha.
  - rewrite IH. destruct (keep a) eqn:Hk.
    + rewrite elem_of_app, list_elem_of_singleton. split.
      * intros [[? | ->] | (a' & Ha' & ?)]; [by left| |].
        -- right. exists a. split; [left|done].
        -- right. exists a'. split; [by right|done].
      * intros [?|(a' & Ha' & Hk' & ->)]; [by left; left|].
        apply elem_of_cons in Ha' as [->|Ha']; [by left; right|].
        right. by exists a'.
    + split.
      * intros [?|(a' & Ha' & ?)]; [by left|]. right. exists a'. split; [by right|done].
      * intros [?|(a' & Ha' & Hk' & ->)]; [by left|].
        apply elem_of_cons in Ha' as [->|Ha']; [congruence|].
        right. by exists a'.
Qed.

Lemma evaluateExpansionTargets_spec building (bs : list Building.t) (t : AIController.Target) :
  t ∈ AIController.evaluateExpansionTargets building (AIController.getNeutralBuildings bs)
  -> exists tb,
       bs !! AIController.building t = Some tb
       /\ Building.active tb = true
       /\ Building.ownership tb = neutral
       /\ outnumbers 1.2 building tb = true.
Proof.
  unfold AIController.evaluateExpansionTargets.
  rewrite sortByScore_Permutation.
  rewrite (collected_targets
             (fun ib : nat * Building.t => outnumbers 1.2 building (snd ib))
             (fun ib => AIController.mkTarget (fst ib) _ _)).
  intros [Hnil|([i tb] & Hin & Hk & ->)]; [by apply elem_of_nil in Hnil|].
  apply buildingsOf_spec in Hin as (Hi & Ha & Ho). by exists tb.
Qed.

Lemma evaluateAttackTargets_spec building (bs : list Building.t) (t : AIController.Target) :
  t ∈ AIController.evaluateAttackTargets building (AIController.getPlayerBuildings bs)
  -> exists tb,
       bs !! AIController.building t = Some tb
       /\ Building.active tb = true
       /\ Building.ownership tb = player
       /\ outnumbers 1.5 building tb = true.
Proof.
  unfold AIController.evaluateAttackTargets.
  rewrite sortByScore_Permutation.
  rewrite (collected_targets
             (fun ib : nat * Building.t => outnumbers 1.5 building (snd ib))
             (fun ib => AIController.mkTarget (fst ib) _ _)).
  intros [Hnil|([i tb] & Hin & Hk & ->)]; [by apply elem_of_nil in Hnil|].
  apply buildingsOf_spec in Hin as (Hi & Ha & Ho). by exists tb.
Qed.

(** X12.  What [evaluateStrategicOptions] decides.  Anything but a hold
    needs a sendable cap above 1; an upgrade needs a level below 3 and more
    than 15 soldiers; an expansion goes to an active neutral building that
    the source outnumbers by more than 1.2 to 1, an attack to an active
    player building that it outnumbers by more than 1.5 to 1, and the count
    sent is the smaller of the cap and 1.5 times the target's soldiers,
    rounded up.  So the AI never targets a building of its own. *)
Theorem ai_chooses_targets_it_outnumbers (ai : AIController.t) (bs : list Building.t)
    (building : Building.t) (rnd : AIController.Draws) :
  let decision := AIController.evaluateStrategicOptions ai bs building rnd in
  let cap := AIController.maxSoldiersToSend ai bs building in
  (decision <> AIController.hold -> PrimFloat.leb cap 1 = false)
  /\ (decision = AIController.upgrade ->
      Building.level building < 3 /\ 15 < Building.soldiers building)
  /\ (forall t n, decision = AIController.expand t n ->
        exists tb,
          bs !! t = Some tb
          /\ Building.active tb = true
          /\ Building.ownership tb = neutral
          /\ outnumbers 1.2 building tb = true
          /\ n = JS.Math_min cap (JS.Math_ceil (JS.Z2float (Building.soldiers tb) * 1.5)%float))
  /\ (forall t n, decision = AIController.attack t n ->
        exists tb,
          bs !! t = Some tb
          /\ Building.active tb = true
          /\ Building.ownership tb = player
          /\ outnumbers 1.5 building tb = true
          /\ n = JS.Math_min cap (JS.Math_ceil (JS.Z2float (Building.soldiers tb) * 1.5)%float)).
Proof.
  cbv zeta. unfold AIController.evaluateStrategicOptions.
  pose proof (evaluateExpansionTargets_spec building bs) as Hexp.
  pose proof (evaluateAttackTargets_spec building bs) as Hatt.
  fold (AIController.getNeutralBuildings bs) (AIController.getPlayerBuildings bs).
  set (cap := AIController.maxSoldiersToSend ai bs building).
  destruct (PrimFloat.leb cap 1) eqn:Hcap.
  { repeat split; try done. }
  set (exps := AIController.evaluateExpansionTargets _ _) in *.
  set (atts := AIController.evaluateAttackTargets _ _) in *.
  assert (forall t n,
            match atts with
            | target :: _ =>
                if PrimFloat.ltb (AIController.r_attack rnd) (AIController.aggressiveness ai)
                then AIController.attack (AIController.building target)
                       (JS.Math_min cap
                          (JS.Math_ceil
                             (JS.Z2float (AIController.targetSoldiers bs target) * 1.5)%float))
                else AIController.hold
            | [] => AIController.hold
            end = AIController.attack t n ->
            exists tb,
              bs !! t = Some tb /\ Building.active tb = true
              /\ Building.ownership tb = player /\ outnumbers 1.5 building tb = true
              /\ n = JS.Math_min cap
                       (JS.Math_ceil (JS.Z2float (Building.soldiers tb) * 1.5)%float))
    as Hsend.
  { intros t n. destruct atts as [|target atts']; [done|].
    destruct (PrimFloat.ltb _ _); [|done]. intros [= <- <-].
    destruct (Hatt target) as (tb & Htb & Ha & Ho & Hout); [left|].
    exists tb. unfold AIController.targetSoldiers. rewrite Htb. by repeat split. }
  destruct ((Building.level building <? 3) && (15 <? Building.soldiers building)
            && PrimFloat.ltb (AIController.r_upgrade rnd) 0.1) eqn:Hupg.
  { apply andb_true_iff in Hupg as [Hupg _]. apply andb_true_iff in Hupg as [H1 H2].
    apply Z.ltb_lt in H1, H2. repeat split; try done; lia. }
  split; [done|]. split.
  { intros Heq. exfalso. revert Heq. repeat case_match; discriminate. }
  split.
  - intros t n. destruct exps as [|target exps'].
    + intros Heq. exfalso. revert Heq. repeat case_match; discriminate.
    + destruct (PrimFloat.ltb (AIController.r_expand rnd) _).
      * intros [= <- <-]. destruct (Hexp target) as (tb & Htb & Ha & Ho & Hout); [left|].
        exists tb. unfold AIController.targetSoldiers. rewrite Htb. by repeat split.
      * intros Heq. exfalso. revert Heq. repeat case_match; discriminate.
  - intros t n. destruct exps as [|target exps']; [apply Hsend|].
    destruct (PrimFloat.ltb (AIController.r_expand rnd) _); [done|apply Hsend].
Qed.

(** X13.  [calculateThreatLevel] never returns more than 1, and it returns
    0 when no player building is closer than 300. *)
Theorem threat_level_is_capped (building : Building.t)
    (playerBuildings : list (nat * Building.t)) :
  PrimFloat.ltb 1 (AIController.calculateThreatLevel building playerBuildings) = false
  /\ (Forall (fun ib =>
                PrimFloat.ltb
                  (JS.Distance_Between (Building.x building) (Building.y building)
                     (Building.x (snd ib)) (Building.y (snd ib))) 300 = false)
             playerBuildings ->
      AIController.calculateThreatLevel building playerBuildings = 0%float).
Proof.
  unfold AIController.calculateThreatLevel. split.
  - set (t := foldl _ _ _). unfold JS.Math_min.
    destruct (PrimFloat.is_nan 1 || PrimFloat.is_nan t); [done|].
    destruct (PrimFloat.ltb 1 t) eqn:H1; [done|].
    destruct (PrimFloat.ltb t 1); [done|]. done.
  - intros Hfar.
    match goal with |- JS.Math_min 1 (foldl ?f _ _) = _ => set (step := f) end.
    assert (foldl step 0%float playerBuildings = 0%float) as ->; [|done].
    induction Hfar as [|ib l Hib Hl IH]; [done|].
    cbn [foldl]. unfold step at 2. cbv beta zeta. by rewrite Hib.
Qed.

End AITargets.

(** ** The end of a frame *)

Section FrameEnd.

Implicit Types (s : MainScene.t).

Lemma owns_written o s s' :
  written (fun b b' => Building.ownership b' = Building.ownership b
                       /\ Building.active b' = Building.active b) s s' ->
  owns o (MainScene.buildings s) <-> owns o (MainScene.buildings s').
Proof.
  unfold written, owns. intros Hw. split.
  - intros (b & Hb & Ha & Ho). apply list_elem_of_lookup in Hb as [i Hi].
    destruct (Forall2_lookup_l _ _ _ _ _ Hw Hi) as (b' & Hi' & Ho' & Ha').
    exists b'. split; [by eapply list_elem_of_lookup_2|]. split; congruence.
  - intros (b' & Hb & Ha & Ho). apply list_elem_of_lookup in Hb as [i Hi].
    destruct (Forall2_lookup_r _ _ _ _ _ Hw Hi) as (b & Hi' & Ho' & Ha').
    exists b. split; [by eapply list_elem_of_lookup_2|]. split; congruence.
Qed.

(** X14.  A frame after which the match is not over ends with both sides
    owning a building, or neither: the terminal check runs after the
    arrivals of the frame, and the AI pass that follows it takes no
    building. *)
Theorem frame_ends_decided (time delta : float) (clock : nat -> Z)
    (rnd : nat -> AIController.Draws) (s : MainScene.t) :
  let s' := MainScene.update time delta clock rnd s in
  MainScene.gameOver s' = false ->
  (owns player (MainScene.buildings s') <-> owns enemy (MainScene.buildings s')).
Proof.
  cbv zeta. unfold MainScene.update.
  destruct (MainScene.gameOver s) eqn:Hgo; [congruence|].
  set (s1 := foldl _ s _).
  destruct (foldl (MainScene.soldierStep delta) _ _) as [[s2 still] changed].
  set (s4 := if changed then _ else _).
  intros Hover.
  assert (MainScene.gameOver (MainScene.checkGameOver s4) = false) as Hover4.
  { pose proof (reported_aiUpdate time rnd (MainScene.checkGameOver s4)) as Hr.
    unfold reported in Hr. congruence. }
  rewrite <- (owns_written player (MainScene.checkGameOver s4)),
          <- (owns_written enemy (MainScene.checkGameOver s4)).
  2,3: eapply Forall2_impl; [apply aiWrites_aiUpdate|];
       unfold aiWrites, site; intros b b' (? & ? & ? & ? & _); split; congruence.
  rewrite buildings_checkGameOver.
  unfold MainScene.checkGameOver in Hover4.
  destruct (MainScene.gameOver s4) eqn:Hgo4; [congruence|].
  destruct (hasBuildings_spec (MainScene.buildings s4)) as [Hp He].
  destruct (fst (MainScene.hasBuildings (MainScene.buildings s4))),
           (snd (MainScene.hasBuildings (MainScene.buildings s4)));
    cbn in Hover4; try done; intuition congruence.
Qed.

End FrameEnd.

(** ** The displayed counts *)

Section Counts.

Implicit Types (s : MainScene.t) (b : Building.t).

Lemma count_buildings (bs : list Building.t) (c : Z * Z) :
  foldl
    (fun (c : Z * Z) building =>
       if negb (Building.active building) then c
       else
         match Building.ownership building with
         | player => (fst c + Building.soldiers building, snd c)
         | enemy => (fst c, snd c + Building.soldiers building)
         | neutral => c
         end) c bs
  = (fst c + garrisons player bs, snd c + garrisons enemy bs).
Proof.
  revert c. induction bs as [|b bs IH]; intros [p e]; cbn [foldl garrisons foldr].
  - cbn. f_equal; lia.
  - rewrite IH. fold (garrisons player bs) (garrisons enemy bs).
    destruct (Building.active b), (Building.ownership b); cbn [fst snd negb andb];
      repeat case_bool_decide; try done; f_equal; lia.
Qed.

Lemma count_soldiers s (l : list MainScene.ActiveSoldier) (c : Z * Z) :
  foldl
    (fun (c : Z * Z) soldier =>
       if negb (MainScene.soldierActive s soldier) then c
       else if MainScene.soldierIsPlayerOwned s soldier then (fst c + 1, snd c)
       else (fst c, snd c + 1)) c l
  = (fst c + fielded s true l, snd c + fielded s false l).
Proof.
  revert c. induction l as [|u l IH]; intros [p e]; cbn [foldl fielded foldr].
  - cbn. f_equal; lia.
  - rewrite IH. fold (fielded s true l) (fielded s false l).
    destruct (MainScene.soldierActive s u), (MainScene.soldierIsPlayerOwned s u);
      cbn [fst snd negb andb Bool.eqb]; f_equal; lia.
Qed.

Lemma soldierCounts_calculateSoldierCounts s :
  soldierCounts (MainScene.calculateSoldierCounts s) = strengths s.
Proof.
  unfold soldierCounts, MainScene.calculateSoldierCounts, strengths.
  cbn [MainScene.playerSoldierCount MainScene.enemySoldierCount MainScene.set_soldierCounts].
  rewrite count_buildings, count_soldiers. cbn [fst snd]. f_equal; lia.
Qed.

Lemma strengths_calculateSoldierCounts s :
  strengths (MainScene.calculateSoldierCounts s) = strengths s.
Proof. reflexivity. Qed.

(** X15.  [calculateSoldierCounts] counts, for each side, the soldiers in
    its active buildings and its active soldiers and placeholders on the
    field, each once; neutral buildings and inactive entries count for
    nothing; calling it again changes nothing, and it changes nothing when
    the counts are up to date. *)
Theorem soldier_counts_are_the_strengths (s : MainScene.t) :
  let s' := MainScene.calculateSoldierCounts s in
  MainScene.playerSoldierCount s'
  = garrisons player (MainScene.buildings s) + fielded s true (MainScene.activeSoldiers s)
  /\ MainScene.enemySoldierCount s'
     = garrisons enemy (MainScene.buildings s) + fielded s false (MainScene.activeSoldiers s)
  /\ MainScene.calculateSoldierCounts s' = s'
  /\ (soldierCounts s = strengths s -> s' = s).
Proof.
  cbv zeta. pose proof (soldierCounts_calculateSoldierCounts s) as Hc.
  apply pair_equal_spec in Hc as [Hp He].
  split; [done|]. split; [done|]. split; [reflexivity|].
  intros Heq. apply pair_equal_spec in Heq as [Hp' He'].
  cbn [fst snd] in *.
  unfold MainScene.calculateSoldierCounts in *.
  cbn [MainScene.playerSoldierCount MainScene.enemySoldierCount
       MainScene.set_soldierCounts] in Hp, He.
  rewrite <- Hp' in Hp. rewrite <- He' in He.
  unfold MainScene.set_soldierCounts. rewrite Hp, He. by destruct s.
Qed.

End Counts.

(** ** Dispatch and the strengths *)

Section Strengths.

Implicit Types (s : MainScene.t) (b : Building.t).

(** What a building adds to the garrisons of [o]. *)
Lemma garrisons_insert o (bs : list Building.t) i b b' :
  bs !! i = Some b ->
  garrisons o (<[i := b']> bs)
  = garrisons o bs
    - (if Building.active b && bool_decide (Building.ownership b = o)
       then Building.soldiers b else 0)
    + (if Building.active b' && bool_decide (Building.ownership b' = o)
       then Building.soldiers b' else 0).
Proof.
  revert i. induction bs as [|a bs IH]; intros [|i] Hi; try done.
  - injection Hi as ->. change (<[0%nat := b']> (b :: bs)) with (b' :: bs).
    cbn [garrisons foldr]. fold (garrisons o bs).
    destruct (Building.active b && _), (Building.active b' && _); lia.
  - change (<[S i := b']> (a :: bs)) with (a :: <[i := b']> bs).
    cbn [garrisons foldr].
    fold (garrisons o bs) (garrisons o (<[i := b']> bs)).
    rewrite (IH i Hi). destruct (Building.active a && _); lia.
Qed.

Lemma fielded_app s p l1 l2 :
  fielded s p (l1 ++ l2) = fielded s p l1 + fielded s p l2.
Proof.
  induction l1 as [|u l1 IH]; [done|]. cbn [app fielded foldr].
  fold (fielded s p (l1 ++ l2)) (fielded s p l1). rewrite IH.
  destruct (_ && _); lia.
Qed.

Lemma fielded_ext s s' p l :
  Forall (fun u => MainScene.soldierActive s' u = MainScene.soldierActive s u
                   /\ MainScene.soldierIsPlayerOwned s' u
                      = MainScene.soldierIsPlayerOwned s u) l ->
  fielded s' p l = fielded s p l.
Proof.
  induction 1 as [|u l [Ha Ho] Hl IH]; [done|]. cbn [fielded foldr].
  fold (fielded s p l) (fielded s' p l). by rewrite IH, Ha, Ho.
Qed.

Lemma fielded_nonneg s p l : 0 <= fielded s p l.
Proof.
  induction l as [|u l IH]; [done|]. cbn [fielded foldr]. fold (fielded s p l).
  destruct (_ && _); lia.
Qed.

(** The placeholders that [sendSoldiers] has just pushed. *)
Lemma fielded_new_placeholders s p (old : list MainScene.Placeholder) (side : bool)
    (k n : nat) :
  MainScene.placeholders s = old ++ replicate (k + n) (MainScene.mkPlaceholder true side) ->
  fielded s p (map MainScene.PlaceholderRef (seq (length old + k) n))
  = if Bool.eqb side p then Z.of_nat n else 0.
Proof.
  intros Hph. revert k Hph. induction n as [|n IH]; intros k Hph.
  - cbn. by destruct (Bool.eqb side p).
  - cbn [seq map fielded foldr].
    fold (fielded s p (map MainScene.PlaceholderRef (seq (S (length old + k)) n))).
    replace (S (length old + k)) with (length old + S k)%nat by lia.
    rewrite IH by (rewrite Hph; f_equal; f_equal; lia).
    cbn [MainScene.soldierActive MainScene.soldierIsPlayerOwned].
    rewrite Hph, lookup_app_r by lia.
    rewrite lookup_replicate_2 by lia. cbn.
    destruct (Bool.eqb side p); lia.
Qed.

Lemma placeholdersStored_old s s' :
  MainScene.activeSoldiers s' = MainScene.activeSoldiers s ->
  (length (MainScene.placeholders s) <= length (MainScene.placeholders s'))%nat ->
  placeholdersStored s -> placeholdersStored s'.
Proof.
  unfold placeholdersStored. intros -> Hle Hs.
  eapply Forall_impl; [done|]. intros [?|r]; [done|]. cbn. lia.
Qed.

(** X16.  A dispatch keeps the strength of both sides: [sendSoldiers] from
    an active building of the player or of the enemy adds to that side's
    field, as placeholders, what it takes from the garrison; the placeholder
    references stay within the store; and when it sends anything, the
    displayed counts are these strengths. *)
Theorem dispatch_keeps_the_strengths (s : MainScene.t) (src tgt : nat) (count : Z)
    (sb : Building.t) :
  MainScene.buildings s !! src = Some sb ->
  Building.active sb = true ->
  Building.ownership sb <> neutral ->
  placeholdersStored s ->
  let s' := MainScene.sendSoldiers src tgt count s in
  strengths s' = strengths s
  /\ placeholdersStored s'
  /\ (is_Some (MainScene.buildings s !! tgt) -> 0 < count -> 0 < Building.soldiers sb ->
      soldierCounts s' = strengths s).
Proof.
  intros Hsrc Hact Hown Hst. cbv zeta. unfold MainScene.sendSoldiers. rewrite Hsrc.
  destruct (MainScene.buildings s !! tgt) as [tb|] eqn:Htgt;
    [|split; [done|split; [done|by intros [? ?]]]].
  destruct (Z.leb_spec count 0); [split; [done|split; [done|lia]]|].
  set (n := Z.min (Building.soldiers sb) count).
  destruct (Z.leb_spec n 0); [split; [done|split; [done|lia]]|].
  set (s1 := MainScene.modifyBuilding src _ s).
  set (side := bool_decide (Building.ownership sb = player)).
  set (s2 := MainScene.set_activeSoldiers _ _).
  assert (strengths s2 = strengths s) as Hstr.
  { unfold strengths. subst s2 s1.
    cbn [MainScene.buildings MainScene.activeSoldiers MainScene.set_activeSoldiers
         MainScene.set_placeholders MainScene.modifyBuilding MainScene.set_buildings
         MainScene.placeholders].
    rewrite (alter_as_insert _ _ _ _ Hsrc), !(garrisons_insert _ _ _ _ _ Hsrc).
    cbn [Building.active Building.ownership Building.set_soldiers Building.soldiers].
    rewrite Hact. cbn [andb]. rewrite !fielded_app.
    set (s2 := MainScene.set_activeSoldiers _ _).
    assert (forall p, fielded s2 p (MainScene.activeSoldiers s)
                      = fielded s p (MainScene.activeSoldiers s)) as Hold.
    { intros p. apply fielded_ext. eapply Forall_impl; [exact Hst|].
      intros [soldier|r]; [done|]. cbn. intros Hr.
      by rewrite lookup_app_l by lia. }
    assert (forall p, fielded s2 p
                        (map MainScene.PlaceholderRef
                           (seq (length (MainScene.placeholders s)) (Z.to_nat n)))
                      = if Bool.eqb side p then n else 0) as Hnew.
    { intros p.
      pose proof (fielded_new_placeholders s2 p (MainScene.placeholders s) side 0
                    (Z.to_nat n)) as Hf.
      rewrite Nat.add_0_r in Hf. rewrite Hf by done.
      destruct (Bool.eqb side p); lia. }
    rewrite !Hold, !Hnew. subst side.
    destruct (Building.ownership sb); [| |done];
      repeat case_bool_decide; try done; cbn [Bool.eqb]; f_equal; lia. }
  split; [|split].
  - done.
  - unfold placeholdersStored.
    cbn [MainScene.activeSoldiers MainScene.placeholders MainScene.set_delayedCalls
         MainScene.set_closures MainScene.calculateSoldierCounts MainScene.set_soldierCounts].
    subst s2 s1.
    cbn [MainScene.activeSoldiers MainScene.placeholders MainScene.set_activeSoldiers
         MainScene.set_placeholders MainScene.modifyBuilding MainScene.set_buildings].
    rewrite Forall_app. split.
    + eapply Forall_impl; [exact Hst|]. intros [?|r]; [done|].
      rewrite length_app. lia.
    + apply Forall_fmap, Forall_forall. intros r Hr. apply elem_of_seq in Hr.
      cbn. rewrite length_app, length_replicate. lia.
  - intros _ _ _. rewrite <- Hstr. apply soldierCounts_calculateSoldierCounts.
Qed.

End Strengths.

(** ** Placing a building *)

Section Placement.

Implicit Types (b : Building.t) (bs : list Building.t).

Lemma isOverlapping_spec x y bs :
  MainScene.isOverlapping x y bs = true <-> Exists (fun b => tooClose x y b = true) bs.
Proof.
  induction bs as [|b bs IH]; cbn [MainScene.isOverlapping].
  - split; [done|]. by intros ?%Exists_nil.
  - rewrite Exists_cons, <- IH. unfold tooClose.
    change (100 * 100)%float with 10000%float.
    destruct (PrimFloat.ltb _ _); intuition congruence.
Qed.

Lemma isOverlapping_false x y bs :
  MainScene.isOverlapping x y bs = false <-> Forall (fun b => tooClose x y b = false) bs.
Proof.
  rewrite <- not_true_iff_false, isOverlapping_spec, <- Forall_Exists_neg.
  apply Forall_iff. intros b. apply not_true_iff_false.
Qed.

(** The loop stops at the first free attempt, or after its last one. *)
Lemma drawPosition_spec remaining attempts minX maxX minY maxY bs rnd :
  let '(x, y, attempts') :=
    MainScene.drawPosition remaining attempts minX maxX minY maxY bs rnd in
  (attempts < attempts' <= attempts + remaining + 1)%nat
  /\ (x, y) = attempt minX maxX minY maxY rnd (attempts' - 1)
  /\ (forall k, (attempts <= k < attempts' - 1)%nat ->
        MainScene.isOverlapping (attempt minX maxX minY maxY rnd k).1
          (attempt minX maxX minY maxY rnd k).2 bs = true)
  /\ ((attempts' < attempts + remaining + 1)%nat -> MainScene.isOverlapping x y bs = false).
Proof.
  revert attempts. induction remaining as [|remaining IH]; intros attempts;
    cbn [MainScene.drawPosition].
  - split; [lia|]. split; [by rewrite Nat.sub_succ, Nat.sub_0_r|].
    split; intros; lia.
  - destruct (MainScene.isOverlapping _ _ bs) eqn:Hov.
    + specialize (IH (S attempts)).
      destruct (MainScene.drawPosition remaining (S attempts) _ _ _ _ bs rnd)
        as [[x y] attempts'].
      destruct IH as (Hle & Hxy & Hbefore & Hfree).
      split; [lia|]. split; [done|]. split.
      * intros k Hk. destruct (decide (k = attempts)) as [->|Hne]; [exact Hov|].
        apply Hbefore. lia.
      * intros Hlt. apply Hfree. lia.
    + split; [lia|]. split; [by rewrite Nat.sub_succ, Nat.sub_0_r|].
      split; [intros; lia|done].
Qed.

(** A position returned after fewer than 200 readings of [Math.random()]
    is not too close to any building. *)
Lemma getValidBuildingPosition_free (minX maxX minY maxY : float)
    (buildings : list Building.t) (rnd : nat -> float) :
  let '(x, y, readings) :=
    MainScene.getValidBuildingPosition minX maxX minY maxY buildings rnd in
  (readings < 200)%nat -> Forall (fun b => tooClose x y b = false) buildings.
Proof.
  unfold MainScene.getValidBuildingPosition.
  pose proof (drawPosition_spec (MainScene.maxAttempts - 1) 0 minX maxX minY maxY
                buildings rnd) as Hdraw.
  destruct (MainScene.drawPosition _ _ _ _ _ _ buildings rnd) as [[x y] attempts].
  destruct Hdraw as (Hle & Hxy & Hbefore & Hfree).
  change (MainScene.maxAttempts - 1)%nat with 99%nat in *.
  change MainScene.maxAttempts with 100%nat.
  destruct (Nat.eqb_spec attempts 100) as [->|Hne]; [intros; lia|].
  intros _. apply isOverlapping_false, Hfree. lia.
Qed.

(** X17.  [getValidBuildingPosition] makes between 1 and 100 attempts, each
    but the last on a point that overlaps a building.  With fewer than 100
    attempts it returns the last attempt, which overlaps no building (none
    is less than 100 away).  After 100 attempts it returns a new draw from
    the band widened by 50 on each side, untested, whether or not the
    hundredth attempt was free. *)
Theorem getValidBuildingPosition_spec (minX maxX minY maxY : float)
    (buildings : list Building.t) (rnd : nat -> float) :
  let '(x, y, readings) :=
    MainScene.getValidBuildingPosition minX maxX minY maxY buildings rnd in
  let overlaps k :=
    MainScene.isOverlapping (attempt minX maxX minY maxY rnd k).1
      (attempt minX maxX minY maxY rnd k).2 buildings in
  (exists attempts,
     (1 <= attempts <= 100)%nat
     /\ readings = (if (attempts =? 100)%nat then 202 else 2 * attempts)%nat
     /\ (forall k, (k < attempts - 1)%nat -> overlaps k = true)
     /\ ((attempts < 100)%nat ->
         (x, y) = attempt minX maxX minY maxY rnd (attempts - 1)
         /\ MainScene.isOverlapping x y buildings = false)
     /\ (attempts = 100%nat ->
         (x, y) = attempt (minX - 50) (maxX + 50) minY maxY rnd 100))
  /\ ((readings < 200)%nat -> Forall (fun b => tooClose x y b = false) buildings).
Proof.
  unfold MainScene.getValidBuildingPosition.
  pose proof (drawPosition_spec (MainScene.maxAttempts - 1) 0 minX maxX minY maxY
                buildings rnd) as Hdraw.
  destruct (MainScene.drawPosition _ _ _ _ _ _ buildings rnd) as [[x y] attempts].
  destruct Hdraw as (Hle & Hxy & Hbefore & Hfree).
  change (MainScene.maxAttempts - 1)%nat with 99%nat in *.
  change MainScene.maxAttempts with 100%nat.
  destruct (Nat.eqb_spec attempts 100) as [->|Hne]; cbv zeta.
  - split; [|intros; lia].
    exists 100%nat. split; [lia|]. split; [done|].
    split; [intros k Hk; apply Hbefore; lia|]. split; [lia|done].
  - assert (MainScene.isOverlapping x y buildings = false) as Hfree' by (apply Hfree; lia).
    split; [|by intros _; apply isOverlapping_false].
    exists attempts. split; [lia|].
    destruct (Nat.eqb_spec attempts 100); [done|].
    split; [done|]. split; [intros k Hk; apply Hbefore; lia|]. split; [done|lia].
Qed.

End Placement.

(** ** The layout of a new match *)

Section Layout.

Implicit Types (b : Building.t) (bs : list Building.t).

Lemma iter_invariant {A} (P : A -> Prop) (f : A -> A) (n : nat) (a : A) :
  P a -> (forall a', P a' -> P (f a')) -> P (Nat.iter n f a).
Proof. intros Ha Hf. induction n; cbn; auto. Qed.

Lemma placeBuilding_placed now w h rnd o st :
  (forall j bj, fst st !! j = Some bj -> placedAt now w h rnd (fst st) j bj) ->
  let st' :=
    MainScene.placeBuilding now (w * fst (band o))%float (w * snd (band o))%float
      (h * 0.2)%float (h * 0.8)%float o rnd st in
  (exists b, fst st' = fst st ++ [b] /\ Building.ownership b = o)
  /\ forall j bj, fst st' !! j = Some bj -> placedAt now w h rnd (fst st') j bj.
Proof.
  intros Hst. cbv zeta. unfold MainScene.placeBuilding.
  pose proof (getValidBuildingPosition_free (w * fst (band o))%float
                (w * snd (band o))%float (h * 0.2)%float (h * 0.8)%float (fst st)
                (fun k => rnd (snd st + k)%nat)) as Hfree.
  destruct (MainScene.getValidBuildingPosition _ _ _ _ (fst st) _) as [[x y] readings] eqn:Hget.
  cbn [fst snd].
  split; [by eexists|].
  intros j bj Hj. apply lookup_app_Some in Hj as [Hj|[Hlen Hj]].
  - destruct (Hst j bj Hj) as (used & r & Hg & Hc & Hf).
    apply lookup_lt_Some in Hj as Hlt.
    exists used, r. by rewrite take_app_le by lia.
  - apply list_lookup_singleton_Some in Hj as [Hz <-].
    assert (j = length (fst st)) as -> by lia.
    exists (snd st), readings. rewrite take_app_length. by cbn.
Qed.

Lemma placeBuildings_iter now w h rnd o n st :
  (forall j bj, fst st !! j = Some bj -> placedAt now w h rnd (fst st) j bj) ->
  let st' :=
    Nat.iter n
      (MainScene.placeBuilding now (w * fst (band o))%float (w * snd (band o))%float
         (h * 0.2)%float (h * 0.8)%float o rnd) st in
  map Building.ownership (fst st') = map Building.ownership (fst st) ++ replicate n o
  /\ forall j bj, fst st' !! j = Some bj -> placedAt now w h rnd (fst st') j bj.
Proof.
  intros Hst. induction n as [|n [IHo IHp]]; cbv zeta.
  - cbn. by rewrite app_nil_r.
  - rewrite Nat.iter_succ. set (stn := Nat.iter n _ st) in *.
    pose proof (placeBuilding_placed now w h rnd o stn IHp) as Hstep.
    cbv zeta in Hstep. destruct Hstep as [(b & Hb & Ho) Hp].
    split; [|done]. rewrite Hb, map_app, IHo. cbn [map]. rewrite Ho.
    rewrite <- app_assoc. f_equal. change [o] with (replicate 1 o).
    rewrite <- replicate_add. f_equal. lia.
Qed.

(** X18.  The placement loops of [create] place four player, four enemy and
    six neutral buildings, in this order, each one a new building where
    [getValidBuildingPosition] put it, in the band of its owner, against the
    buildings placed before it; unless that call gave up, the building is
    not too close to any of them. *)
Theorem placed_buildings_keep_their_distance (now : Z) (screenWidth screenHeight : float)
    (rnd : nat -> float) :
  let bs := MainScene.placeBuildings now screenWidth screenHeight rnd in
  map Building.ownership bs = replicate 4 player ++ replicate 4 enemy ++ replicate 6 neutral
  /\ (forall j bj, bs !! j = Some bj -> placedAt now screenWidth screenHeight rnd bs j bj).
Proof.
  cbv zeta. unfold MainScene.placeBuildings.
  pose proof (placeBuildings_iter now screenWidth screenHeight rnd player 4 ([], 0%nat))
    as H1. cbv zeta in H1. destruct H1 as [Ho1 Hp1]; [done|].
  pose proof (placeBuildings_iter now screenWidth screenHeight rnd enemy 4 _ Hp1) as H2.
  cbv zeta in H2. destruct H2 as [Ho2 Hp2].
  pose proof (placeBuildings_iter now screenWidth screenHeight rnd neutral 6 _ Hp2) as H3.
  cbv zeta in H3. destruct H3 as [Ho3 Hp3].
  split; [|exact Hp3]. refine (eq_trans Ho3 _). rewrite Ho2, Ho1.
  by rewrite <- app_assoc.
Qed.

End Layout.

(** ** The properties on the sample scenes *)

Section Witnesses.


(** An attacker arrives at the empty building 8: the building is taken and
    holds one soldier. *)
Lemma garrison_after_capture_is_one_witness :
  exists b',
    MainScene.buildings (MainScene.resolveArrival attacker 8 garrison0Scene) !! 8%nat = Some b'
    /\ Building.soldiers b' = 1.
Proof.
  destruct (garrison_after_capture_is_one garrison0Scene 8
              (Building.set_soldiers 0 (Building.constructor 0 1200 0 neutral))
              attacker)
    as (b' & Hb' & Hcap & _).
  - vm_compute. reflexivity.
  - vm_compute. discriminate.
  - exists b'. split; [exact Hb'|].
    apply Hcap.
    assert (MainScene.buildings (MainScene.resolveArrival attacker 8 garrison0Scene) !! 8%nat
            = Some (MainScene.arrive true
                      (Building.set_soldiers 0 (Building.constructor 0 1200 0 neutral))))
      as Heq by (vm_compute; reflexivity).
    rewrite Hb' in Heq. injection Heq as ->. vm_compute. discriminate.
Defined.

(** The sample match: a selection, an order to send building 0's soldiers
    to building 8, a spawn and two frames; and the arrival of an attacker at
    the empty building 8. *)
Lemma troop_count_never_negative_witness :
  troopsNonNegative
    (MainScene.run sampleScene
       [MainScene.PointerDown 0 false 1000; MainScene.PointerDown 8 true 1500;
        MainScene.DelayedCallFires 0 sampleSpawnDraws; sampleFrame 2000;
        sampleFrame 2016])
  /\ exists b',
       MainScene.buildings (MainScene.resolveArrival attacker 8 garrison0Scene) !! 8%nat
       = Some b'
       /\ Building.soldiers b' = 1 /\ Building.ownership b' = player.
Proof.
  split.
  - destruct (troop_count_never_negative sampleScene
                [MainScene.PointerDown 0 false 1000; MainScene.PointerDown 8 true 1500;
                 MainScene.DelayedCallFires 0 sampleSpawnDraws; sampleFrame 2000;
                 sampleFrame 2016]) as (_ & Hrun & _).
    apply Hrun. unfold troopsNonNegative. vm_compute.
    repeat (constructor; [discriminate|]). constructor.
  - destruct (troop_count_never_negative garrison0Scene []) as (_ & _ & Hcapture).
    apply (Hcapture attacker 8%nat
             (Building.set_soldiers 0 (Building.constructor 0 1200 0 neutral))).
    + vm_compute. reflexivity.
    + vm_compute. discriminate.
    + vm_compute. reflexivity.
Defined.

(** Four of the ten soldiers of building 0 are sent to building 8: six stay,
    and the four delayed calls create four soldiers. *)
Lemma dispatch_invariant_witness :
  (Building.soldiers <$>
     MainScene.buildings (MainScene.sendSoldiers 0 8 4 sampleScene) !! 0%nat) = Some 6
  /\ length (realSoldiers (MainScene.activeSoldiers
               (foldl (fun st rnd => MainScene.spawn 0 rnd st)
                      (MainScene.sendSoldiers 0 8 4 sampleScene)
                      (replicate 4 sampleSpawnDraws)))) = 4%nat
  /\ exists env,
       MainScene.closures
         (MainScene.run (MainScene.sendSoldiers 0 8 4 sampleScene)
            [MainScene.DelayedCallFires 0 sampleSpawnDraws; sampleFrame 2000;
             MainScene.DelayedCallFires 0 sampleSpawnDraws]) !! 0%nat = Some env
       /\ MainScene.spawnedSoldiers env
          + Z.of_nat (pendingOf 0
                        (MainScene.run (MainScene.sendSoldiers 0 8 4 sampleScene)
                           [MainScene.DelayedCallFires 0 sampleSpawnDraws;
                            sampleFrame 2000;
                            MainScene.DelayedCallFires 0 sampleSpawnDraws])) = 4.
Proof.
  destruct (dispatch_invariant sampleScene 0 8 4 (Building.constructor 0 0 0 player))
    as [_ Hsend].
  - vm_compute. reflexivity.
  - eexists. vm_compute. reflexivity.
  - destruct Hsend as (Hb & _ & _ & Hspawn & Hrun); [vm_compute; reflexivity|].
    split; [|split].
    + rewrite Hb. vm_compute. reflexivity.
    + destruct (Hspawn (replicate 4 sampleSpawnDraws)) as (Hn & _); [reflexivity|].
      apply Nat2Z.inj. exact Hn.
    + destruct (Hrun [MainScene.DelayedCallFires 0 sampleSpawnDraws; sampleFrame 2000;
                      MainScene.DelayedCallFires 0 sampleSpawnDraws])
        as (env & Henv & _ & Hsum).
      * split; [constructor|]. intros c env Hc. vm_compute in Hc. discriminate.
      * exists env. split; [exact Henv|exact Hsum].
Defined.

(** A player building made at time 1000 and ticked at time 3500. *)
Lemma generation_one_per_tick_witness :
  Building.soldiers (fst (Building.update 3500 (Building.constructor 1000 0 0 player))) = 11
  /\ Building.lastUpdate (fst (Building.update 3500 (Building.constructor 1000 0 0 player)))
     = 3500.
Proof.
  destruct (generation_one_per_tick (Building.constructor 1000 0 0 player) 3500)
    as (Hs & Hl & _); try reflexivity.
  split; [exact Hs|exact Hl].
Defined.

(** The scenario of the hold rule: threat level 1, half of the soldiers
    kept, 2 soldiers: the cap is 1 and the building holds. *)
Lemma ai_holds_when_cap_at_most_one_witness :
  AIController.maxSoldiersToSend (MainScene.aiController holdScene)
    (MainScene.buildings holdScene)
    (Building.set_soldiers 2 (Building.constructor 0 0 0 enemy)) = 1%float
  /\ MainScene.decideForBuilding 1 (AIController.mkDraws 0 0 0) holdScene = holdScene.
Proof.
  destruct (ai_holds_when_cap_at_most_one holdScene 1
              (Building.set_soldiers 2 (Building.constructor 0 0 0 enemy))
              (AIController.mkDraws 0 0 0)) as [Hcap Hhold].
  - reflexivity.
  - split.
    + rewrite Hcap. vm_compute. reflexivity.
    + apply Hhold. vm_compute. reflexivity.
Defined.

(** The stray soldier arrives in a frame of 16 ms: the buildings are as
    before, the soldier is not kept, and no real soldier is left after the
    frame. *)
Lemma arrival_on_empty_ground_witness :
  MainScene.buildings (MainScene.soldierStep 16 (emptyGroundScene, [], false) 0).1.1
  = MainScene.buildings emptyGroundScene
  /\ (MainScene.soldierStep 16 (emptyGroundScene, [], false) 0).1.2 = []
  /\ realSoldiers (MainScene.activeSoldiers
                     (MainScene.update 100 16 (fun _ => 100)
                        (fun _ => AIController.mkDraws 0.5 0.5 0.5) emptyGroundScene))
     = [].
Proof.
  destruct (arrival_on_empty_ground 16 emptyGroundScene [] false 0 straySoldier)
    as (Hstep & Hb & Hnone & Hframe).
  - reflexivity.
  - reflexivity.
  - vm_compute. reflexivity.
  - repeat (constructor; [vm_compute; reflexivity|]). constructor.
  - split; [exact Hb|]. split; [by rewrite Hstep|].
    rewrite Hframe by reflexivity.
    change (realSoldiers (MainScene.activeSoldiers emptyGroundScene)) with [straySoldier].
    cbn [flat_map]. rewrite Hnone. reflexivity.
Defined.

(** The scenario of terminal detection: no enemy building and fourteen
    player or neutral ones; the first frame reports the win, the next two
    report nothing. *)
Lemma terminal_detection_witness :
  reported (MainScene.run wonScene [sampleFrame 100]) = (true, [true])
  /\ reported (MainScene.run (MainScene.run wonScene [sampleFrame 100])
                 [sampleFrame 116; sampleFrame 132])
     = (true, [true]).
Proof.
  assert (reported (MainScene.run wonScene [sampleFrame 100]) = (true, [true])) as Hfirst
    by (vm_compute; reflexivity).
  split; [exact Hfirst|].
  destruct (terminal_detection (MainScene.run wonScene [sampleFrame 100]))
    as (_ & _ & _ & Hsticky & _).
  rewrite Hsticky; [exact Hfirst|].
  vm_compute. reflexivity.
Defined.

(** A player building at level 3 with 20 soldiers: the upgrade starts and
    costs 15, from the method as from a double click on the building, and
    the level is 4 after the upgrade time. *)
Lemma startUpgrade_ignores_level_cap_witness :
  Building.soldiers (fst (Building.startUpgrade
     (Building.set_level 3 (Building.set_soldiers 20
        (Building.constructor 0 0 0 player))))) = 5
  /\ Building.level (fst (Building.update 3000 (fst (Building.startUpgrade
       (Building.set_level 3 (Building.set_soldiers 20
          (Building.constructor 0 0 0 player))))))) = 4
  /\ (Building.isUpgrading <$>
        MainScene.buildings
          (MainScene.pointerdown 0 false 100
             (MainScene.modifyBuilding 0
                (fun b => Building.set_level 3 (Building.set_soldiers 20 b))
                sampleScene)) !! 0%nat) = Some true.
Proof.
  destruct (startUpgrade_ignores_level_cap
              (Building.set_level 3 (Building.set_soldiers 20
                 (Building.constructor 0 0 0 player))))
    as (_ & Hs & _ & Hl).
  - vm_compute. discriminate.
  - reflexivity.
  - vm_compute. discriminate.
  - split; [exact Hs|]. split.
    + apply (Hl 3000). vm_compute. discriminate.
    + vm_compute. reflexivity.
Defined.

(** The soldier of [new Soldier(scene, 100, 100, 100, 100, true)], over three
    frames of 16 ms. *)
Lemma degenerate_soldier_never_arrives_witness :
  PrimFloat.is_nan (Soldier.vx (Soldier.constructor 100 100 100 100 true)) = true
  /\ PrimFloat.is_nan (Soldier.vy (Soldier.constructor 100 100 100 100 true)) = true
  /\ snd (Soldier.update 16
            (foldl (fun soldier d => fst (Soldier.update d soldier))
                   (Soldier.constructor 100 100 100 100 true) [16; 16]%float)) = false.
Proof.
  apply (degenerate_soldier_never_arrives 100 100 true [16; 16]%float 16); reflexivity.
Defined.

(** Two presses on the first building of the sample match bring the scene
    back. *)
Lemma selectBuilding_twice_witness :
  MainScene.selectBuilding 0 (MainScene.selectBuilding 0 sampleScene) = sampleScene.
Proof.
  apply (selectBuilding_twice sampleScene 0 firstBuilding).
  - vm_compute. reflexivity.
  - reflexivity.
  - left. split; reflexivity.
Defined.

(** A new player building starts its upgrade (10 soldiers, cost 5) and is
    ticked at 1000, 2000 and 2999 ms, then at 3000 ms. *)
Lemma upgrade_runs_on_the_generation_clock_witness :
  Building.level (ticks [1000; 2000; 2999] (fst (Building.startUpgrade firstBuilding))) = 1
  /\ Building.level
       (fst (Building.update 3000
               (ticks [1000; 2000; 2999] (fst (Building.startUpgrade firstBuilding))))) = 2.
Proof.
  destruct (upgrade_runs_on_the_generation_clock firstBuilding [1000; 2000; 2999] 3000)
    as ((_ & Hl & _) & Hl' & _).
  - reflexivity.
  - cbn. lia.
  - repeat constructor; cbn; lia.
  - cbn. lia.
  - split; [exact Hl|exact Hl'].
Defined.



(** A frame of the sample match: it goes on, and both sides own buildings. *)
Lemma frame_ends_decided_witness :
  owns player (MainScene.buildings
                 (MainScene.update 100 16 (fun _ => 100) (fun _ => holdDraws) sampleScene))
  <-> owns enemy (MainScene.buildings
                    (MainScene.update 100 16 (fun _ => 100) (fun _ => holdDraws) sampleScene)).
Proof.
  apply (frame_ends_decided 100 16 (fun _ => 100) (fun _ => holdDraws) sampleScene).
  vm_compute. reflexivity.
Defined.

(** The enemy building 4 of the sample match sends 4 of its 10 soldiers to
    building 8: both sides still count 40. *)
Lemma dispatch_keeps_the_strengths_witness :
  strengths (MainScene.sendSoldiers 4 8 4 sampleScene) = (40, 40)
  /\ soldierCounts (MainScene.sendSoldiers 4 8 4 sampleScene) = (40, 40)
  /\ garrison 4 (MainScene.sendSoldiers 4 8 4 sampleScene) = Some (enemy, 6).
Proof.
  destruct (dispatch_keeps_the_strengths sampleScene 4 8 4
              (Building.constructor 0 (JS.Z2float 600) 0 enemy))
    as (Hs & _ & Hc).
  - vm_compute. reflexivity.
  - reflexivity.
  - discriminate.
  - constructor.
  - split; [rewrite Hs; vm_compute; reflexivity|]. split.
    + rewrite Hc; [vm_compute; reflexivity|by eexists|lia|cbn; lia].
    + vm_compute. reflexivity.
Defined.

(** ** A played capture

    The capture of the scenario through the whole scene: press, right
    press, spawn calls and frames.  The eight soldiers leave 45 to the right
    of their building, 705 from their target, and move 3.2 per frame: after
    217 frames they are all still on their way, and the 218th brings them
    within 10 of the target, which falls to the player with 3 soldiers. *)
Example played_capture_before_arrival :
  ((fun b => (Building.ownership b, Building.soldiers b))
     <$> MainScene.buildings (playedCapture 217) !! 8%nat) = Some (neutral, 5)
  /\ length (realSoldiers (MainScene.activeSoldiers (playedCapture 217))) = 8%nat.
Proof. vm_compute. done. Qed.

(** After the 218th frame: the target is the player's with 3 soldiers, the
    source is empty, no soldier is left, and the counts are recomputed. *)
Example played_capture_after_arrival :
  ((fun b => (Building.ownership b, Building.soldiers b))
     <$> MainScene.buildings (playedCapture 218) !! 8%nat) = Some (player, 3)
  /\ ((fun b => (Building.ownership b, Building.soldiers b))
        <$> MainScene.buildings (playedCapture 218) !! 3%nat) = Some (player, 0)
  /\ MainScene.activeSoldiers (playedCapture 218) = []
  /\ MainScene.playerSoldierCount (playedCapture 218) = 33
  /\ MainScene.enemySoldierCount (playedCapture 218) = 40.
Proof. vm_compute. done. Qed.

End Witnesses.
